(** * X6 diagram engine: overlays, hook decorator, router utilities and the
      edge handler, embedded from the TypeScript sources.

    Conventions of the embedding.
    - A JavaScript [number] is an exact rational ([Qc], canonical fractions, so
      that equality of numbers is Leibniz equality).  The rounding of IEEE
      doubles is outside the model; [Math.round] and [Math.floor] are the
      exact functions.
    - [null] and [undefined] are [None]; a [TypeError] raised by reading a
      property of [null] or [undefined] is the [None] outcome of a function
      returning [option].
    - A JS array is a [list]; an array that may hold [null] entries or holes
      is a list of options.
    - Classes whose code is not under study appear either as record fields
      of an environment (queries) or as entries of a log (commands). *)

From Stdlib Require Import QArith Qcanon Qround ZArith Lia.
From stdpp Require Import gmap strings list.

Open Scope Qc_scope.

(** * Part I: the embedding *)

(** ** Numbers *)

Abbreviation number := Qc.

Definition ofZ (z : Z) : number := Q2Qc (inject_Z z).
Definition two : number := 1 + 1.
Definition half : number := Q2Qc (1 # 2).

(** [Math.round] rounds half up: the floor of the argument plus one half. *)
Definition Math_round (q : number) : number := ofZ (Qfloor (this (q + half))).

(** ** Geometry value types *)

Module Point.
Record t := mk { x : number; y : number }.
Definition clone (p : t) : t := mk (x p) (y p).
End Point.

Module Rectangle.
Record t := mk { x : number; y : number; width : number; height : number }.
Definition clone (r : t) : t := mk (x r) (y r) (width r) (height r).
End Rectangle.

(** ** JavaScript arrays *)

(** An array whose entries may be [null], [undefined] or holes. *)
Abbreviation array A := (list (option A)).

(** [a[i]] followed by a property read of the entry: an index out of range,
    a hole and [null] all make the property read fail. *)
Definition at_index {A} (a : array A) (i : Z) : option A :=
  if bool_decide (0 <= i)%Z then mjoin (a !! Z.to_nat i) else None.

(** [a[i] = v].  Inside the array the entry is replaced; past its end the
    array grows and the skipped positions are holes; a negative [i] names a
    property that is no array entry, so the entries stay as they are. *)
Definition array_set {A} (a : array A) (i : Z) (v : A) : array A :=
  if bool_decide (i < 0)%Z then a
  else
    let n := Z.to_nat i in
    if bool_decide (n < length a)%nat then <[n := Some v]> a
    else a ++ replicate (n - length a) None ++ [Some v].

(** The start position [Array.prototype.splice] computes from its first
    argument: negative values count from the end, and the result is clamped
    to the array. *)
Definition splice_start (len : nat) (start : Z) : nat :=
  if bool_decide (start < 0)%Z then Z.to_nat (Z.max (Z.of_nat len + start) 0)
  else Nat.min (Z.to_nat start) len.

(** [a.splice(start, count)]. *)
Definition splice_remove {A} (a : list A) (start : Z) (count : nat) : list A :=
  let s := splice_start (length a) start in
  take s a ++ drop (s + count) a.

(** [a.splice(start, 0, item)]. *)
Definition splice_insert {A} (a : list A) (start : Z) (item : A) : list A :=
  let s := splice_start (length a) start in
  take s a ++ item :: drop s a.

(** ** struct/overlay.ts *)

Module Overlay.

Inductive Align := left | center | right.
Inductive VAlign := top | middle | bottom.

Record Image := { width : number; height : number }.

(** The fields of [Overlay] read by [getBounds].  [align] and
    [verticalAlign] stay [undefined] when the constructor receives none. *)
Record t := {
  image : Image;
  align : option Align;
  verticalAlign : option VAlign;
  offset : Point.t;
  defaultOverlap : number;
}.

(** The fields of [State] read by [getBounds]: [state.cell.isEdge()],
    [state.view.scale], [state.absolutePoints] and [state.bounds]. *)
Record State := {
  isEdge : bool;
  scale : number;
  absolutePoints : array Point.t;
  bounds : Rectangle.t;
}.

(** The point [pt] computed by the first half of [getBounds]. *)
Definition anchor (o : t) (state : State) : option Point.t :=
  if isEdge state then
    let pts := absolutePoints state in
    if (length pts mod 2 =? 1)%nat then
      at_index pts (Z.of_nat (length pts / 2))
    else
      let idx := Z.of_nat (length pts / 2) in
      p0 ← at_index pts (idx - 1);
      p1 ← at_index pts idx;
      Some (Point.mk
              (Point.x p0 + (Point.x p1 - Point.x p0) / two)
              (Point.y p0 + (Point.y p1 - Point.y p0) / two))
  else
    let b := bounds state in
    let ptx :=
      match align o with
      | Some left => Rectangle.x b
      | Some center => Rectangle.x b + Rectangle.width b / two
      | _ => Rectangle.x b + Rectangle.width b
      end in
    let pty :=
      match verticalAlign o with
      | Some top => Rectangle.y b
      | Some middle => Rectangle.y b + Rectangle.height b / two
      | _ => Rectangle.y b + Rectangle.height b
      end in
    Some (Point.mk ptx pty).

Definition getBounds (o : t) (state : State) : option Rectangle.t :=
  let s := scale state in
  let w := width (image o) in
  let h := height (image o) in
  pt ← anchor o state;
  Some (Rectangle.mk
          (Math_round (Point.x pt - (w * defaultOverlap o - Point.x (offset o)) * s))
          (Math_round (Point.y pt - (h * defaultOverlap o - Point.y (offset o)) * s))
          (w * s)
          (h * s)).

(** *** The anchor in the words of the documentation *)

Definition midpoint (p q : Point.t) : Point.t :=
  Point.mk ((Point.x p + Point.x q) / two) ((Point.y p + Point.y q) / two).

(** Middle element for an odd count, midpoint of the two central points for
    an even count. *)
Definition edge_anchor (pts : list Point.t) : option Point.t :=
  if Nat.odd (length pts) then pts !! (length pts / 2)%nat
  else
    p0 ← pts !! (length pts / 2 - 1)%nat;
    p1 ← pts !! (length pts / 2)%nat;
    Some (midpoint p0 p1).

Definition node_anchor_x (a : Align) (b : Rectangle.t) : number :=
  match a with
  | left => Rectangle.x b
  | center => Rectangle.x b + Rectangle.width b / two
  | right => Rectangle.x b + Rectangle.width b
  end.

Definition node_anchor_y (v : VAlign) (b : Rectangle.t) : number :=
  match v with
  | top => Rectangle.y b
  | middle => Rectangle.y b + Rectangle.height b / two
  | bottom => Rectangle.y b + Rectangle.height b
  end.

(** An alignment left [undefined] is handled by the last branch. *)
Definition node_anchor (o : t) (b : Rectangle.t) : Point.t :=
  Point.mk (node_anchor_x (default right (align o)) b)
           (node_anchor_y (default bottom (verticalAlign o)) b).

End Overlay.

(** ** graph/decorator.ts *)

Module Decorator.
Section hook.

(** [Args] are the argument lists of the decorated method, [Val] its
    non-null results, [Fields] everything the graph object holds besides the
    [getNativeValue] slot the wrapper installs. *)
Context {Args Val Fields : Type}.

(** A JS value: [None] is [null] or [undefined]. *)
Definition value := option Val.

(** The graph object as the wrapper sees it ([this]). *)
Record Graph := {
  getNativeValue : option (Fields -> value * Fields);
  fields : Fields;
}.

(** The undecorated method: it reads and writes the graph's fields. *)
Definition Method := Args -> Fields -> value * Fields.

(** A hook found in [graph.options]: called with [this] and the arguments,
    it may call [this.getNativeValue()] and change the graph. *)
Definition Hook := Args -> Graph -> value * Graph.

(** Assigning to, or deleting, the [getNativeValue] property of [this]. *)
Definition set_native (this : Graph) (f : option (Fields -> value * Fields)) : Graph :=
  {| getNativeValue := f; fields := fields this |}.

(** [raw.call(this, ...args)]. *)
Definition call_raw (raw : Method) (args : Args) (this : Graph) : value * Graph :=
  let '(v, f) := raw args (fields this) in
  (v, {| getNativeValue := getNativeValue this; fields := f |}).

(** [hookName || methodName]: an empty name is falsy. *)
Definition hook_name (hookName : option string) (methodName : string) : string :=
  match hookName with
  | Some EmptyString | None => methodName
  | Some n => n
  end.

(** The function the decorator stores in [descriptor.value]. *)
Definition hook (options : gmap string Hook)
    (hookName : option string) (ignoreNullResult : bool)
    (methodName : string) (raw : Method) (args : Args) (this : Graph)
  : value * Graph :=
  let name := hook_name hookName methodName in
  match options !! name with
  | Some hk =>
      let this1 := set_native this (Some (raw args)) in
      let '(ret, this2) := hk args this1 in
      let this3 := set_native this2 None in
      if bool_decide (ret <> None) || ignoreNullResult then (ret, this3)
      else call_raw raw args this3
  | None => call_raw raw args this
  end.

End hook.
Arguments Graph : clear implicits.
Arguments Method : clear implicits.
Arguments Hook : clear implicits.
End Decorator.

(** ** Mutable rectangles *)

(** [Rectangle] objects that are cloned and changed in place live in a store,
    addressed by location.  A computation reads and writes the store and either
    fails (a [TypeError]) or returns a value and the store it leaves. *)
Module Store.

Abbreviation loc := positive.
Abbreviation t := (gmap positive Rectangle.t).

Definition M (A : Type) : Type := t -> option (A * t).

Definition ret {A} (a : A) : M A := fun σ => Some (a, σ).

Definition bind {A B} (m : M A) (k : A -> M B) : M B :=
  fun σ => match m σ with
           | Some (a, σ') => k a σ'
           | None => None
           end.

Definition read (l : loc) : M Rectangle.t :=
  fun σ => match σ !! l with
           | Some r => Some (r, σ)
           | None => None
           end.

Definition write (l : loc) (r : Rectangle.t) : M unit :=
  fun σ => Some (tt, <[l := r]> σ).

(** [new Rectangle(...)]: a location the store does not hold yet. *)
Definition alloc (r : Rectangle.t) : M loc :=
  fun σ => let l := fresh (dom σ) in Some (l, <[l := r]> σ).

(** The objects of [σ] are found unchanged in [σ']. *)
Definition preserved (σ σ' : t) : Prop :=
  forall l, is_Some (σ !! l) -> σ' !! l = σ !! l.

(** Two calls in a row, the second on the store the first one left, return
    the same value, and the first call changed no object it found. *)
Definition same_twice {A} (m : M A) (σ : t) : Prop :=
  exists a σ1 σ2, m σ = Some (a, σ1) /\ m σ1 = Some (a, σ2) /\ preserved σ σ1.

(** The value returned is decided by the object at [l] alone: the call
    succeeds on every store where [l] holds [r], with one and the same
    value. *)
Definition decided_by {A} (m : M A) (l : loc) (r : Rectangle.t) : Prop :=
  exists a, forall σ, σ !! l = Some r -> exists σ', m σ = Some (a, σ').

End Store.

Notation "x ←ₛ m ;; k" := (Store.bind m (fun x => k))
  (at level 100, m at next level, right associativity, only parsing).

(** ** registry/router/util.ts *)

Module RouterUtil.

(** [NumberExt.SideOptions]: one number for all sides, or an object naming
    sides. *)
Record SideBox := {
  vertical : option number;
  horizontal : option number;
  top : option number;
  right : option number;
  bottom : option number;
  left : option number;
}.

Inductive SideOptions :=
| AllSides (n : number)
| Sides (b : SideBox).

Record PaddingOptions := { padding : option SideOptions }.

(** [options = {}] *)
Definition no_options : PaddingOptions := {| padding := None |}.

Record NormalizedSides := {
  n_top : number; n_right : number; n_bottom : number; n_left : number;
}.

(** Modelled from the spec: [NumberExt.normalizeSides] is not among the
    sources.  A number pads every side by that amount (the "20 on every side"
    of the default); an object sets [vertical] and [horizontal] first and the
    four named sides over them, a side nobody names being 0. *)
Definition normalizeSides (box : SideOptions) : NormalizedSides :=
  match box with
  | AllSides n => {| n_top := n; n_right := n; n_bottom := n; n_left := n |}
  | Sides b =>
      let v := default 0 (vertical b) in
      let h := default 0 (horizontal b) in
      {| n_top := default v (top b);
         n_right := default h (right b);
         n_bottom := default v (bottom b);
         n_left := default h (left b) |}
  end.

(** [options.padding || 20]: [undefined] and the number 0 are falsy. *)
Definition padding_or_20 (options : PaddingOptions) : SideOptions :=
  match padding options with
  | None => AllSides (ofZ 20)
  | Some (AllSides n) => if bool_decide (n = 0) then AllSides (ofZ 20) else AllSides n
  | Some (Sides b) => Sides b
  end.

Definition getPaddingBox (options : PaddingOptions) : Rectangle.t :=
  let sides := normalizeSides (padding_or_20 options) in
  {| Rectangle.x := - n_left sides;
     Rectangle.y := - n_top sides;
     Rectangle.width := n_left sides + n_right sides;
     Rectangle.height := n_top sides + n_bottom sides |}.

(** Modelled from the spec: the [Rectangle] methods [clone], [moveAndExpand]
    and [getCenter] are not among the sources.  [clone] makes a new object
    with the same fields; [moveAndExpand] adds the given box field by field
    to the receiver, in place, and returns the receiver; [getCenter] is a new
    point at the middle of the receiver. *)
Definition clone (l : Store.loc) : Store.M Store.loc :=
  r ←ₛ Store.read l ;;
  Store.alloc (Rectangle.clone r).

Definition moved_and_expanded (r box : Rectangle.t) : Rectangle.t :=
  {| Rectangle.x := Rectangle.x r + Rectangle.x box;
     Rectangle.y := Rectangle.y r + Rectangle.y box;
     Rectangle.width := Rectangle.width r + Rectangle.width box;
     Rectangle.height := Rectangle.height r + Rectangle.height box |}.

Definition moveAndExpand (l : Store.loc) (box : Rectangle.t) : Store.M Store.loc :=
  r ←ₛ Store.read l ;;
  _ ←ₛ Store.write l (moved_and_expanded r box) ;;
  Store.ret l.

Definition center (r : Rectangle.t) : Point.t :=
  Point.mk (Rectangle.x r + Rectangle.width r / two)
           (Rectangle.y r + Rectangle.height r / two).

Definition getCenter (l : Store.loc) : Store.M Point.t :=
  r ←ₛ Store.read l ;;
  Store.ret (center r).

(** The fields of [EdgeView] read here: the two bounding boxes are objects
    of the store, the endpoints are points or unset. *)
Record EdgeView := {
  sourceBBox : Store.loc;
  targetBBox : Store.loc;
  sourceEndpoint : option Point.t;
  targetEndpoint : option Point.t;
}.

Definition getSourceBBox (view : EdgeView) (options : PaddingOptions)
  : Store.M Store.loc :=
  c ←ₛ clone (sourceBBox view) ;;
  moveAndExpand c (getPaddingBox options).

Definition getTargetBBox (view : EdgeView) (options : PaddingOptions)
  : Store.M Store.loc :=
  c ←ₛ clone (targetBBox view) ;;
  moveAndExpand c (getPaddingBox options).

Definition getSourceEndpoint (view : EdgeView) (options : PaddingOptions)
  : Store.M Point.t :=
  match sourceEndpoint view with
  | Some p => Store.ret p
  | None =>
      bbox ←ₛ getSourceBBox view options ;;
      getCenter bbox
  end.

Definition getTargetEndpoint (view : EdgeView) (options : PaddingOptions)
  : Store.M Point.t :=
  match targetEndpoint view with
  | Some p => Store.ret p
  | None =>
      bbox ←ₛ getTargetBBox view options ;;
      getCenter bbox
  end.

(** *** The padded centre in the words of the documentation *)

(** The padding the options ask for, 20 on every side when they name none. *)
Definition padding_sides (options : PaddingOptions) : NormalizedSides :=
  normalizeSides (default (AllSides (ofZ 20)) (padding options)).

(** A box grown by the given padding on each side. *)
Definition expanded (r : Rectangle.t) (s : NormalizedSides) : Rectangle.t :=
  {| Rectangle.x := Rectangle.x r - n_left s;
     Rectangle.y := Rectangle.y r - n_top s;
     Rectangle.width := Rectangle.width r + n_left s + n_right s;
     Rectangle.height := Rectangle.height r + n_top s + n_bottom s |}.

End RouterUtil.

(** ** The callout shape's perimeter *)

Module Callout.

(** What [calloutPerimeter] and the helpers it calls can reach: the
    [Rectangle] objects, and the property [factor] of the global object
    [CalloutShape.prototype].  The class declares [factor = 30] as a field,
    which the constructor sets on each instance; the prototype holds the
    property only once some code has assigned it, and any code may. *)
Record Heap := { rects : Store.t; prototype_factor : option number }.

(** A computation reads and writes the heap and either fails or returns a
    value and the heap it leaves. *)
Definition M (A : Type) : Type := Heap -> option (A * Heap).

Definition ret {A} (a : A) : M A := fun η => Some (a, η).

Definition bind {A B} (m : M A) (k : A -> M B) : M B :=
  fun η => match m η with
           | Some (a, η') => k a η'
           | None => None
           end.

(** A computation on the rectangles alone. *)
Definition lift {A} (m : Store.M A) : M A :=
  fun η => match m (rects η) with
           | Some (a, σ) =>
               Some (a, {| rects := σ; prototype_factor := prototype_factor η |})
           | None => None
           end.

(** The read of [CalloutShape.prototype.factor]. *)
Definition get_prototype_factor : M (option number) :=
  fun η => Some (prototype_factor η, η).

(** [CalloutShape.prototype.factor = v], as other code may run it between
    two calls. *)
Definition assign_prototype_factor (v : option number) (η : Heap) : Heap :=
  {| rects := rects η; prototype_factor := v |}.

(** The heap [η'] holds what [η] held: every rectangle found in [η], as it
    was, and the same value of the global property. *)
Definition kept (η η' : Heap) : Prop :=
  Store.preserved (rects η) (rects η')
  /\ prototype_factor η' = prototype_factor η.

Notation "x ←ₕ m ;; k" := (bind m (fun x => k))
  (at level 100, m at next level, right associativity, only parsing).

Section perimeter.

(** The style dictionary is handed on to helpers only. *)
Context {Style : Type}.

(** The fields of [State] read here. *)
Record State := { style : Style; view_scale : number }.

(** Helpers that are not among the sources: [getFactor] of the shape
    utilities, [util.getDirectedBounds] and [rectanglePerimeter].  Each gets
    its rectangles by reference and is a computation on the heap: what it
    reads and whether it changes anything is for a theorem to assume, not for
    the model. *)
Context (getFactor : Style -> option number -> number -> M number).
Context (getDirectedBounds : Store.loc -> Store.loc -> Style -> M Store.loc).
Context (rectanglePerimeter : Store.loc -> State -> Point.t -> bool -> M Point.t).

(** The arguments of [getFactor] are evaluated from left to right: the
    global is read before the height of the bounds. *)
Definition calloutPerimeter (bounds : Store.loc) (state : State)
    (next : Point.t) (orthogonal : bool) : M Point.t :=
  dflt ←ₕ get_prototype_factor ;;
  b ←ₕ lift (Store.read bounds) ;;
  factor ←ₕ getFactor (style state) dflt (Rectangle.height b) ;;
  rect ←ₕ lift (Store.alloc (Rectangle.mk 0 0 0 (factor * view_scale state))) ;;
  directedBounds ←ₕ getDirectedBounds bounds rect (style state) ;;
  rectanglePerimeter directedBounds state next orthogonal.

(** Helpers that only read: each succeeds on every heap, returns the value
    of a function of its arguments (rectangles by their fields), and leaves
    the heap holding what it held; [getDirectedBounds] returns a rectangle
    with the fields computed. *)
Definition getFactor_reads (f : Style -> option number -> number -> number) : Prop :=
  forall s d n η, exists η', getFactor s d n η = Some (f s d n, η') /\ kept η η'.

Definition getDirectedBounds_reads
    (f : Rectangle.t -> Rectangle.t -> Style -> Rectangle.t) : Prop :=
  forall lb lr s η b r,
    rects η !! lb = Some b -> rects η !! lr = Some r ->
    exists l η', getDirectedBounds lb lr s η = Some (l, η')
                 /\ rects η' !! l = Some (f b r s) /\ kept η η'.

Definition rectanglePerimeter_reads
    (f : Rectangle.t -> State -> Point.t -> bool -> Point.t) : Prop :=
  forall l st nx o η d,
    rects η !! l = Some d ->
    exists η', rectanglePerimeter l st nx o η = Some (f d st nx o, η') /\ kept η η'.

(** The point of the callout perimeter for bounds with the fields [b]
    while [CalloutShape.prototype.factor] holds [dflt], when the helpers
    compute [factor_of], [directed] and [perimeter]. *)
Definition callout_point
    (factor_of : Style -> option number -> number -> number)
    (directed : Rectangle.t -> Rectangle.t -> Style -> Rectangle.t)
    (perimeter : Rectangle.t -> State -> Point.t -> bool -> Point.t)
    (b : Rectangle.t) (dflt : option number)
    (state : State) (next : Point.t) (orthogonal : bool) : Point.t :=
  perimeter
    (directed b
       (Rectangle.mk 0 0 0
          (factor_of (style state) dflt (Rectangle.height b) * view_scale state))
       (style state))
    state next orthogonal.

End perimeter.
Arguments State : clear implicits.
End Callout.

(** ** handler/edge-handler.ts *)

Module EdgeHandler.

Abbreviation Cell := nat.

(** [struct/Constraint]: the fixed point of a connection, as fractions of
    the terminal's bounds, or none.  [new Constraint()] has none. *)
Record Constraint := { point : option Point.t }.
Definition new_Constraint : Constraint := {| point := None |}.

(** The geometry of an edge: its waypoints and the points of its dangling
    ends. *)
Record Geometry := {
  points : option (array Point.t);
  sourcePoint : option Point.t;
  targetPoint : option Point.t;
}.

(** Modelled from the spec: [Geometry.setTerminalPoint] is not among the
    sources; the point of a dangling end "is simply the user-set absolute
    coordinate", stored for the source or the target end. *)
Definition setTerminalPoint (geo : Geometry) (p : Point.t) (isSource : bool)
  : Geometry :=
  if isSource
  then {| points := points geo; sourcePoint := Some p; targetPoint := targetPoint geo |}
  else {| points := points geo; sourcePoint := sourcePoint geo; targetPoint := Some p |}.

Definition getTerminalPoint (geo : Geometry) (isSource : bool) : option Point.t :=
  if isSource then sourcePoint geo else targetPoint geo.

(** *** The cell model the handler writes to *)

Record CellRec := {
  geometry : option Geometry;
  parent : option Cell;
  source : option Cell;
  target : option Cell;
  sourceConstraint : option Constraint;
  targetConstraint : option Constraint;
}.

Abbreviation Model := (gmap nat CellRec).

Definition getGeometry (m : Model) (c : Cell) : option Geometry :=
  m !! c ≫= geometry.

Definition getParent (m : Model) (c : Cell) : option Cell :=
  m !! c ≫= parent.

Definition getTerminal (m : Model) (edge : Cell) (isSource : bool) : option Cell :=
  m !! edge ≫= (if isSource then source else target).

(** Modelled from the spec: the Cell Model's mutations ([setGeometry],
    [setTerminal], [add]) and the graph's [cloneCell] and [connectCell] are
    not among the sources.  Each mutation replaces one attribute of one cell;
    [add] records the parent (the position among the siblings is not
    tracked); a clone is a new cell with the same geometry, no parent and no
    terminals; [connectCell] sets the terminal of one end and the constraint
    of that end. *)
Definition setGeometry (m : Model) (c : Cell) (g : Geometry) : Model :=
  alter (fun r => {| geometry := Some g; parent := parent r;
                     source := source r; target := target r;
                     sourceConstraint := sourceConstraint r;
                     targetConstraint := targetConstraint r |}) c m.

Definition setTerminal (m : Model) (edge : Cell) (terminal : option Cell)
    (isSource : bool) : Model :=
  alter (fun r => {| geometry := geometry r; parent := parent r;
                     source := if isSource then terminal else source r;
                     target := if isSource then target r else terminal;
                     sourceConstraint := sourceConstraint r;
                     targetConstraint := targetConstraint r |}) edge m.

Definition setConstraint (m : Model) (edge : Cell) (c : option Constraint)
    (isSource : bool) : Model :=
  alter (fun r => {| geometry := geometry r; parent := parent r;
                     source := source r; target := target r;
                     sourceConstraint := if isSource then c else sourceConstraint r;
                     targetConstraint := if isSource then targetConstraint r else c |})
        edge m.

Definition add (m : Model) (p : option Cell) (child : Cell) : Model :=
  alter (fun r => {| geometry := geometry r; parent := p;
                     source := source r; target := target r;
                     sourceConstraint := sourceConstraint r;
                     targetConstraint := targetConstraint r |}) child m.

Definition cloneCell (m : Model) (c : Cell) : Cell * Model :=
  let c' := fresh (dom m) in
  (c', <[c' := {| geometry := getGeometry m c; parent := None;
                  source := None; target := None;
                  sourceConstraint := None; targetConstraint := None |}]> m).

Definition connectCell (m : Model) (edge : Cell) (terminal : option Cell)
    (isSource : bool) (c : option Constraint) : Model :=
  let m' := setTerminal m edge terminal isSource in
  match c with
  | Some _ => setConstraint m' edge c isSource
  | None => m'
  end.

(** *** States, marker, constraint handler, event *)

(** The state of a terminal node. *)
Record TerminalState := { t_cell : Cell; t_bounds : Rectangle.t }.

(** The state of the edge: the handler's [state], and the clone that
    [updatePreviewState] fills in. *)
Record EdgeState := {
  cell : Cell;
  style : gmap string number;
  absolutePoints : array Point.t;
  visibleSourceState : option TerminalState;
  visibleTargetState : option TerminalState;
}.

Definition getVisibleTerminalState (s : EdgeState) (isSource : bool)
  : option TerminalState :=
  if isSource then visibleSourceState s else visibleTargetState s.

Record Shape := { stroke : option string; strokeWidth : number }.

Record Highlight := {
  h_state : option TerminalState;
  shape : option Shape;
}.

Record Marker := {
  validState : option TerminalState;
  markedState : option TerminalState;
  highlight : option Highlight;
}.

Record ConstraintHandler := {
  currentConstraint : option Constraint;
  currentState : option TerminalState;
  currentPoint : option Point.t;
  focused : option (TerminalState * bool);
}.

(** What the handler asks of a [MouseEventEx]. *)
Record MouseEvent := {
  clientX : number;
  clientY : number;
  graphX : number;
  graphY : number;
  altDown : bool;
  connectionIgnored : bool;
  cloneEvent : bool;
  fromHighlightShape : bool;
  e_state : option TerminalState;
  e_cell : option Cell;
}.

(** The numbers and switches of the graph and its view. *)
Record Graph := {
  scale : number;
  translate : Point.t;
  tolerance : number;
  tx : number;
  ty : number;
  resetEdgesOnConnect : bool;
  allowDanglingEdges : bool;
  cellsCloneable : bool;
  edgesConnectable : bool;
}.

(** Functions and constants the handler uses that are not among the
    sources: the handle-index encoding of [DomEvent], [util.ptSegmentDist],
    [Rectangle.containsPoint], and queries of the graph and its view. *)
Record Env := {
  isVisualHandle : Z -> bool;
  getVisualHandle : Z -> Z;
  isCustomHandle : Z -> bool;
  getCustomHandle : Z -> Z;
  ptSegmentDist : number -> number -> number -> number -> number -> number -> number;
  containsPoint : Rectangle.t -> Point.t -> bool;
  snap : number -> number;
  getConnectionConstraint : EdgeState -> option TerminalState -> bool -> option Constraint;
  getConnectionPoint : TerminalState -> Constraint -> option Point.t;
  getRoutingCenterX : TerminalState -> number;
  getRoutingCenterY : TerminalState -> number;
  getOutlineConstraint : Point.t -> TerminalState -> MouseEvent -> option Constraint;
  OUTLINE_HIGHLIGHT_COLOR : string;
  OUTLINE_HIGHLIGHT_STROKEWIDTH : number;
  DEFAULT_VALID_COLOR : string;
  HIGHLIGHT_STROKEWIDTH : number;
}.

(** The fields of the handler.  [customHandles] is the number of custom
    handles, when there are any; [pstate_origin] is the origin of the state
    the view holds for the parent of the edge, when it holds one. *)
Record t := {
  state : EdgeState;
  handles : option (list (option Rectangle.t));
  marker : option Marker;
  constraintHandler : ConstraintHandler;
  error : option string;
  cloneable : bool;
  straightRemoveEnabled : bool;
  outlineConnect : bool;
  customHandles : option nat;
  h_points : option (array Point.t);
  h_absolutePoints : array Point.t;
  snapPoint : option Point.t;
  startX : number;
  startY : number;
  index : option Z;
  active : bool;
  isSourceHandle : bool;
  isTargetHandle : bool;
  isLabelHandle : bool;
  labelPos : option Point.t;
  pstate_origin : option Point.t;
}.

#[global] Instance Point_eq_dec : EqDecision Point.t.
Proof. solve_decision. Defined.
#[global] Instance Rectangle_eq_dec : EqDecision Rectangle.t.
Proof. solve_decision. Defined.
#[global] Instance TerminalState_eq_dec : EqDecision TerminalState.
Proof. solve_decision. Defined.

(** Calls that leave the handler for classes outside the sources, in the
    order they are made. *)
Inductive Command :=
| ValidationWarn (msg : string)
| ExecuteCustomHandle (k : Z)
| MoveLabel (x y : number)
| Invalidate (c : Cell)
| Validate (c : Cell)
| SetSelectedCell (c : Cell)
| Consume
| Refresh
| Redraw
| MarkerReset
| ConstraintHandlerReset
| CustomHandlesReset
| RemoveHint.

(** The calls by which the handler tidies up after itself and consumes the
    event; the other calls act on the model or report to the user. *)
Definition housekeeping (c : Command) : bool :=
  match c with
  | Consume | Refresh | Redraw | MarkerReset | ConstraintHandlerReset
  | CustomHandlesReset | RemoveHint => true
  | _ => false
  end.

(** What a handler method acts on: the cell model and the record of calls. *)
Record World := { model : Model; log : list Command }.

Definition emit (cs : list Command) (w : World) : World :=
  {| model := model w; log := log w ++ cs |}.

Definition with_model (m : Model) (w : World) : World :=
  {| model := m; log := log w |}.

(** *** removePoint *)

Definition with_points (geo : Geometry) (pts : option (array Point.t)) : Geometry :=
  {| points := pts; sourcePoint := sourcePoint geo; targetPoint := targetPoint geo |}.

Definition removePoint (h : t) (st : EdgeState) (index : Z) (w : World) : World :=
  if bool_decide (0 < index)%Z
     && bool_decide (index < Z.of_nat (length (h_absolutePoints h)) - 1)%Z
  then
    match getGeometry (model w) (cell (state h)) with
    | Some geo =>
        match points geo with
        | Some pts =>
            let geo' := with_points geo (Some (splice_remove pts (index - 1) 1)) in
            emit [Refresh; Redraw] (with_model (setGeometry (model w) (cell st) geo') w)
        | None => w
        end
    | None => w
    end
  else w.

(** *** convertPoint *)

Definition convertPoint (E : Env) (G : Graph) (h : t) (point : Point.t)
    (gridEnabled : bool) : Point.t :=
  let s := scale G in
  let t := translate G in
  let p1 :=
    if gridEnabled
    then Point.mk (snap E (Point.x point)) (snap E (Point.y point))
    else point in
  let p2 := Point.mk (Math_round (Point.x p1 / s - Point.x t))
                     (Math_round (Point.y p1 / s - Point.y t)) in
  match pstate_origin h with
  | Some o => Point.mk (Point.x p2 - Point.x o) (Point.y p2 - Point.y o)
  | None => p2
  end.

(** *** getPreviewPoints *)

(** The position spliced out when the dragged point sits on another handle. *)
Definition merge_position (E : Env) (index : Z) : Z :=
  if isVisualHandle E index then getVisualHandle E index else (index - 1)%Z.

(** The loop over [this.handles]: [i] is the position of the head of [hs];
    the accumulator is the array [points] and whether [result] was set. *)
Fixpoint merge_loop (E : Env) (index : Z) (p : Point.t)
    (hs : list (option Rectangle.t)) (i : Z) (acc : array Point.t * bool)
  : array Point.t * bool :=
  match hs with
  | [] => acc
  | handle :: rest =>
      let acc' :=
        if bool_decide (i <> index) then
          match handle with
          | Some bounds =>
              if containsPoint E bounds p
              then (splice_remove (fst acc) (merge_position E index) 1, true)
              else acc
          | None => acc
          end
        else acc in
      merge_loop E index p rest (i + 1)%Z acc'
  end.

(** The test "point is not fixed" made for a visible terminal. *)
Definition not_fixed (E : Env) (st : EdgeState) (ts : TerminalState)
    (isSource : bool) : bool :=
  match getConnectionConstraint E st (Some ts) isSource with
  | None => true
  | Some c => bool_decide (getConnectionPoint E ts c = None)
  end.

Definition routingCenter (E : Env) (ts : TerminalState) : Point.t :=
  Point.mk (getRoutingCenterX E ts) (getRoutingCenterY E ts).

(** The array [abs] against which the straightened segment is measured. *)
Definition straighten_abs (E : Env) (h : t) (index : Z) (p : Point.t)
  : array Point.t :=
  let st := state h in
  let abs0 := array_set (absolutePoints st) index p in
  let abs1 :=
    match getVisibleTerminalState st true with
    | Some src =>
        if not_fixed E st src true then array_set abs0 0 (routingCenter E src)
        else abs0
    | None => abs0
    end in
  match getVisibleTerminalState st false with
  | Some trg =>
      if not_fixed E st trg false
      then array_set abs1 (Z.of_nat (length abs1) - 1) (routingCenter E trg)
      else abs1
  | None => abs1
  end.

(** [checkRemove(idx, p)]: whether the waypoint is spliced out; reading a
    neighbour that is [null] fails. *)
Definition checkRemove (E : Env) (G : Graph) (abs : array Point.t) (idx : Z)
    (p : Point.t) : option bool :=
  if bool_decide (0 < idx)%Z && bool_decide (idx < Z.of_nat (length abs) - 1)%Z
  then
    a ← at_index abs (idx - 1);
    b ← at_index abs (idx + 1);
    Some (bool_decide
            (ptSegmentDist E (Point.x a) (Point.y a) (Point.x b) (Point.y b)
                           (Point.x p) (Point.y p)
             < tolerance G * tolerance G))
  else Some false.

(** Whether the straighten block is entered: [e == null || !isAltDown]. *)
Definition straighten_enabled (h : t) (e : option MouseEvent) : bool :=
  straightRemoveEnabled h
  && match e with
     | None => true
     | Some ev => negb (altDown ev)
     end.

(** The outer [option] is the failure of the call, the inner one the [null]
    the method may return.  [result] aliases [points] whenever it is set, so
    the value returned is the array [points] in every case. *)
Definition getPreviewPoints (E : Env) (G : Graph) (h : t) (m : Model)
    (p : Point.t) (e : option MouseEvent) : option (option (array Point.t)) :=
  let point := Point.clone p in
  index ← index h;
  geo ← getGeometry m (cell (state h));
  let points0 := points geo in
  if negb (isSourceHandle h) && negb (isTargetHandle h) then
    let point := convertPoint E G h point false in
    match points0 with
    | None => Some (Some [Some point])
    | Some pts =>
        let pts1 :=
          if isVisualHandle E index
          then splice_insert pts (getVisualHandle E index) (Some point)
          else pts in
        let '(pts2, merged) :=
          match handles h with
          | Some hs => merge_loop E index p hs 0%Z (pts1, false)
          | None => (pts1, false)
          end in
        match
          (if negb merged && straighten_enabled h e
           then checkRemove E G (straighten_abs E h index p) index p
           else Some false)
        with
        | None => None
        | Some straightened =>
            let pts3 :=
              if straightened then splice_remove pts2 (index - 1) 1 else pts2 in
            let removed := merged || straightened in
            Some (Some (if negb removed && negb (isVisualHandle E index)
                        then array_set pts3 (index - 1) point
                        else pts3))
        end
    end
  else if resetEdgesOnConnect G then Some None
  else Some points0.

(** *** updatePreviewState *)

(** Methods of the view that are not among the sources.  Each one rewrites
    the [absolutePoints] of the edge state it is given and nothing else of
    the handler; the value here is the new array. *)
Record ViewApi := {
  updateFixedTerminalPoint :
    EdgeState -> option TerminalState -> bool -> option Constraint -> array Point.t;
  updateRouterPoints :
    EdgeState -> array Point.t -> option TerminalState -> option TerminalState
    -> array Point.t;
  updateFloatingTerminalPoints :
    EdgeState -> option TerminalState -> option TerminalState -> array Point.t;
}.

(** Modelled from the spec: [State.setAbsoluteTerminalPoint] is not among
    the sources.  The absolute point sequence is "source point, routed
    waypoints, target point": the source end is its first entry and the
    target end its last, an array too short to have the entry being grown. *)
Definition setAbsoluteTerminalPoint (abs : array Point.t) (p : option Point.t)
    (isSource : bool) : array Point.t :=
  if isSource then
    match abs with
    | [] => [p]
    | _ :: rest => p :: rest
    end
  else
    match abs with
    | [] => [None; p]
    | [a] => [a; p]
    | _ => <[(length abs - 1)%nat := p]> abs
    end.

Definition with_absolutePoints (edge : EdgeState) (abs : array Point.t) : EdgeState :=
  {| cell := cell edge; style := style edge; absolutePoints := abs;
     visibleSourceState := visibleSourceState edge;
     visibleTargetState := visibleTargetState edge |}.

Definition with_style (edge : EdgeState) (st : gmap string number) : EdgeState :=
  {| cell := cell edge; style := st; absolutePoints := absolutePoints edge;
     visibleSourceState := visibleSourceState edge;
     visibleTargetState := visibleTargetState edge |}.

Definition setVisibleTerminalStates (edge : EdgeState)
    (src trg : option TerminalState) : EdgeState :=
  {| cell := cell edge; style := style edge; absolutePoints := absolutePoints edge;
     visibleSourceState := src; visibleTargetState := trg |}.

(** The constraint in force after the outline case is handled, with the
    point used from there on and the constraint handler as it is left
    ([focus] is recorded in [focused]). *)
Definition preview_constraint (E : Env) (h : t) (point : Point.t)
    (terminalState : option TerminalState) (e : MouseEvent) (outline : bool)
  : option Constraint * Point.t * ConstraintHandler :=
  let ch := constraintHandler h in
  match currentConstraint ch with
  | None =>
      if outline then
        match terminalState with
        | Some ts =>
            let point' :=
              if fromHighlightShape e then Point.mk (graphX e) (graphY e)
              else point in
            let c := getOutlineConstraint E point' ts e in
            (c, point',
             {| currentConstraint := c; currentState := currentState ch;
                currentPoint := Some point';
                focused := Some (ts, isSourceHandle h) |})
        | None => (Some new_Constraint, point, ch)
        end
      else (None, point, ch)
  | Some c => (Some c, point, ch)
  end.

(** The repaint of the marker's highlight when connecting to outlines. *)
Definition preview_highlight (E : Env) (G : Graph) (h : t)
    (ch : ConstraintHandler) (e : MouseEvent) (outline : bool) (mk : Marker)
  : Marker :=
  match highlight mk with
  | Some hl =>
      match shape hl with
      | Some sh =>
          let s := scale G in
          let repaint (color : string) (w : number) :=
            {| validState := validState mk; markedState := markedState mk;
               highlight :=
                 Some {| h_state := h_state hl;
                         shape := Some {| stroke := Some color; strokeWidth := w |} |} |} in
          if bool_decide (currentConstraint ch <> None)
             && bool_decide (currentState ch <> None)
          then
            repaint (if outline then OUTLINE_HIGHLIGHT_COLOR E else "transparent"%string)
                    (OUTLINE_HIGHLIGHT_STROKEWIDTH E / s / s)
          else if bool_decide (validState mk <> None) then
            repaint (if bool_decide (validState mk = e_state e)
                     then DEFAULT_VALID_COLOR E else "transparent"%string)
                    (HIGHLIGHT_STROKEWIDTH E / s / s)
          else mk
      | None => mk
      end
  | None => mk
  end.

(** The exit or entry keys of the preview edge's style (lines 1185-1203). *)
Definition preview_style (h : t) (constraint : option Constraint)
    (st : gmap string number) : gmap string number :=
  if isSourceHandle h || isTargetHandle h then
    match constraint ≫= point with
    | Some pt =>
        if isSourceHandle h
        then <["exitY"%string := Point.y pt]> (<["exitX"%string := Point.x pt]> st)
        else <["entryY"%string := Point.y pt]> (<["entryX"%string := Point.x pt]> st)
    | None =>
        if isSourceHandle h
        then delete "exitY"%string (delete "exitX"%string st)
        else delete "entryY"%string (delete "entryX"%string st)
    end
  else st.

(** The error after the dangling case (lines 1216-1221). *)
Definition preview_error (G : Graph) (h : t)
    (terminalState : option TerminalState) (mk : option Marker)
  : option (option string) :=
  if (isSourceHandle h || isTargetHandle h)
     && bool_decide (terminalState = None)
  then
    mk ← mk;
    Some (if bool_decide (markedState mk = None)
          then (if allowDanglingEdges G then None else Some EmptyString)
          else error h)
  else Some (error h).

(** The marker after the highlight block, which reads it only when
    connecting to outlines is enabled. *)
Definition preview_marker (E : Env) (G : Graph) (h : t)
    (ch : ConstraintHandler) (e : MouseEvent) (outline : bool)
  : option (option Marker) :=
  if outlineConnect h then
    mk ← marker h;
    Some (Some (preview_highlight E G h ch e outline mk))
  else Some (marker h).

Definition with_preview (h : t) (mk : option Marker) (ch : ConstraintHandler)
    (err : option string) : t :=
  {| state := state h; handles := handles h; marker := mk;
     constraintHandler := ch; error := err; cloneable := cloneable h;
     straightRemoveEnabled := straightRemoveEnabled h;
     outlineConnect := outlineConnect h; customHandles := customHandles h;
     h_points := h_points h; h_absolutePoints := h_absolutePoints h;
     snapPoint := snapPoint h; startX := startX h; startY := startY h;
     index := index h; active := active h;
     isSourceHandle := isSourceHandle h; isTargetHandle := isTargetHandle h;
     isLabelHandle := isLabelHandle h; labelPos := labelPos h;
     pstate_origin := pstate_origin h |}.

(** The preview edge after the call: the terminal states in force, the
    style keys of the dragged end, and the absolute points as the view leaves
    them (lines 1123-1132 and 1179-1224). *)
Definition preview_edge (E : Env) (V : ViewApi) (h : t) (edge : EdgeState)
    (point : Point.t) (constraint : option Constraint)
    (terminalState : option TerminalState) : EdgeState :=
  let sourceState :=
    if isSourceHandle h then terminalState
    else getVisibleTerminalState (state h) true in
  let targetState :=
    if isTargetHandle h then terminalState
    else getVisibleTerminalState (state h) false in
  let sourceC := getConnectionConstraint E edge sourceState true in
  let targetC := getConnectionConstraint E edge targetState false in
  let sourceC := if isSourceHandle h then constraint else sourceC in
  let targetC :=
    if isSourceHandle h then targetC
    else if isTargetHandle h then constraint else targetC in
  let edge := with_style edge (preview_style h constraint (style edge)) in
  let edge := setVisibleTerminalStates edge sourceState targetState in
  let edge :=
    if negb (isSourceHandle h) || bool_decide (sourceState <> None)
    then with_absolutePoints edge (updateFixedTerminalPoint V edge sourceState true sourceC)
    else edge in
  let edge :=
    if negb (isTargetHandle h) || bool_decide (targetState <> None)
    then with_absolutePoints edge (updateFixedTerminalPoint V edge targetState false targetC)
    else edge in
  let edge :=
    if (isSourceHandle h || isTargetHandle h) && bool_decide (terminalState = None)
    then with_absolutePoints edge
           (setAbsoluteTerminalPoint (absolutePoints edge) (Some point) (isSourceHandle h))
    else edge in
  let edge :=
    with_absolutePoints edge
      (updateRouterPoints V edge (default [] (h_points h)) sourceState targetState) in
  with_absolutePoints edge (updateFloatingTerminalPoints V edge sourceState targetState).

(** The preview edge and the handler after the call; [None] when the marker
    is read while it is [null].  The identity test of two states
    ([getValidState() === e.getState()]) is equality of the records. *)
Definition updatePreviewState (E : Env) (V : ViewApi) (G : Graph) (h : t)
    (edge : EdgeState) (point : Point.t) (terminalState : option TerminalState)
    (e : MouseEvent) (outline : bool) : option (EdgeState * t) :=
  let '(constraint, point, ch) := preview_constraint E h point terminalState e outline in
  mk ← preview_marker E G h ch e outline;
  err ← preview_error G h terminalState mk;
  Some (preview_edge E V h edge point constraint terminalState,
        with_preview h mk ch err).

(** *** The view in the words of the specification *)

(** Modelled from the spec: the view's resolution of terminal points is not
    among the sources.  "If fixed, map the fractional (x,y) onto the
    terminal's bounds directly (no perimeter-function call)". *)
Definition fixed_point (ts : TerminalState) (c : Constraint) : option Point.t :=
  pt ← point c;
  let b := t_bounds ts in
  Some (Point.mk (Rectangle.x b + Point.x pt * Rectangle.width b)
                 (Rectangle.y b + Point.y pt * Rectangle.height b)).

(** Modelled from the spec: a fixed end is resolved from its constraint, a
    dangling end is "the user-set absolute coordinate" ([dangling]), the
    router keeps the resolved ends and puts its waypoints between them, and
    an end still unresolved is "free": it gets the perimeter point
    ([perimeter], the call to the perimeter function). *)
Definition spec_view
    (dangling : EdgeState -> bool -> option Point.t)
    (router : EdgeState -> array Point.t -> option TerminalState ->
              option TerminalState -> array Point.t)
    (perimeter : EdgeState -> TerminalState -> bool -> Point.t) : ViewApi :=
  {| updateFixedTerminalPoint := fun edge terminal isSource constraint =>
       setAbsoluteTerminalPoint (absolutePoints edge)
         match terminal with
         | Some ts => constraint ≫= fixed_point ts
         | None => dangling edge isSource
         end
         isSource;
     updateRouterPoints := fun edge pts src trg =>
       match absolutePoints edge with
       | [] => []
       | first :: rest => first :: router edge pts src trg ++ [default first (last rest)]
       end;
     updateFloatingTerminalPoints := fun edge src trg =>
       let abs := absolutePoints edge in
       let abs1 :=
         match abs, src with
         | None :: rest, Some ts => Some (perimeter edge ts true) :: rest
         | _, _ => abs
         end in
       match last abs1, trg with
       | Some None, Some ts =>
           <[(length abs1 - 1)%nat := Some (perimeter edge ts false)]> abs1
       | _, _ => abs1
       end |}.

(** *** connect, changeTerminalPoint, changePoints *)

(** [graph.batchUpdate] runs its callback between [beginUpdate] and
    [endUpdate]; the store here has no pending-transaction state, so the
    callback's effect on the model is the effect of the call. *)
Definition connect (h : t) (edge : Cell) (terminal : Cell) (isSource : bool)
    (clone : bool) (m : Model) : Cell * Model :=
  let constraint := default new_Constraint (currentConstraint (constraintHandler h)) in
  (edge, connectCell m edge (Some terminal) isSource (Some constraint)).

Definition changeTerminalPoint (edge : Cell) (point : Point.t) (isSource : bool)
    (clone : bool) (m : Model) : Cell * Model :=
  let '(edge, m) :=
    if clone then
      let parent := getParent m edge in
      let terminal := getTerminal m edge (negb isSource) in
      let '(edge', m1) := cloneCell m edge in
      let m2 := add m1 parent edge' in
      (edge', setTerminal m2 edge' terminal (negb isSource))
    else (edge, m) in
  match getGeometry m edge with
  | Some geo =>
      let geo := setTerminalPoint geo point isSource in
      let m := setGeometry m edge geo in
      (edge, connectCell m edge None isSource (Some new_Constraint))
  | None => (edge, m)
  end.

Definition changePoints (edge : Cell) (pts : array Point.t) (clone : bool)
    (m : Model) : Cell * Model :=
  let '(edge, m) :=
    if clone then
      let parent := getParent m edge in
      let source := getTerminal m edge true in
      let target := getTerminal m edge false in
      let '(edge', m1) := cloneCell m edge in
      let m2 := add m1 parent edge' in
      (edge', setTerminal (setTerminal m2 edge' source true) edge' target false)
    else (edge, m) in
  match getGeometry m edge with
  | Some geo => (edge, setGeometry m edge (with_points geo (Some pts)))
  | None => (edge, m)
  end.

(** *** reset *)

Definition reset (h : t) (w : World) : t * World :=
  let w := if active h then emit [Refresh] w else w in
  let h' :=
    {| state := state h; handles := handles h; marker := marker h;
       constraintHandler := constraintHandler h; error := None;
       cloneable := cloneable h;
       straightRemoveEnabled := straightRemoveEnabled h;
       outlineConnect := outlineConnect h; customHandles := customHandles h;
       h_points := None; h_absolutePoints := h_absolutePoints h;
       snapPoint := None; startX := startX h; startY := startY h;
       index := None; active := false;
       isSourceHandle := false; isTargetHandle := false;
       isLabelHandle := false; labelPos := None;
       pstate_origin := pstate_origin h |} in
  let w := match marker h with Some _ => emit [MarkerReset] w | None => w end in
  let w := emit [ConstraintHandlerReset] w in
  let w := match customHandles h with Some _ => emit [CustomHandlesReset] w | None => w end in
  (h', emit [RemoveHint; Redraw] w).

(** *** mouseUp *)

Definition with_index_absolutePoints (h : t) (i : option Z)
    (abs : array Point.t) : t :=
  {| state := state h; handles := handles h; marker := marker h;
     constraintHandler := constraintHandler h; error := error h;
     cloneable := cloneable h;
     straightRemoveEnabled := straightRemoveEnabled h;
     outlineConnect := outlineConnect h; customHandles := customHandles h;
     h_points := h_points h; h_absolutePoints := abs;
     snapPoint := snapPoint h; startX := startX h; startY := startY h;
     index := i; active := active h;
     isSourceHandle := isSourceHandle h; isTargetHandle := isTargetHandle h;
     isLabelHandle := isLabelHandle h; labelPos := labelPos h;
     pstate_origin := pstate_origin h |}.

(** The terminal the released end connects to: the state of the constraint
    handler, or else the marker's valid state while its highlight shows. *)
Definition drop_terminal (h : t) (mk : Marker) : option Cell :=
  let ch := constraintHandler h in
  let terminal :=
    match currentConstraint ch, currentState ch with
    | Some _, Some st => Some (t_cell st)
    | _, _ => None
    end in
  match terminal with
  | Some c => Some c
  | None =>
      match validState mk, highlight mk ≫= shape with
      | Some vs, Some sh =>
          if bool_decide (stroke sh <> Some "transparent"%string)
             && bool_decide (stroke sh <> Some "white"%string)
          then Some (t_cell vs)
          else None
      | _, _ => None
      end
  end.

(** The point stored for an end dropped in the open (lines 1309-1327). *)
Definition dangling_point (G : Graph) (h : t) (p : Point.t) : Point.t :=
  let s := scale G in
  let t := translate G in
  let p1 := Point.mk (Math_round (Point.x p / s - Point.x t))
                     (Math_round (Point.y p / s - Point.y t)) in
  let p2 :=
    match pstate_origin h with
    | Some o => Point.mk (Point.x p1 - Point.x o) (Point.y p1 - Point.y o)
    | None => p1
    end in
  Point.mk (Point.x p2 - tx G / s) (Point.y p2 - ty G / s).

(** The conversion in the words of the documentation: "divide by scale,
    subtract translate and the parent state's origin". *)
Definition plain_conversion (G : Graph) (h : t) (p : Point.t) : Point.t :=
  let o := default (Point.mk 0 0) (pstate_origin h) in
  Point.mk (Point.x p / scale G - Point.x (translate G) - Point.x o)
           (Point.y p / scale G - Point.y (translate G) - Point.y o).

(** The branch taken once the mouse has moved: the edge that results, the
    handler (a point of [absolutePoints] is changed in place) and the world.
    [moveLabel] and the custom handles' [execute] are recorded as calls; a
    custom handle that does not exist cannot be executed. *)
Definition mouseUp_moved (E : Env) (G : Graph) (h : t) (mk : Marker)
    (index : Z) (e : MouseEvent) (w : World) : option (Cell * t * World) :=
  let edge := cell (state h) in
  let clone :=
    negb (connectionIgnored e) && cloneEvent e && cloneable h && cellsCloneable G in
  match error h with
  | Some err =>
      if bool_decide (0 < String.length err)%nat
      then Some (edge, h, emit [ValidationWarn err] w)
      else Some (edge, h, w)
  | None =>
      if isCustomHandle E index then
        match customHandles h with
        | Some n =>
            let k := getCustomHandle E index in
            if bool_decide (0 <= k < Z.of_nat n)%Z
            then Some (edge, h, emit [ExecuteCustomHandle k] w)
            else None
        | None => Some (edge, h, w)
        end
      else if isLabelHandle h then
        lp ← labelPos h;
        Some (edge, h, emit [MoveLabel (Point.x lp) (Point.y lp)] w)
      else if isSourceHandle h || isTargetHandle h then
        match drop_terminal h mk with
        | Some terminal =>
            let m := model w in
            let parent := getParent m edge in
            let '(edge1, m1) :=
              if clone then
                let geo := getGeometry m edge in
                let '(c, m1) := cloneCell m edge in
                let m2 := add m1 parent c in
                let m3 :=
                  match geo with
                  | Some g => setGeometry m2 c g
                  | None => m2
                  end in
                let other := getTerminal m3 edge (negb (isSourceHandle h)) in
                (c, connectCell m3 c other (negb (isSourceHandle h)) None)
              else (edge, m) in
            let '(edge2, m2) := connect h edge1 terminal (isSourceHandle h) clone m1 in
            Some (edge2, h, with_model m2 w)
        | None =>
            if allowDanglingEdges G then
              let abs := h_absolutePoints h in
              let i :=
                if isSourceHandle h then 0%Z else (Z.of_nat (length abs) - 1)%Z in
              p ← at_index abs i;
              let p' := dangling_point G h p in
              let h' := with_index_absolutePoints h (EdgeHandler.index h)
                          (<[Z.to_nat i := Some p']> abs) in
              let '(edge', m') :=
                changeTerminalPoint edge p' (isSourceHandle h) clone (model w) in
              Some (edge', h', with_model m' w)
            else Some (edge, h, w)
        end
      else if active h then
        let '(edge', m') :=
          changePoints edge (default [] (h_points h)) clone (model w) in
        Some (edge', h, with_model m' w)
      else Some (edge, h, emit [Invalidate edge; Validate edge] w)
  end.

(** [graph.isDanglingEdgesEnabled()] is read as the switch
    [allowDanglingEdges] that [updatePreviewState] reads. *)
Definition mouseUp (E : Env) (G : Graph) (h : t) (e : MouseEvent) (w : World)
  : option (t * World) :=
  match index h, marker h with
  | Some index, Some mk =>
      let h0 := with_index_absolutePoints h None (h_absolutePoints h) in
      '(edge, h1, w1) ←
        (if bool_decide (clientX e <> startX h) || bool_decide (clientY e <> startY h)
         then mouseUp_moved E G h0 mk index e w
         else Some (cell (state h), h0, w));
      let '(h2, w2) := reset h1 w1 in
      let w3 :=
        if bool_decide (edge <> cell (state h)) then emit [SetSelectedCell edge] w2
        else w2 in
      Some (h2, emit [Consume] w3)
  | _, _ => Some (h, w)
  end.

(** *** EdgeHandlerMarker.getCell *)

(** Queries of the graph and the model made by the marker. *)
Record MarkerEnv := {
  getCellAt : number -> number -> option Cell;
  isCellConnectable : option Cell -> bool;
  parentOf : Cell -> option Cell;
  isNode : option Cell -> bool;
  isEdge : Cell -> bool;
  isSwimlane : option Cell -> bool;
  hitsSwimlaneContent : option Cell -> number -> number -> bool;
  isAncestor : Cell -> option Cell -> bool;
}.

(** [EdgeHandler.isConnectableCell] *)
Definition isConnectableCell (c : option Cell) : bool := true.

(** The cell after the two look-ups: under the preview point when the event
    hits the edge itself or nothing, and the connectable parent node of a
    cell that is not connectable.  [super.getCell(e)] is the cell of the
    event. *)
Definition candidate (ME : MarkerEnv) (stateCell : Cell)
    (currentPoint : option Point.t) (e : MouseEvent) : option Cell :=
  let cell := e_cell e in
  let cell :=
    match currentPoint with
    | Some cp =>
        if bool_decide (cell = Some stateCell) || bool_decide (cell = None)
        then getCellAt ME (Point.x cp) (Point.y cp)
        else cell
    | None => cell
    end in
  match cell with
  | Some c =>
      if negb (isCellConnectable ME (Some c)) then
        let parent := parentOf ME c in
        if isNode ME parent && isCellConnectable ME parent then parent else cell
      else cell
  | None => cell
  end.

(** The condition under which the cell is given up (lines 1954-1971). *)
Definition rejected (ME : MarkerEnv) (G : Graph) (stateCell : Cell)
    (currentPoint : option Point.t) (cell : option Cell) : bool :=
  (isSwimlane ME cell
   && match currentPoint with
      | Some cp => hitsSwimlaneContent ME cell (Point.x cp) (Point.y cp)
      | None => false
      end)
  || negb (isConnectableCell cell)
  || (bool_decide (cell = Some stateCell)
      || match cell with
         | Some c => negb (edgesConnectable G) && isEdge ME c
         | None => false
         end)
  || isAncestor ME stateCell cell.

Definition getCell (ME : MarkerEnv) (G : Graph) (stateCell : Cell)
    (currentPoint : option Point.t) (e : MouseEvent) : option Cell :=
  let cell := candidate ME stateCell currentPoint e in
  let cell := if rejected ME G stateCell currentPoint cell then None else cell in
  if negb (isCellConnectable ME cell) then None else cell.

End EdgeHandler.


(** * Part I, continued: more of the cited files *)

From Stdlib Require Import Lqa.

(** ** More of [Math] *)

Definition Math_floor (q : number) : number := ofZ (Qfloor (this q)).

Definition Math_min (a b : number) : number := if bool_decide (a <= b) then a else b.

Definition Math_max (a b : number) : number := if bool_decide (a <= b) then b else a.

Definition Math_abs (a : number) : number := if bool_decide (0 <= a) then a else - a.

(** ** struct/overlay.ts: the constructor *)

Module OverlayNew.

(** What the constructor builds: the fields [getBounds] reads, the tooltip
    (which [toString] returns) and the cursor. *)
Record t := {
  overlay : Overlay.t;
  tooltip : string;
  cursor : string;
}.

(** [new Overlay(image, tooltip, align?, verticalAlign?, offset?, cursor?)].
    The class declares [align] and [verticalAlign] without a value, so an
    argument left out leaves them [undefined]; [defaultOverlap] is
    initialised to 0.5; [new Point()] is the origin. *)
Definition constructor (image : Overlay.Image) (tooltip : string)
    (align : option Overlay.Align) (verticalAlign : option Overlay.VAlign)
    (offset : option Point.t) (cursor : option string) : t :=
  {| overlay :=
       {| Overlay.image := image;
          Overlay.align := match align with Some a => Some a | None => None end;
          Overlay.verticalAlign :=
            match verticalAlign with Some v => Some v | None => None end;
          Overlay.offset := match offset with Some o => o | None => Point.mk 0 0 end;
          Overlay.defaultOverlap := half |};
     tooltip := tooltip;
     cursor := match cursor with Some c => c | None => "help"%string end |}.

Definition toString (o : t) : string := tooltip o.





End OverlayNew.

(** ** graph/decorator.ts: afterCreate *)

Module AfterCreate.
Section afterCreate.

Context {Args Val Fields : Type}.

(** A callback found in [graph.options] under the aop name: it is applied
    to the instance the method created, put in front of the arguments. *)
Definition Aop := Decorator.value (Val := Val) -> Args -> Decorator.Graph Val Fields
                  -> Decorator.value (Val := Val) * Decorator.Graph Val Fields.

(** [util.ucFirst] is not among the sources. *)
Context (ucFirst : string -> string).

(** [aopName || `on${util.ucFirst(methodName)}`] *)
Definition aop_name (aopName : option string) (methodName : string) : string :=
  match aopName with
  | Some EmptyString | None => "on" +:+ ucFirst methodName
  | Some n => n
  end.

(** The function the decorator stores in [descriptor.value]. *)
Definition afterCreate (options : gmap string Aop) (aopName : option string)
    (methodName : string) (raw : Decorator.Method Args Val Fields)
    (args : Args) (this : Decorator.Graph Val Fields)
  : Decorator.value (Val := Val) * Decorator.Graph Val Fields :=
  let name := aop_name aopName methodName in
  let '(instance, this1) := Decorator.call_raw raw args this in
  match options !! name with
  | Some aop => aop instance args this1
  | None => (instance, this1)
  end.

End afterCreate.
End AfterCreate.

(** ** registry/router/util.ts: the remaining helpers *)

Module RouterBox.

(** [getPointBBox]: a rectangle without extent at the point. *)
Definition getPointBBox (p : Point.t) : Rectangle.t :=
  Rectangle.mk (Point.x p) (Point.y p) 0 0.

(** The box [r] lies within the box [r']. *)
Definition within (r r' : Rectangle.t) : Prop :=
  Rectangle.x r' <= Rectangle.x r
  /\ Rectangle.y r' <= Rectangle.y r
  /\ Rectangle.x r + Rectangle.width r <= Rectangle.x r' + Rectangle.width r'
  /\ Rectangle.y r + Rectangle.height r <= Rectangle.y r' + Rectangle.height r'.

Definition nonnegative (s : RouterUtil.NormalizedSides) : Prop :=
  0 <= RouterUtil.n_top s /\ 0 <= RouterUtil.n_right s
  /\ 0 <= RouterUtil.n_bottom s /\ 0 <= RouterUtil.n_left s.

End RouterBox.

(** ** The callout shape's outline *)

Module CalloutPath.
Section redrawPath.

Context {Style : Type}.

(** [getFactor(style, defaultFactor, size, max?, key?)] of the shape
    utilities is not among the sources. *)
Context (getFactor : Style -> number -> number -> option number -> option string
                     -> number).

Definition factor : number := ofZ 30.


End redrawPath.
End CalloutPath.

(** ** handler/edge-handler.ts: creating and placing the handles *)

Module Handles.

(** Functions the handler uses here that are not among the sources:
    [Rectangle.isIntersectWith] and the comparison of the view's edge
    function with [routers.entityRelation]. *)
Record Env := {
  isIntersectWith : Rectangle.t -> Rectangle.t -> bool;
  isEntityRelation :
    EdgeHandler.EdgeState -> option (array Point.t) ->
    option EdgeHandler.TerminalState -> option EdgeHandler.TerminalState -> bool;
}.

(** Modelled from the spec: [Rectangle.getCenterX] and [getCenterY] are not
    among the sources; they are the coordinates of the middle of the
    receiver, as [getCenter] is. *)
Definition getCenterX (r : Rectangle.t) : number :=
  Rectangle.x r + Rectangle.width r / two.
Definition getCenterY (r : Rectangle.t) : number :=
  Rectangle.y r + Rectangle.height r / two.

(** *** isHandleVisible, createHandles, createVirtualHandles *)

(** The answer of [isHandleVisible] for a handle that is not at an end:
    [edgeFn !== routers.entityRelation], where [edgeFn] is [null] without a
    geometry. *)
Definition inner_visible (HE : Env) (h : EdgeHandler.t) (m : EdgeHandler.Model)
  : bool :=
  match EdgeHandler.getGeometry m (EdgeHandler.cell (EdgeHandler.state h)) with
  | Some geo =>
      negb (isEntityRelation HE (EdgeHandler.state h) (EdgeHandler.points geo)
              (EdgeHandler.getVisibleTerminalState (EdgeHandler.state h) true)
              (EdgeHandler.getVisibleTerminalState (EdgeHandler.state h) false))
  | None => true
  end.

Definition isHandleVisible (HE : Env) (h : EdgeHandler.t) (m : EdgeHandler.Model)
    (index : Z) : bool :=
  if bool_decide (index = 0%Z)
     || bool_decide (index = (Z.of_nat (length (EdgeHandler.h_absolutePoints h)) - 1)%Z)
  then true
  else inner_visible HE h m.

(** A handle made by [createHandles]: the absolute point it was made for,
    and whether it starts hidden (the handles between the ends do). *)
Record Created := { for_point : nat; starts_hidden : bool }.

(** The loop of [createHandles] over the values [js] of [i]; the accumulator
    is the array [handles] and [this.points].  Pushing onto [this.points]
    while it is [null] fails. *)
Fixpoint createHandles_loop (visible : Z -> bool) (bendable : bool) (len : nat)
    (js : list nat) (acc : list Created * option (array Point.t))
  : option (list Created * option (array Point.t)) :=
  match js with
  | [] => Some acc
  | i :: rest =>
      if visible (Z.of_nat i) then
        let isSource := bool_decide (i = 0%nat) in
        let isTarget := bool_decide (Z.of_nat i = (Z.of_nat len - 1)%Z) in
        let isTerminal := isSource || isTarget in
        if isTerminal || bendable then
          let handles := fst acc ++ [{| for_point := i; starts_hidden := negb isTerminal |}] in
          if negb isTerminal then
            match snd acc with
            | Some ps => createHandles_loop visible bendable len rest
                           (handles, Some (ps ++ [Some (Point.mk 0 0)]))
            | None => None
            end
          else createHandles_loop visible bendable len rest (handles, snd acc)
        else createHandles_loop visible bendable len rest acc
      else createHandles_loop visible bendable len rest acc
  end.

(** [bendable] is [graph.isCellBendable(cell)]. *)
Definition createHandles (HE : Env) (h : EdgeHandler.t) (m : EdgeHandler.Model)
    (bendable : bool) : option (list Created * option (array Point.t)) :=
  let len := length (EdgeHandler.h_absolutePoints h) in
  createHandles_loop (isHandleVisible HE h m) bendable len (seq 0 len)
    ([], EdgeHandler.h_points h).

(** The segments [createVirtualHandles] makes a handle for: [i] from 1 up to
    the number of absolute points. *)
Definition createVirtualHandles (h : EdgeHandler.t) (bendable : bool) : list nat :=
  if bendable then seq 1 (length (EdgeHandler.h_absolutePoints h) - 1) else [].

(** Whether [i] is the position of an end among [len] absolute points. *)
Definition at_end (len i : nat) : bool :=
  bool_decide (i = 0%nat) || bool_decide (Z.of_nat i = (Z.of_nat len - 1)%Z).

(** The positions for which the loop of [createHandles] makes a handle. *)
Definition kept (visible : Z -> bool) (bendable : bool) (len i : nat) : bool :=
  visible (Z.of_nat i) && (at_end len i || bendable).

(** The handles an edge has when only its ends get one. *)
Definition end_handles (len : nat) : list nat :=
  match len with
  | O => []
  | S O => [0%nat]
  | S (S n) => [0%nat; S n]
  end.

(** *** checkLabelHandle, redrawHandles, redrawInnerHandles *)

Record LabelHandle := { l_bounds : Rectangle.t; l_visible : bool }.

Definition checkLabelHandle (HE : Env) (b : Rectangle.t)
    (label : option LabelHandle) : option LabelHandle :=
  match label with
  | Some lh =>
      let b2 := l_bounds lh in
      if isIntersectWith HE b b2 then
        let y' :=
          if bool_decide (getCenterY b < getCenterY b2)
          then Rectangle.y b + Rectangle.height b
          else Rectangle.y b - Rectangle.height b2 in
        Some {| l_bounds := Rectangle.mk (Rectangle.x b2) y'
                              (Rectangle.width b2) (Rectangle.height b2);
                l_visible := l_visible lh |}
      else label
  | None => None
  end.

(** [new Rectangle(rnd(x - w / 2), rnd(y - h / 2), w, h)] *)
Definition centred (rnd : number -> number) (p : Point.t) (w h : number)
  : Rectangle.t :=
  Rectangle.mk (rnd (Point.x p - w / two)) (rnd (Point.y p - h / two)) w h.

(** The handles and the label handle while they are redrawn. *)
Record Shapes := {
  handles : list (option Rectangle.t);
  label : option LabelHandle;
}.

(** One handle at an end ("first bend", "last bend"): reading the point
    fails when the handle exists and the point is [null]. *)
Definition redrawEndHandle (HE : Env) (manageLabelHandle : bool)
    (p : option Point.t) (i : nat) (s : Shapes) : option Shapes :=
  match mjoin (handles s !! i) with
  | Some b =>
      p ← p;
      let b' := centred Math_floor p (Rectangle.width b) (Rectangle.height b) in
      Some {| handles := <[i := Some b']> (handles s);
              label := if manageLabelHandle
                       then checkLabelHandle HE b' (label s) else label s |}
  | None => Some s
  end.

(** The body of the loop of [redrawInnerHandles] for one [i]. *)
Definition redrawInnerHandle (HE : Env) (manageLabelHandle : bool)
    (abs : array Point.t) (s : Shapes) (i : nat) : Shapes :=
  match mjoin (handles s !! i) with
  | Some b =>
      match mjoin (abs !! i) with
      | Some p =>
          let b1 := centred Math_round p (Rectangle.width b) (Rectangle.height b) in
          if manageLabelHandle then
            {| handles := <[i := Some b1]> (handles s);
               label := checkLabelHandle HE b1 (label s) |}
          else
            match label s with
            | Some lh =>
                if l_visible lh && isIntersectWith HE b1 (l_bounds lh) then
                  let w := Rectangle.width b + ofZ 3 in
                  let h := Rectangle.height b + ofZ 3 in
                  {| handles := <[i := Some (centred Math_round p w h)]> (handles s);
                     label := label s |}
                else {| handles := <[i := Some b1]> (handles s); label := label s |}
            | None => {| handles := <[i := Some b1]> (handles s); label := label s |}
            end
      | None => {| handles := <[i := None]> (handles s); label := label s |}
      end
  | None => s
  end.

(** [i] runs from 1 to [handles.length - 2]. *)
Definition redrawInnerHandles (HE : Env) (manageLabelHandle : bool)
    (abs : array Point.t) (s : Shapes) : Shapes :=
  fold_left (redrawInnerHandle HE manageLabelHandle abs)
            (seq 1 (length (handles s) - 2)) s.

(** The part of [redrawHandles] for the handles (lines 1661-1705). *)
Definition redrawEdgeHandles (HE : Env) (manageLabelHandle : bool)
    (abs : array Point.t) (s : Shapes) : option Shapes :=
  if bool_decide (0 < length (handles s))%nat then
    let p0 := at_index abs 0 in
    let pe := at_index abs (Z.of_nat (length abs) - 1) in
    s1 ← redrawEndHandle HE manageLabelHandle p0 0 s;
    s2 ← redrawEndHandle HE manageLabelHandle pe (length (handles s1) - 1) s1;
    Some (redrawInnerHandles HE manageLabelHandle abs s2)
  else Some s.

(** The virtual handles while they are redrawn: the last point used
    ([pl]), the handles, and the label handle. *)
Record Virtuals := {
  pl : option Point.t;
  virtualHandles : list (option Rectangle.t);
  v_label : option LabelHandle;
}.

(** The body of the loop over the virtual handles for one [i]. *)
Definition redrawVirtualHandle (HE : Env) (manageLabelHandle : bool)
    (abs : array Point.t) (v : option Virtuals) (i : nat) : option Virtuals :=
  v ← v;
  match mjoin (virtualHandles v !! i), mjoin (abs !! S i) with
  | Some b, Some point =>
      pl ← pl v;
      let x := Point.x pl + (Point.x point - Point.x pl) / two in
      let y := Point.y pl + (Point.y point - Point.y pl) / two in
      let b' := centred Math_floor (Point.mk x y) (Rectangle.width b) (Rectangle.height b) in
      Some {| pl := Some point;
              virtualHandles := <[i := Some b']> (virtualHandles v);
              v_label := if manageLabelHandle
                         then checkLabelHandle HE b' (v_label v) else v_label v |}
  | _, _ => Some v
  end.

(** The part of [redrawHandles] for the virtual handles (lines 1707-1734). *)
Definition redrawVirtualHandles (HE : Env) (manageLabelHandle : bool)
    (abs : array Point.t) (vhs : option (list (option Rectangle.t)))
    (label : option LabelHandle)
  : option (option (list (option Rectangle.t)) * option LabelHandle) :=
  match vhs with
  | Some hs =>
      if bool_decide (0 < length hs)%nat then
        v ← fold_left (redrawVirtualHandle HE manageLabelHandle abs)
              (seq 0 (length hs))
              (Some {| pl := mjoin (abs !! 0%nat); virtualHandles := hs;
                       v_label := label |});
        Some (Some (virtualHandles v), v_label v)
      else Some (vhs, label)
  | None => Some (None, label)
  end.

(** What [redrawHandles] needs besides the handler: the label handle's
    offset ([getLabelHandleOffset]), the state's [absoluteOffset], and
    whether the label is valid and movable. *)
Record LabelInfo := {
  handleOffset : Point.t;
  absoluteOffset : Point.t;
  labelShown : bool;
}.

(** The part of [redrawHandles] for the label handle (lines 1637-1659):
    the new [labelPos] and the label handle. *)
Definition redrawLabelHandle (info : LabelInfo) (label : option LabelHandle)
    (labelPos : option Point.t) : option Point.t * option LabelHandle :=
  match label with
  | Some lh =>
      let bounds := l_bounds lh in
      let pos := Point.clone (absoluteOffset info) in
      (Some pos,
       Some {| l_bounds :=
                 Rectangle.mk
                   (Math_round (Point.x pos - Rectangle.width bounds / two
                                + Point.x (handleOffset info)))
                   (Math_round (Point.y pos - Rectangle.height bounds / two
                                + Point.y (handleOffset info)))
                   (Rectangle.width bounds) (Rectangle.height bounds);
               l_visible := labelShown info |})
  | None => (labelPos, None)
  end.

(** Everything [redrawHandles] places. *)
Record Redrawn := {
  r_labelPos : option Point.t;
  r_handles : option (list (option Rectangle.t));
  r_virtualHandles : option (list (option Rectangle.t));
  r_label : option LabelHandle;
}.

Definition redrawHandles (HE : Env) (manageLabelHandle : bool) (info : LabelInfo)
    (abs : array Point.t) (hs vhs : option (list (option Rectangle.t)))
    (label : option LabelHandle) (labelPos : option Point.t) : option Redrawn :=
  let '(labelPos, label) := redrawLabelHandle info label labelPos in
  '(hs, label) ←
    match hs with
    | Some l =>
        s ← redrawEdgeHandles HE manageLabelHandle abs {| handles := l; label := label |};
        Some (Some (handles s), Handles.label s)
    | None => Some (None, label)
    end;
  '(vhs, label) ← redrawVirtualHandles HE manageLabelHandle abs vhs label;
  Some {| r_labelPos := labelPos; r_handles := hs; r_virtualHandles := vhs;
          r_label := label |}.

(** The rectangle [b] holds the point [p], borders included. *)
Definition holds (b : Rectangle.t) (p : Point.t) : Prop :=
  Rectangle.x b <= Point.x p
  /\ Point.x p <= Rectangle.x b + Rectangle.width b
  /\ Rectangle.y b <= Point.y p
  /\ Point.y p <= Rectangle.y b + Rectangle.height b.

(** Every handle of [hs] is at least [k] wide and high. *)
Definition at_least (k : number) (hs : list (option Rectangle.t)) : Prop :=
  forall i b, hs !! i = Some (Some b) ->
              k <= Rectangle.width b /\ k <= Rectangle.height b.

(** The absolute point that the handle at position [i] of [n] handles is
    placed on: the last point for the last handle, the point at the same
    position for the others. *)
Definition point_of (abs : array Point.t) (n i : nat) : option Point.t :=
  if bool_decide (i = (n - 1)%nat)
  then at_index abs (Z.of_nat (length abs) - 1)
  else mjoin (abs !! i).

(** The middle of the segment from [p] to [q], as the virtual handles use
    it. *)
Definition segment_middle (p q : Point.t) : Point.t :=
  Point.mk (Point.x p + (Point.x q - Point.x p) / two)
           (Point.y p + (Point.y q - Point.y p) / two).

End Handles.

(** ** handler/edge-handler.ts: starting a drag, adding a waypoint *)

Module Dragging.

(** Queries the handler makes here that are not among the sources:
    [DomEvent.isLabelHandle], the graph's [isTerminalPointMovable] and
    [isCellDisconnectable], the model's [isNode], [util.findNearestSegment],
    and the three fill colours of [constants]. *)
Record Env := {
  isLabelHandle : Z -> bool;
  isTerminalPointMovable : EdgeHandler.Cell -> bool -> bool;
  isCellDisconnectable : EdgeHandler.Cell -> EdgeHandler.Cell -> bool -> bool;
  isNode : option EdgeHandler.Cell -> bool;
  findNearestSegment : EdgeHandler.EdgeState -> number -> number -> Z;
  HANDLE_FILLCOLOR : string;
  LOCKED_HANDLE_FILLCOLOR : string;
  CONNECT_HANDLE_FILLCOLOR : string;
}.

(** *** getHandleFillColor *)

Definition getHandleFillColor (D : Env) (h : EdgeHandler.t) (m : EdgeHandler.Model)
    (index : Z) : string :=
  let isSource := bool_decide (index = 0%Z) in
  let cell := EdgeHandler.cell (EdgeHandler.state h) in
  let terminal := EdgeHandler.getTerminal m cell isSource in
  if match terminal with
     | Some t => negb (isCellDisconnectable D cell t isSource)
     | None => negb (isTerminalPointMovable D cell isSource)
     end
  then LOCKED_HANDLE_FILLCOLOR D
  else if match terminal with
          | Some t => isCellDisconnectable D cell t isSource
          | None => false
          end
  then CONNECT_HANDLE_FILLCOLOR D
  else HANDLE_FILLCOLOR D.

(** *** start *)

Definition with_start (h : EdgeHandler.t) (x y : number) (lbl src trg : bool)
    (i : option Z) : EdgeHandler.t :=
  {| EdgeHandler.state := EdgeHandler.state h;
     EdgeHandler.handles := EdgeHandler.handles h;
     EdgeHandler.marker := EdgeHandler.marker h;
     EdgeHandler.constraintHandler := EdgeHandler.constraintHandler h;
     EdgeHandler.error := EdgeHandler.error h;
     EdgeHandler.cloneable := EdgeHandler.cloneable h;
     EdgeHandler.straightRemoveEnabled := EdgeHandler.straightRemoveEnabled h;
     EdgeHandler.outlineConnect := EdgeHandler.outlineConnect h;
     EdgeHandler.customHandles := EdgeHandler.customHandles h;
     EdgeHandler.h_points := EdgeHandler.h_points h;
     EdgeHandler.h_absolutePoints := EdgeHandler.h_absolutePoints h;
     EdgeHandler.snapPoint := EdgeHandler.snapPoint h;
     EdgeHandler.startX := x; EdgeHandler.startY := y;
     EdgeHandler.index := i; EdgeHandler.active := EdgeHandler.active h;
     EdgeHandler.isSourceHandle := src; EdgeHandler.isTargetHandle := trg;
     EdgeHandler.isLabelHandle := lbl;
     EdgeHandler.labelPos := EdgeHandler.labelPos h;
     EdgeHandler.pstate_origin := EdgeHandler.pstate_origin h |}.

(** The test under which [start] takes the index of a handle at an end:
    a dangling end must be movable, a connected one disconnectable. *)
Definition may_move (D : Env) (h : EdgeHandler.t) (m : EdgeHandler.Model)
    (isSource : bool) : bool :=
  let cell := EdgeHandler.cell (EdgeHandler.state h) in
  match EdgeHandler.getTerminal m cell isSource with
  | None => isTerminalPointMovable D cell isSource
  | Some terminal => isCellDisconnectable D cell terminal isSource
  end.

(** The handler after [start], and the custom handles it hides. *)
Definition start (E : EdgeHandler.Env) (D : Env) (h : EdgeHandler.t)
    (m : EdgeHandler.Model) (x y : number) (index : Z)
  : EdgeHandler.t * list nat :=
  let lbl := isLabelHandle D index in
  let src :=
    match EdgeHandler.handles h with
    | Some _ => bool_decide (index = 0%Z)
    | None => false
    end in
  let trg :=
    match EdgeHandler.handles h with
    | Some hs => bool_decide (index = (Z.of_nat (length hs) - 1)%Z)
    | None => false
    end in
  let idx :=
    if src || trg
    then (if may_move D h m src then Some index else EdgeHandler.index h)
    else Some index in
  let hidden :=
    match idx with
    | Some i =>
        if EdgeHandler.isCustomHandle E i then
          match EdgeHandler.customHandles h with
          | Some n =>
              List.filter
                (fun k => negb (bool_decide (Z.of_nat k = EdgeHandler.getCustomHandle E i)))
                (seq 0 n)
          | None => []
          end
        else []
    | None => []
    end in
  (with_start h x y lbl src trg idx, hidden).

(** *** addPointAt *)

(** The segment [addPointAt] finds for the point ([index], lines 606-622):
    [pState] is the bounds of the state the view holds for the parent of the
    edge, when it holds one. *)
Definition segment_for (D : Env) (G : EdgeHandler.Graph) (h : EdgeHandler.t)
    (pState : option Rectangle.t) (st : EdgeHandler.EdgeState) (p : Point.t)
    (m : EdgeHandler.Model) : Z :=
  let t := EdgeHandler.translate G in
  let s := EdgeHandler.scale G in
  let offset := Point.mk (Point.x t * s) (Point.y t * s) in
  let parent := EdgeHandler.getParent m (EdgeHandler.cell (EdgeHandler.state h)) in
  let offset :=
    if isNode D parent then
      match pState with
      | Some b => Point.mk (Rectangle.x b) (Rectangle.y b)
      | None => offset
      end
    else offset in
  findNearestSegment D st (Point.x p * s + Point.x offset)
                          (Point.y p * s + Point.y offset).

Definition addPointAt (D : Env) (G : EdgeHandler.Graph) (h : EdgeHandler.t)
    (pState : option Rectangle.t) (st : EdgeHandler.EdgeState) (x y : number)
    (w : EdgeHandler.World) : EdgeHandler.World :=
  match EdgeHandler.getGeometry (EdgeHandler.model w) (EdgeHandler.cell st) with
  | Some geo =>
      let p := Point.mk x y in
      let index := segment_for D G h pState st p (EdgeHandler.model w) in
      let pts :=
        match EdgeHandler.points geo with
        | None => [Some p]
        | Some pts => splice_insert pts index (Some p)
        end in
      EdgeHandler.emit [EdgeHandler.Refresh; EdgeHandler.Redraw]
        (EdgeHandler.with_model
           (EdgeHandler.setGeometry (EdgeHandler.model w) (EdgeHandler.cell st)
              (EdgeHandler.with_points geo (Some pts)))
           w)
  | None => w
  end.

End Dragging.

(** ** handler/edge-handler.ts: the handle under the pointer *)

Module Picking.

(** A shape as [getHandleForEvent] sees it: its bounds, whether its element
    is visible, and whether the event comes from it ([e.isSource]). *)
Record Shape := {
  bounds : Rectangle.t;
  visible : bool;
  isEventSource : bool;
}.

(** What the method reads besides the shapes: the switches and numbers of
    the handler, the event, and the encodings of [DomEvent]. *)
Record Env := {
  isIntersectWith : Rectangle.t -> Rectangle.t -> bool;
  IS_IE : bool;
  isMouseEvent : bool;
  tolerance : number;
  checkHandleBounds : bool;
  textIsEventSource : bool;
  getCustomHandle : Z -> Z;
  getLabelHandle : Z;
  getVisualHandle : Z -> Z;
}.

Definition hit_box (P : Env) (e : EdgeHandler.MouseEvent) : option Rectangle.t :=
  let tol := if isMouseEvent P then 1 else tolerance P in
  if checkHandleBounds P && (IS_IE P || bool_decide (0 < tol))
  then Some (Rectangle.mk (EdgeHandler.graphX e - tol) (EdgeHandler.graphY e - tol)
                          (two * tol) (two * tol))
  else None.

(** The square of the distance from the pointer to the middle of a shape. *)
Definition distance2 (e : EdgeHandler.MouseEvent) (s : Shape) : number :=
  let dx := EdgeHandler.graphX e - Handles.getCenterX (bounds s) in
  let dy := EdgeHandler.graphY e - Handles.getCenterY (bounds s) in
  dx * dx + dy * dy.

(** The first condition of [checkShape]: the shape exists, is visible, and
    is the source of the event or meets the hit box. *)
Definition is_hit (P : Env) (e : EdgeHandler.MouseEvent) (shape : option Shape) : bool :=
  match shape with
  | Some s =>
      visible s
      && (isEventSource s
          || match hit_box P e with
             | Some hit => isIntersectWith P (bounds s) hit
             | None => false
             end)
  | None => false
  end.

(** [checkShape]: its answer, and [minDist] afterwards. *)
Definition checkShape (P : Env) (e : EdgeHandler.MouseEvent)
    (shape : option Shape) (minDist : option number) : bool * option number :=
  match shape with
  | Some s =>
      if is_hit P e shape then
        let tmp := distance2 e s in
        match minDist with
        | None => (true, Some tmp)
        | Some d => if bool_decide (tmp <= d) then (true, Some tmp) else (false, minDist)
        end
      else (false, minDist)
  | None => (false, minDist)
  end.

(** The loop over the custom handles, last one first; [n] is one more than
    the position looked at, and [shapes] are the handles' shapes. *)
Fixpoint custom_loop (P : Env) (e : EdgeHandler.MouseEvent)
    (shapes : list (option Shape)) (n : nat) (minDist : option number)
  : option Z * option number :=
  match n with
  | O => (None, minDist)
  | S i =>
      let '(ok, minDist) := checkShape P e (mjoin (shapes !! i)) minDist in
      if ok then (Some (getCustomHandle P (Z.of_nat i)), minDist)
      else custom_loop P e shapes i minDist
  end.

(** A loop over handles from the first one on: [i] is the position of the
    head of [shapes]; the accumulator is [result] and [minDist]. *)
Fixpoint handle_loop (P : Env) (e : EdgeHandler.MouseEvent) (code : Z -> Z)
    (shapes : list (option Shape)) (i : Z) (acc : option Z * option number)
  : option Z * option number :=
  match shapes with
  | [] => acc
  | shape :: rest =>
      let '(ok, minDist) := checkShape P e shape (snd acc) in
      handle_loop P e code rest (i + 1)%Z
        (if ok then Some (code i) else fst acc, minDist)
  end.

(** [isCustomHandleEvent] and [isAddVirtualBendEvent] answer [true]. *)
Definition getHandleForEvent (P : Env) (e : EdgeHandler.MouseEvent)
    (customHandles : option (list (option Shape)))
    (labelHandleShape : option Shape)
    (handles virtualHandles : option (list (option Shape))) : option Z :=
  let '(found, minDist) :=
    match customHandles with
    | Some cs => custom_loop P e cs (length cs) None
    | None => (None, None)
    end in
  match found with
  | Some r => Some r
  | None =>
      let '(result, minDist) :=
        if textIsEventSource P then (Some (getLabelHandle P), minDist)
        else
          let '(ok, minDist) := checkShape P e labelHandleShape minDist in
          (if ok then Some (getLabelHandle P) else None, minDist) in
      let acc :=
        match handles with
        | Some hs => handle_loop P e (fun i => i) hs 0%Z (result, minDist)
        | None => (result, minDist)
        end in
      let acc :=
        match virtualHandles with
        | Some vs => handle_loop P e (getVisualHandle P) vs 0%Z acc
        | None => acc
        end in
      fst acc
  end.

End Picking.

(** ** handler/edge-handler.ts: the point of an event, the label *)

Module Snapping.

(** The point being built, with [overrideX] and [overrideY]. *)
Record Acc := { result : Point.t; overrideX : bool; overrideY : bool }.

(** [roundLength] *)
Definition roundLength (length : number) : number := Math_round length.

(** [gridSize] is the grid size of the graph. *)
Definition getSnapToTerminalTolerance (G : EdgeHandler.Graph) (gridSize : number)
  : number :=
  gridSize * EdgeHandler.scale G / two.

(** The local function [snapToPoint]. *)
Definition snapToPoint (tt : number) (a : Acc) (pt : option Point.t) : Acc :=
  match pt with
  | Some pt =>
      let a :=
        if bool_decide (Math_abs (Point.x (result a) - Point.x pt) < tt)
        then {| result := Point.mk (Point.x pt) (Point.y (result a));
                overrideX := true; overrideY := overrideY a |}
        else a in
      if bool_decide (Math_abs (Point.y (result a) - Point.y pt) < tt)
      then {| result := Point.mk (Point.x (result a)) (Point.y pt);
              overrideX := overrideX a; overrideY := true |}
      else a
  | None => a
  end.

(** The points tried in turn: the routing centres of the visible
    terminals, then the absolute points of the state. *)
Definition snap_candidates (E : EdgeHandler.Env) (st : EdgeHandler.EdgeState)
  : list (option Point.t) :=
  [fmap (M := option) (EdgeHandler.routingCenter E)
        (EdgeHandler.getVisibleTerminalState st true);
   fmap (M := option) (EdgeHandler.routingCenter E)
        (EdgeHandler.getVisibleTerminalState st false)]
  ++ EdgeHandler.absolutePoints st.

(** The point as first computed from the event. *)
Definition rounded (G : EdgeHandler.Graph) (e : EdgeHandler.MouseEvent) : Point.t :=
  let s := EdgeHandler.scale G in
  Point.mk (roundLength (EdgeHandler.graphX e / s) * s)
           (roundLength (EdgeHandler.graphY e / s) * s).

(** [snapToTerminals] is the switch of the handler, [gridEnabled] the
    answer of [graph.isGridEnabledForEvent]. *)
Definition getPointForEvent (E : EdgeHandler.Env) (G : EdgeHandler.Graph)
    (h : EdgeHandler.t) (gridSize : number) (snapToTerminals gridEnabled : bool)
    (e : EdgeHandler.MouseEvent) : Point.t :=
  let s := EdgeHandler.scale G in
  let t := EdgeHandler.translate G in
  let a := {| result := rounded G e; overrideX := false; overrideY := false |} in
  let tt := getSnapToTerminalTolerance G gridSize in
  let a :=
    if bool_decide (0 < tt) && (snapToTerminals && negb (EdgeHandler.altDown e))
    then fold_left (snapToPoint tt) (snap_candidates E (EdgeHandler.state h)) a
    else a in
  if gridEnabled then
    let x :=
      if negb (overrideX a)
      then (EdgeHandler.snap E (Point.x (result a) / s - Point.x t) + Point.x t) * s
      else Point.x (result a) in
    let y :=
      if negb (overrideY a)
      then (EdgeHandler.snap E (Point.y (result a) / s - Point.y t) + Point.y t) * s
      else Point.y (result a) in
    Point.mk x y
  else result a.

(** What [snapToPoint] does to one coordinate: the value and whether it was
    overridden, before and after a candidate [c] is tried. *)
Definition snap_coordinate (tt : number) (vo : number * bool) (c : option number)
  : number * bool :=
  match c with
  | Some c => if bool_decide (Math_abs (fst vo - c) < tt) then (c, true) else vo
  | None => vo
  end.

(** The coordinate the grid gives when the snap did not override it. *)
Definition grid_coordinate (E : EdgeHandler.Env) (G : EdgeHandler.Graph)
    (v t : number) : number :=
  (EdgeHandler.snap E (v / EdgeHandler.scale G - t) + t) * EdgeHandler.scale G.

End Snapping.

Module Label.

(** The part of a geometry [moveLabel] writes: the origin of its bounds,
    the offset, and whether it is relative. *)
Record Geometry := {
  relative : bool;
  bounds_x : number;
  bounds_y : number;
  offset : option Point.t;
}.

(** Methods of the view that are not among the sources. *)
Record View := {
  getRelativePoint : EdgeHandler.EdgeState -> number -> number -> Point.t;
  getPointOnEdge : EdgeHandler.EdgeState -> Geometry -> Point.t;
}.

Definition ten_thousand : number := ofZ 10000.

(** The geometry [moveLabel] stores for a cell whose geometry is [geo]. *)
Definition moveLabel (V : View) (G : EdgeHandler.Graph)
    (edgeState : EdgeHandler.EdgeState) (x y : number) (geo : Geometry) : Geometry :=
  let scale := EdgeHandler.scale G in
  if relative geo then
    let pt := getRelativePoint V edgeState x y in
    let geo1 :=
      {| relative := relative geo;
         bounds_x := Math_round (Point.x pt * ten_thousand) / ten_thousand;
         bounds_y := Math_round (Point.y pt);
         offset := Some (Point.mk 0 0) |} in
    let pt := getPointOnEdge V edgeState geo1 in
    {| relative := relative geo1; bounds_x := bounds_x geo1; bounds_y := bounds_y geo1;
       offset := Some (Point.mk (Math_round ((x - Point.x pt) / scale))
                                (Math_round ((y - Point.y pt) / scale))) |}
  else
    let points := EdgeHandler.absolutePoints edgeState in
    match mjoin (points !! 0%nat), mjoin (last points) with
    | Some p0, Some pe =>
        let cx := Point.x p0 + (Point.x pe - Point.x p0) / two in
        let cy := Point.y p0 + (Point.y pe - Point.y p0) / two in
        {| relative := relative geo; bounds_x := 0; bounds_y := 0;
           offset := Some (Point.mk (Math_round ((x - cx) / scale))
                                    (Math_round ((y - cy) / scale))) |}
    | _, _ => geo
    end.

End Label.
(** ** Sample inputs *)

(** An overlay with a 16 x 16 image on an edge of two points. *)
Definition overlay16 : Overlay.t :=
  {| Overlay.image := {| Overlay.width := ofZ 16; Overlay.height := ofZ 16 |};
     Overlay.align := None;
     Overlay.verticalAlign := None;
     Overlay.offset := Point.mk 0 0;
     Overlay.defaultOverlap := half |}.

Definition edge_state_2 : Overlay.State :=
  {| Overlay.isEdge := true;
     Overlay.scale := 1;
     Overlay.absolutePoints := [Some (Point.mk (ofZ 80) (ofZ 15));
                                Some (Point.mk (ofZ 200) (ofZ 15))];
     Overlay.bounds := Rectangle.mk 0 0 0 0 |}.


(** A graph whose only field is a counter, a method that returns the
    counter, and a hook that counts its calls and declines ([null]). *)
Definition counter_raw : Decorator.Method unit nat nat :=
  fun _ n => (Some n, n).

Definition counting_hook : Decorator.Hook unit nat nat :=
  fun _ g => (None, {| Decorator.getNativeValue := Decorator.getNativeValue g;
                       Decorator.fields := S (Decorator.fields g) |}).

Definition counting_options : gmap string (Decorator.Hook unit nat nat) :=
  {[ "getLabel"%string := counting_hook ]}.

Definition graph0 : Decorator.Graph nat nat :=
  {| Decorator.getNativeValue := None; Decorator.fields := 0%nat |}.

(** A hook that answers with a fixed label. *)
Definition label_hook : Decorator.Hook unit nat nat :=
  fun _ g => (Some 7%nat, g).

Definition label_options : gmap string (Decorator.Hook unit nat nat) :=
  {[ "getLabel"%string := label_hook ]}.

(** An edge view between a box at (0, 0) and a box at (200, 0), both 80 x 30,
    with no endpoint resolved yet, and a store holding the two boxes. *)
Definition view_AB : RouterUtil.EdgeView :=
  {| RouterUtil.sourceBBox := 1%positive;
     RouterUtil.targetBBox := 2%positive;
     RouterUtil.sourceEndpoint := None;
     RouterUtil.targetEndpoint := None |}.

Definition box_A : Rectangle.t := Rectangle.mk 0 0 (ofZ 80) (ofZ 30).
Definition box_B : Rectangle.t := Rectangle.mk (ofZ 200) 0 (ofZ 80) (ofZ 30).

Definition store_AB : Store.t :=
  <[2%positive := box_B]> (<[1%positive := box_A]> ∅).

(** Stand-ins for the perimeter helpers, none of which changes anything: a
    style that is the factor when it names one, the default handed in
    otherwise; bounds shortened at the bottom by the margin, as a new
    rectangle; and the point of the directed bounds straight above or below
    the next point. *)
Definition sample_factor (style : option number) (dflt : option number)
    (size : number) : number :=
  match style with
  | Some f => f
  | None => default 0 dflt
  end.

Definition sample_directed (b m : Rectangle.t) (style : option number)
  : Rectangle.t :=
  Rectangle.mk (Rectangle.x b) (Rectangle.y b) (Rectangle.width b)
               (Rectangle.height b - Rectangle.height m).

Definition sample_perimeter (b : Rectangle.t) (st : Callout.State (option number))
    (next : Point.t) (orthogonal : bool) : Point.t :=
  Point.mk (Point.x next) (Rectangle.y b + Rectangle.height b).

Definition sample_getFactor (style : option number) (dflt : option number)
    (size : number) : Callout.M number :=
  Callout.ret (sample_factor style dflt size).

Definition sample_getDirectedBounds (lb lr : Store.loc) (style : option number)
  : Callout.M Store.loc :=
  Callout.lift
    (b ←ₛ Store.read lb ;;
     m ←ₛ Store.read lr ;;
     Store.alloc (sample_directed b m style)).

Definition sample_rectanglePerimeter (l : Store.loc)
    (st : Callout.State (option number)) (next : Point.t) (orthogonal : bool)
  : Callout.M Point.t :=
  Callout.lift
    (d ←ₛ Store.read l ;;
     Store.ret (sample_perimeter d st next orthogonal)).

(** A callout whose style names no factor, at scale 1, and the heap with
    the boxes A and B where [CalloutShape.prototype.factor] has been set to
    30. *)
Definition callout_state : Callout.State (option number) :=
  {| Callout.style := None; Callout.view_scale := 1 |}.

Definition heap_AB : Callout.Heap :=
  {| Callout.rects := store_AB; Callout.prototype_factor := Some (ofZ 30) |}.

(** *** The edge handler on an edge from A to B with two waypoints *)

Definition sample_env : EdgeHandler.Env :=
  {| EdgeHandler.isVisualHandle := fun i => (i <=? -100000)%Z;
     EdgeHandler.getVisualHandle := fun i => (-100000 - i)%Z;
     EdgeHandler.isCustomHandle := fun i => ((i <=? -100)%Z && (-100000 <? i)%Z);
     EdgeHandler.getCustomHandle := fun i => (-100 - i)%Z;
     EdgeHandler.ptSegmentDist := fun x1 y1 x2 y2 px py => ofZ 1000;
     EdgeHandler.containsPoint := fun b p =>
       bool_decide (Rectangle.x b <= Point.x p)
       && bool_decide (Point.x p <= Rectangle.x b + Rectangle.width b)
       && bool_decide (Rectangle.y b <= Point.y p)
       && bool_decide (Point.y p <= Rectangle.y b + Rectangle.height b);
     EdgeHandler.snap := fun n => n;
     EdgeHandler.getConnectionConstraint := fun _ _ _ => None;
     EdgeHandler.getConnectionPoint := fun _ _ => None;
     EdgeHandler.getRoutingCenterX := fun ts =>
       Rectangle.x (EdgeHandler.t_bounds ts) + Rectangle.width (EdgeHandler.t_bounds ts) / two;
     EdgeHandler.getRoutingCenterY := fun ts =>
       Rectangle.y (EdgeHandler.t_bounds ts) + Rectangle.height (EdgeHandler.t_bounds ts) / two;
     EdgeHandler.getOutlineConstraint := fun _ _ _ => None;
     EdgeHandler.OUTLINE_HIGHLIGHT_COLOR := "#0000FF";
     EdgeHandler.OUTLINE_HIGHLIGHT_STROKEWIDTH := ofZ 5;
     EdgeHandler.DEFAULT_VALID_COLOR := "#00FF00";
     EdgeHandler.HIGHLIGHT_STROKEWIDTH := ofZ 3 |}.

Definition sample_graph (dangling : bool) : EdgeHandler.Graph :=
  {| EdgeHandler.scale := 1;
     EdgeHandler.translate := Point.mk 0 0;
     EdgeHandler.tolerance := ofZ 4;
     EdgeHandler.tx := 0;
     EdgeHandler.ty := 0;
     EdgeHandler.resetEdgesOnConnect := false;
     EdgeHandler.allowDanglingEdges := dangling;
     EdgeHandler.cellsCloneable := true;
     EdgeHandler.edgesConnectable := false |}.

Definition state_A : EdgeHandler.TerminalState :=
  {| EdgeHandler.t_cell := 1%nat; EdgeHandler.t_bounds := box_A |}.
Definition state_B : EdgeHandler.TerminalState :=
  {| EdgeHandler.t_cell := 2%nat; EdgeHandler.t_bounds := box_B |}.

Definition waypoint_1 : Point.t := Point.mk (ofZ 100) (ofZ 50).
Definition waypoint_2 : Point.t := Point.mk (ofZ 150) (ofZ 50).

Definition sample_geometry : EdgeHandler.Geometry :=
  {| EdgeHandler.points := Some [Some waypoint_1; Some waypoint_2];
     EdgeHandler.sourcePoint := None;
     EdgeHandler.targetPoint := None |}.

Definition node_rec : EdgeHandler.CellRec :=
  {| EdgeHandler.geometry := None; EdgeHandler.parent := Some 0%nat;
     EdgeHandler.source := None; EdgeHandler.target := None;
     EdgeHandler.sourceConstraint := None; EdgeHandler.targetConstraint := None |}.

Definition edge_rec : EdgeHandler.CellRec :=
  {| EdgeHandler.geometry := Some sample_geometry; EdgeHandler.parent := Some 0%nat;
     EdgeHandler.source := Some 1%nat; EdgeHandler.target := Some 2%nat;
     EdgeHandler.sourceConstraint := None; EdgeHandler.targetConstraint := None |}.

(** Cell 0 is the layer, 1 and 2 are the nodes A and B, 3 is the edge. *)
Definition sample_model : EdgeHandler.Model :=
  <[3%nat := edge_rec]> (<[2%nat := node_rec]> (<[1%nat := node_rec]>
    (<[0%nat := {| EdgeHandler.geometry := None; EdgeHandler.parent := None;
                   EdgeHandler.source := None; EdgeHandler.target := None;
                   EdgeHandler.sourceConstraint := None;
                   EdgeHandler.targetConstraint := None |}]> ∅))).

Definition sample_world : EdgeHandler.World :=
  {| EdgeHandler.model := sample_model; EdgeHandler.log := [] |}.

Definition sample_abs : array Point.t :=
  [Some (Point.mk (ofZ 80) (ofZ 15)); Some waypoint_1; Some waypoint_2;
   Some (Point.mk (ofZ 200) (ofZ 15))].

Definition sample_edge_state : EdgeHandler.EdgeState :=
  {| EdgeHandler.cell := 3%nat;
     EdgeHandler.style := ∅;
     EdgeHandler.absolutePoints := sample_abs;
     EdgeHandler.visibleSourceState := Some state_A;
     EdgeHandler.visibleTargetState := Some state_B |}.

(** A 6 x 6 handle centred on a point. *)
Definition handle_at (p : Point.t) : option Rectangle.t :=
  Some (Rectangle.mk (Point.x p - ofZ 3) (Point.y p - ofZ 3) (ofZ 6) (ofZ 6)).

Definition idle_marker : EdgeHandler.Marker :=
  {| EdgeHandler.validState := None; EdgeHandler.markedState := None;
     EdgeHandler.highlight := None |}.

Definition idle_constraintHandler : EdgeHandler.ConstraintHandler :=
  {| EdgeHandler.currentConstraint := None; EdgeHandler.currentState := None;
     EdgeHandler.currentPoint := None; EdgeHandler.focused := None |}.

(** The handler in the middle of a drag of the handle [i]. *)
Definition dragging (i : Z) (abs : array Point.t) (err : option string)
    (mk : EdgeHandler.Marker) (ch : EdgeHandler.ConstraintHandler)
  : EdgeHandler.t :=
  {| EdgeHandler.state := sample_edge_state;
     EdgeHandler.handles :=
       Some [handle_at (Point.mk (ofZ 80) (ofZ 15)); handle_at waypoint_1;
             handle_at waypoint_2; handle_at (Point.mk (ofZ 200) (ofZ 15))];
     EdgeHandler.marker := Some mk;
     EdgeHandler.constraintHandler := ch;
     EdgeHandler.error := err;
     EdgeHandler.cloneable := true;
     EdgeHandler.straightRemoveEnabled := false;
     EdgeHandler.outlineConnect := false;
     EdgeHandler.customHandles := None;
     EdgeHandler.h_points := None;
     EdgeHandler.h_absolutePoints := abs;
     EdgeHandler.snapPoint := None;
     EdgeHandler.startX := ofZ 10;
     EdgeHandler.startY := ofZ 10;
     EdgeHandler.index := Some i;
     EdgeHandler.active := true;
     EdgeHandler.isSourceHandle := bool_decide (i = 0%Z);
     EdgeHandler.isTargetHandle := bool_decide (i = 3%Z);
     EdgeHandler.isLabelHandle := false;
     EdgeHandler.labelPos := None;
     EdgeHandler.pstate_origin := None |}.

(** The mouse released at client position (x, y), over nothing. *)
Definition release_at (x y : number) : EdgeHandler.MouseEvent :=
  {| EdgeHandler.clientX := x; EdgeHandler.clientY := y;
     EdgeHandler.graphX := x; EdgeHandler.graphY := y;
     EdgeHandler.altDown := false;
     EdgeHandler.connectionIgnored := false;
     EdgeHandler.cloneEvent := false;
     EdgeHandler.fromHighlightShape := false;
     EdgeHandler.e_state := None;
     EdgeHandler.e_cell := None |}.

(** The marker's view of the sample graph: the edge 3 lies over the node 1
    at the point (40, 15); nodes are connectable, the edge is not; cell 4 is
    a label child of the edge; cell 5 is a child of the node 1 that is not
    connectable. *)
Definition sample_marker_env : EdgeHandler.MarkerEnv :=
  {| EdgeHandler.getCellAt := fun x y =>
       if bool_decide (x = ofZ 40) then Some 1%nat else None;
     EdgeHandler.isCellConnectable := fun c =>
       match c with
       | Some 1%nat | Some 2%nat | Some 4%nat => true
       | _ => false
       end;
     EdgeHandler.parentOf := fun c =>
       match c with
       | 4%nat => Some 3%nat
       | 5%nat => Some 1%nat
       | O => None
       | _ => Some 0%nat
       end;
     EdgeHandler.isNode := fun c =>
       match c with
       | Some 1%nat | Some 2%nat | Some 4%nat => true
       | _ => false
       end;
     EdgeHandler.isEdge := fun c => bool_decide (c = 3%nat);
     EdgeHandler.isSwimlane := fun _ => false;
     EdgeHandler.hitsSwimlaneContent := fun _ _ _ => false;
     EdgeHandler.isAncestor := fun a c =>
       match c with
       | Some c => bool_decide (c = a) || (bool_decide (a = 3%nat) && bool_decide (c = 4%nat))
       | None => false
       end |}.

(** The mouse over the cell [c]. *)
Definition over_cell (c : option EdgeHandler.Cell) : EdgeHandler.MouseEvent :=
  {| EdgeHandler.clientX := ofZ 40; EdgeHandler.clientY := ofZ 15;
     EdgeHandler.graphX := ofZ 40; EdgeHandler.graphY := ofZ 15;
     EdgeHandler.altDown := false;
     EdgeHandler.connectionIgnored := false;
     EdgeHandler.cloneEvent := false;
     EdgeHandler.fromHighlightShape := false;
     EdgeHandler.e_state := None;
     EdgeHandler.e_cell := c |}.

(** The constraint handler holding the fixed constraint (0.5, 1.0) on A. *)
Definition bottom_center : EdgeHandler.Constraint :=
  {| EdgeHandler.point := Some (Point.mk half 1) |}.

Definition fixed_on_A : EdgeHandler.ConstraintHandler :=
  {| EdgeHandler.currentConstraint := Some bottom_center;
     EdgeHandler.currentState := Some state_A;
     EdgeHandler.currentPoint := Some (Point.mk (ofZ 40) (ofZ 30));
     EdgeHandler.focused := None |}.

(** A view after the specification with a straight router and a perimeter
    function that answers with the centre of the terminal. *)
Definition sample_view : EdgeHandler.ViewApi :=
  EdgeHandler.spec_view
    (fun _ _ => None)
    (fun _ pts _ _ => pts)
    (fun _ ts _ => RouterUtil.center (EdgeHandler.t_bounds ts)).

(** The target end dragged into the open and dropped at (100.5, 50). *)
Definition dropped_abs : array Point.t :=
  [Some (Point.mk (ofZ 80) (ofZ 15)); Some waypoint_1; Some waypoint_2;
   Some (Point.mk (Q2Qc (201 # 2)) (ofZ 50))].

(** The marker over a cell the validator has refused. *)
Definition refused_marker : EdgeHandler.Marker :=
  {| EdgeHandler.validState := None; EdgeHandler.markedState := Some state_B;
     EdgeHandler.highlight := None |}.

(** ** More sample inputs *)

(** A node state with the bounds of A, at scale 1. *)
Definition node_state_A : Overlay.State :=
  {| Overlay.isEdge := false;
     Overlay.scale := 1;
     Overlay.absolutePoints := [];
     Overlay.bounds := box_A |}.


(** The handler as [refresh] leaves it for the sample edge: no drag in
    progress, the waypoint array emptied. *)
Definition refreshed : EdgeHandler.t :=
  {| EdgeHandler.state := sample_edge_state;
     EdgeHandler.handles :=
       Some [handle_at (Point.mk (ofZ 80) (ofZ 15)); handle_at waypoint_1;
             handle_at waypoint_2; handle_at (Point.mk (ofZ 200) (ofZ 15))];
     EdgeHandler.marker := Some idle_marker;
     EdgeHandler.constraintHandler := idle_constraintHandler;
     EdgeHandler.error := None;
     EdgeHandler.cloneable := true;
     EdgeHandler.straightRemoveEnabled := false;
     EdgeHandler.outlineConnect := false;
     EdgeHandler.customHandles := None;
     EdgeHandler.h_points := Some [];
     EdgeHandler.h_absolutePoints := sample_abs;
     EdgeHandler.snapPoint := None;
     EdgeHandler.startX := 0;
     EdgeHandler.startY := 0;
     EdgeHandler.index := None;
     EdgeHandler.active := false;
     EdgeHandler.isSourceHandle := false;
     EdgeHandler.isTargetHandle := false;
     EdgeHandler.isLabelHandle := false;
     EdgeHandler.labelPos := None;
     EdgeHandler.pstate_origin := None |}.

(** Rectangles meet when they overlap in both directions; no edge is laid
    out by the entity-relation router. *)
Definition sample_handles_env : Handles.Env :=
  {| Handles.isIntersectWith := fun a b =>
       bool_decide (Rectangle.x a <= Rectangle.x b + Rectangle.width b)
       && bool_decide (Rectangle.x b <= Rectangle.x a + Rectangle.width a)
       && bool_decide (Rectangle.y a <= Rectangle.y b + Rectangle.height b)
       && bool_decide (Rectangle.y b <= Rectangle.y a + Rectangle.height a);
     Handles.isEntityRelation := fun _ _ _ _ => false |}.

(** The four handles of the sample edge, somewhere on the pane before they
    are placed, and a label handle between the waypoints. *)
Definition sample_shapes : Handles.Shapes :=
  {| Handles.handles :=
       [Some (Rectangle.mk 0 0 (ofZ 6) (ofZ 6)); Some (Rectangle.mk 0 0 (ofZ 6) (ofZ 6));
        Some (Rectangle.mk 0 0 (ofZ 6) (ofZ 6)); Some (Rectangle.mk 0 0 (ofZ 6) (ofZ 6))];
     Handles.label :=
       Some {| Handles.l_bounds := Rectangle.mk (ofZ 120) (ofZ 45) (ofZ 6) (ofZ 6);
               Handles.l_visible := true |} |}.

(** A graph on which the source end of an edge is locked (a connected
    source cannot be disconnected) and the target end is free. *)
Definition sample_dragging_env : Dragging.Env :=
  {| Dragging.isLabelHandle := fun i => (i =? -1)%Z;
     Dragging.isTerminalPointMovable := fun _ _ => true;
     Dragging.isCellDisconnectable := fun _ _ isSource => negb isSource;
     Dragging.isNode := fun c =>
       match c with
       | Some 1%nat | Some 2%nat => true
       | _ => false
       end;
     Dragging.findNearestSegment := fun _ x _ =>
       if bool_decide (x < ofZ 100) then 0%Z
       else if bool_decide (x < ofZ 150) then 1%Z else 2%Z;
     Dragging.HANDLE_FILLCOLOR := "#00FF00";
     Dragging.LOCKED_HANDLE_FILLCOLOR := "#FF0000";
     Dragging.CONNECT_HANDLE_FILLCOLOR := "#0000FF" |}.

(** The absolute points of the sample edge with one more waypoint, between
    the two it has. *)
Definition longer_abs : array Point.t :=
  [Some (Point.mk (ofZ 80) (ofZ 15)); Some waypoint_1;
   Some (Point.mk (ofZ 120) (ofZ 60)); Some waypoint_2;
   Some (Point.mk (ofZ 200) (ofZ 15))].

(** A label geometry that is not relative, and a view whose answers for
    relative labels are not used with it. *)
Definition sample_label_geometry : Label.Geometry :=
  {| Label.relative := false; Label.bounds_x := ofZ 5; Label.bounds_y := ofZ 5;
     Label.offset := None |}.

Definition sample_label_view : Label.View :=
  {| Label.getRelativePoint := fun _ x y => Point.mk x y;
     Label.getPointOnEdge := fun _ _ => Point.mk 0 0 |}.

(** Picking with the mouse: a hit box of 2 x 2 around the pointer, shapes
    hit when their bounds meet it. *)
Definition sample_picking_env : Picking.Env :=
  {| Picking.isIntersectWith := Handles.isIntersectWith sample_handles_env;
     Picking.IS_IE := false;
     Picking.isMouseEvent := true;
     Picking.tolerance := ofZ 4;
     Picking.checkHandleBounds := true;
     Picking.textIsEventSource := false;
     Picking.getCustomHandle := fun i => (-100 - i)%Z;
     Picking.getLabelHandle := (-1)%Z;
     Picking.getVisualHandle := fun i => (-100000 - i)%Z |}.

(** Two visible handles, 6 x 6, centred on (100, 50) and on (104, 50). *)
Definition near_shapes : list (option Picking.Shape) :=
  [Some {| Picking.bounds := Rectangle.mk (ofZ 97) (ofZ 47) (ofZ 6) (ofZ 6);
           Picking.visible := true; Picking.isEventSource := false |};
   Some {| Picking.bounds := Rectangle.mk (ofZ 101) (ofZ 47) (ofZ 6) (ofZ 6);
           Picking.visible := true; Picking.isEventSource := false |}].
(** * Part II: properties *)

(** ** Numbers and arrays *)

Lemma two_neq_0 : two <> 0.
Proof. discriminate. Qed.

Lemma midpoint_alt (a b : number) : a + (b - a) / two = (a + b) / two.
Proof. unfold two. field. discriminate. Qed.

Lemma centre_of_padded (a w l : number) :
  a + - l + (w + (l + l)) / two = a + w / two.
Proof. unfold two. field. discriminate. Qed.

Lemma Rectangle_clone_id (r : Rectangle.t) : Rectangle.clone r = r.
Proof. destruct r; reflexivity. Qed.

Lemma Point_clone_id (p : Point.t) : Point.clone p = p.
Proof. destruct p; reflexivity. Qed.

Lemma at_index_resolved {A} (l : list A) (k : nat) :
  at_index (Some <$> l) (Z.of_nat k) = l !! k.
Proof.
  unfold at_index. rewrite bool_decide_eq_true_2 by lia.
  rewrite Nat2Z.id, list_lookup_fmap. destruct (l !! k); reflexivity.
Qed.

Lemma odd_mod2 (n : nat) : (n mod 2 =? 1)%nat = Nat.odd n.
Proof.
  destruct (Nat.odd n) eqn:Hodd.
  - apply Nat.odd_spec in Hodd. destruct Hodd as [k ->].
    apply Nat.eqb_eq. replace (2 * k + 1)%nat with (1 + k * 2)%nat by lia.
    rewrite Nat.Div0.mod_add. reflexivity.
  - apply Nat.eqb_neq. intros Hm.
    assert (Nat.Odd n) as Ho.
    { exists (n / 2)%nat. pose proof (Nat.div_mod_eq n 2). lia. }
    apply Nat.odd_spec in Ho. congruence.
Qed.

(** ** Overlay.getBounds *)

Lemma edge_anchor_of_code (o : Overlay.t) (st : Overlay.State) (pts : list Point.t) :
  Overlay.isEdge st = true ->
  Overlay.absolutePoints st = Some <$> pts ->
  pts <> [] ->
  exists pt, Overlay.edge_anchor pts = Some pt /\ Overlay.anchor o st = Some pt.
Proof.
  intros He Hp Hne. unfold Overlay.anchor, Overlay.edge_anchor.
  rewrite He, Hp, length_fmap, odd_mod2.
  assert (0 < length pts)%nat as Hlen by (destruct pts; [congruence | simpl; lia]).
  destruct (Nat.odd (length pts)) eqn:Hodd.
  - rewrite at_index_resolved.
    destruct (lookup_lt_is_Some_2 pts (length pts / 2)%nat) as [pt Hpt].
    { apply Nat.div_lt; lia. }
    exists pt. split; assumption.
  - assert (Nat.Even (length pts)) as [k Hk].
    { apply Nat.even_spec. rewrite <- Nat.negb_odd, Hodd. reflexivity. }
    assert (length pts / 2 = k)%nat as Hdiv.
    { rewrite Hk, Nat.mul_comm. apply Nat.div_mul. lia. }
    rewrite Hdiv.
    replace (Z.of_nat k - 1)%Z with (Z.of_nat (k - 1)) by lia.
    rewrite !at_index_resolved.
    destruct (lookup_lt_is_Some_2 pts (k - 1)%nat) as [p0 Hp0]; [lia|].
    destruct (lookup_lt_is_Some_2 pts k) as [p1 Hp1]; [lia|].
    rewrite Hp0, Hp1. simpl. eexists. split; [reflexivity|].
    unfold Overlay.midpoint. rewrite !midpoint_alt. reflexivity.
Qed.

Lemma node_anchor_of_code (o : Overlay.t) (st : Overlay.State) :
  Overlay.isEdge st = false ->
  Overlay.anchor o st = Some (Overlay.node_anchor o (Overlay.bounds st)).
Proof.
  intros He. unfold Overlay.anchor, Overlay.node_anchor. rewrite He.
  destruct (Overlay.align o) as [[]|], (Overlay.verticalAlign o) as [[]|];
    reflexivity.
Qed.

(** C9.  [Overlay.getBounds] returns the rectangle of width
    [image.width * scale] and height [image.height * scale] whose corner is
    the anchor minus [(imageSize * defaultOverlap - offset) * scale], rounded.
    For an edge state (whose absolute points are resolved and not empty) the
    anchor is the middle point for an odd count and the midpoint of the two
    central points for an even count; for a node state it is the corner or
    edge midpoint of the bounds chosen by [align] and [verticalAlign]. *)
Theorem getBounds_anchor_and_size
    (o : Overlay.t) (st : Overlay.State) (pts : list Point.t) :
  (Overlay.isEdge st = true ->
   Overlay.absolutePoints st = Some <$> pts /\ pts <> []) ->
  exists pt,
    (if Overlay.isEdge st then Overlay.edge_anchor pts = Some pt
     else pt = Overlay.node_anchor o (Overlay.bounds st)) /\
    Overlay.getBounds o st =
      Some {| Rectangle.x :=
                Math_round (Point.x pt
                            - (Overlay.width (Overlay.image o) * Overlay.defaultOverlap o
                               - Point.x (Overlay.offset o)) * Overlay.scale st);
              Rectangle.y :=
                Math_round (Point.y pt
                            - (Overlay.height (Overlay.image o) * Overlay.defaultOverlap o
                               - Point.y (Overlay.offset o)) * Overlay.scale st);
              Rectangle.width := Overlay.width (Overlay.image o) * Overlay.scale st;
              Rectangle.height := Overlay.height (Overlay.image o) * Overlay.scale st |}.
Proof.
  intros Hedge. unfold Overlay.getBounds.
  destruct (Overlay.isEdge st) eqn:He.
  - destruct (Hedge eq_refl) as [Hp Hne].
    destruct (edge_anchor_of_code o st pts He Hp Hne) as (pt & Hspec & Hcode).
    exists pt. split; [assumption|]. rewrite Hcode. reflexivity.
  - exists (Overlay.node_anchor o (Overlay.bounds st)). split; [reflexivity|].
    rewrite (node_anchor_of_code o st He). reflexivity.
Qed.

Lemma getBounds_anchor_and_size_witness :
  exists pt,
    Overlay.edge_anchor [Point.mk (ofZ 80) (ofZ 15); Point.mk (ofZ 200) (ofZ 15)]
      = Some pt /\
    exists r, Overlay.getBounds overlay16 edge_state_2 = Some r.
Proof.
  destruct (getBounds_anchor_and_size overlay16 edge_state_2
              [Point.mk (ofZ 80) (ofZ 15); Point.mk (ofZ 200) (ofZ 15)])
    as (pt & Ha & Hb).
  - intros _. split; [reflexivity | discriminate].
  - exists pt. split; [exact Ha | eexists; exact Hb].
Defined.

(** The overlay of [edge_state_2] sits on the midpoint (140, 15). *)
Example getBounds_two_points :
  Overlay.getBounds overlay16 edge_state_2
  = Some (Rectangle.mk (ofZ 132) (ofZ 7) (ofZ 16) (ofZ 16)).
Proof.
  unfold Overlay.getBounds. simpl.
  repeat f_equal; apply Qc_is_canon; reflexivity.
Qed.

(** An edge state without absolute points has no central point: the call
    fails reading [x] of [undefined]. *)
Example getBounds_without_points (o : Overlay.t) (st : Overlay.State) :
  Overlay.isEdge st = true -> Overlay.absolutePoints st = [] ->
  Overlay.getBounds o st = None.
Proof.
  intros He Hp. unfold Overlay.getBounds, Overlay.anchor. rewrite He, Hp.
  reflexivity.
Qed.

(** ** The hook decorator *)

Section hook_facts.
Context {Args Val Fields : Type}.
Implicit Types (options : gmap string (Decorator.Hook Args Val Fields)).
Implicit Types (raw : Decorator.Method Args Val Fields).
Implicit Types (this : Decorator.Graph Val Fields).

Lemma hook_absent options hookName ign methodName raw args this :
  options !! Decorator.hook_name hookName methodName = None ->
  Decorator.hook options hookName ign methodName raw args this
  = Decorator.call_raw raw args this.
Proof.
  intros H. unfold Decorator.hook, Decorator.Hook, Decorator.value in *. cbv zeta.
  rewrite H. reflexivity.
Qed.

Lemma hook_present options hookName ign methodName raw args this hk ret this2 :
  options !! Decorator.hook_name hookName methodName = Some hk ->
  hk args (Decorator.set_native this (Some (raw args))) = (ret, this2) ->
  Decorator.hook options hookName ign methodName raw args this
  = if bool_decide (ret <> None) || ign
    then (ret, Decorator.set_native this2 None)
    else Decorator.call_raw raw args (Decorator.set_native this2 None).
Proof.
  intros H Hk. unfold Decorator.hook, Decorator.Hook, Decorator.value in *. cbv zeta.
  rewrite H, Hk. reflexivity.
Qed.

(** C10, as the code has it.  Without a hook under the configured name the
    wrapped method is the original method.  With a hook, the hook runs first
    on the graph with [getNativeValue] installed, and the property is deleted
    afterwards: a non-null result (or any result when [ignoreNullResult] is
    set) is returned and the wrapper does not call the original; a null
    result makes the wrapper call the original on the graph as the hook left
    it.  That call is the original method on the graph as it was whenever
    the hook left the fields as they were and the graph carried no
    [getNativeValue] before (the wrapper deletes the property). *)
Theorem hook_wrapper_behaviour options hookName ign methodName raw args this :
  (options !! Decorator.hook_name hookName methodName = None ->
   Decorator.hook options hookName ign methodName raw args this
   = Decorator.call_raw raw args this) /\
  (forall hk ret this2,
     options !! Decorator.hook_name hookName methodName = Some hk ->
     hk args (Decorator.set_native this (Some (raw args))) = (ret, this2) ->
     (ret <> None \/ ign = true ->
      Decorator.hook options hookName ign methodName raw args this
      = (ret, Decorator.set_native this2 None)) /\
     (ret = None -> ign = false ->
      Decorator.hook options hookName ign methodName raw args this
      = Decorator.call_raw raw args (Decorator.set_native this2 None)) /\
     (ret = None -> ign = false ->
      Decorator.fields this2 = Decorator.fields this ->
      Decorator.getNativeValue this = None ->
      Decorator.hook options hookName ign methodName raw args this
      = Decorator.call_raw raw args this)).
Proof.
  split; [apply hook_absent|].
  intros hk ret this2 Hopt Hk.
  rewrite (hook_present _ _ _ _ _ _ _ _ _ _ Hopt Hk).
  split; [|split].
  - intros [Hret | ->].
    + rewrite bool_decide_eq_true_2 by assumption. reflexivity.
    + rewrite orb_true_r. reflexivity.
  - intros -> ->. reflexivity.
  - intros -> -> Hf Hn. simpl. f_equal.
    destruct this as [n f]. simpl in *. subst. reflexivity.
Qed.

End hook_facts.

Lemma hook_wrapper_behaviour_witness :
  Decorator.hook label_options None false "getLabel" counter_raw tt graph0
  = (Some 7%nat, graph0)
  /\ Decorator.hook counting_options (Some "other"%string) false "getLabel"
       counter_raw tt graph0
     = Decorator.call_raw counter_raw tt graph0.
Proof.
  pose proof (hook_wrapper_behaviour label_options None false "getLabel"
                counter_raw tt graph0) as [_ Hl].
  pose proof (hook_wrapper_behaviour counting_options (Some "other"%string) false
                "getLabel" counter_raw tt graph0) as [Hc _].
  split.
  - destruct (Hl label_hook (Some 7%nat)
                (Decorator.set_native graph0 (Some (counter_raw tt))))
      as (Hres & _ & _); [reflexivity | reflexivity |].
    rewrite Hres; [reflexivity | left; discriminate].
  - apply Hc. reflexivity.
Defined.

(** C10, as the claim words it, fails: a hook that returns null after
    changing the graph makes the wrapped method answer differently from the
    original method. *)
Lemma hook_null_not_equivalent :
  counting_options !! Decorator.hook_name None "getLabel" = Some counting_hook
  /\ fst (counting_hook tt (Decorator.set_native graph0 (Some (counter_raw tt))))
     = None
  /\ fst (Decorator.hook counting_options None false "getLabel" counter_raw tt graph0)
     = Some 1%nat
  /\ fst (Decorator.call_raw counter_raw tt graph0) = Some 0%nat
  /\ Decorator.hook counting_options None false "getLabel" counter_raw tt graph0
     <> Decorator.call_raw counter_raw tt graph0.
Proof.
  repeat split; try reflexivity.
  intros H. apply (f_equal fst) in H. vm_compute in H. discriminate H.
Qed.

(** ** Router utilities: endpoints *)

Lemma fresh_not_held (σ : Store.t) (l : Store.loc) :
  is_Some (σ !! l) -> l <> fresh (dom σ).
Proof.
  intros Hl ->. apply elem_of_dom in Hl. exact (is_fresh (dom σ) Hl).
Qed.

Lemma preserved_alloc (σ : Store.t) (r : Rectangle.t) :
  Store.preserved σ (<[fresh (dom σ) := r]> σ).
Proof.
  intros l Hl. apply lookup_insert_ne. apply not_eq_sym, fresh_not_held, Hl.
Qed.

Lemma preserved_trans (σ1 σ2 σ3 : Store.t) :
  Store.preserved σ1 σ2 -> Store.preserved σ2 σ3 -> Store.preserved σ1 σ3.
Proof.
  intros H12 H23 l Hl. rewrite H23, H12; [reflexivity | assumption |].
  rewrite H12; assumption.
Qed.

(** The padded copy made by [getSourceBBox] and [getTargetBBox]. *)
Lemma padded_copy_run (l : Store.loc) (options : RouterUtil.PaddingOptions)
    (σ : Store.t) (r : Rectangle.t) :
  σ !! l = Some r ->
  (c ←ₛ RouterUtil.clone l ;;
   RouterUtil.moveAndExpand c (RouterUtil.getPaddingBox options)) σ
  = Some (fresh (dom σ),
          <[fresh (dom σ) :=
              RouterUtil.moved_and_expanded r (RouterUtil.getPaddingBox options)]> σ).
Proof.
  intros Hl.
  unfold RouterUtil.clone, RouterUtil.moveAndExpand, Store.bind, Store.read,
    Store.alloc, Store.write, Store.ret.
  rewrite Hl. rewrite lookup_insert_eq. rewrite insert_insert_eq.
  rewrite Rectangle_clone_id. reflexivity.
Qed.

Lemma getSourceEndpoint_run (view : RouterUtil.EdgeView)
    (options : RouterUtil.PaddingOptions) (σ : Store.t) (r : Rectangle.t) :
  RouterUtil.sourceEndpoint view = None ->
  σ !! RouterUtil.sourceBBox view = Some r ->
  RouterUtil.getSourceEndpoint view options σ
  = Some (RouterUtil.center
            (RouterUtil.moved_and_expanded r (RouterUtil.getPaddingBox options)),
          <[fresh (dom σ) :=
              RouterUtil.moved_and_expanded r (RouterUtil.getPaddingBox options)]> σ).
Proof.
  intros He Hl. unfold RouterUtil.getSourceEndpoint, RouterUtil.getSourceBBox.
  rewrite He. unfold Store.bind at 1. rewrite (padded_copy_run _ _ _ _ Hl).
  unfold RouterUtil.getCenter, Store.bind, Store.read, Store.ret.
  rewrite lookup_insert_eq. reflexivity.
Qed.

Lemma getTargetEndpoint_run (view : RouterUtil.EdgeView)
    (options : RouterUtil.PaddingOptions) (σ : Store.t) (r : Rectangle.t) :
  RouterUtil.targetEndpoint view = None ->
  σ !! RouterUtil.targetBBox view = Some r ->
  RouterUtil.getTargetEndpoint view options σ
  = Some (RouterUtil.center
            (RouterUtil.moved_and_expanded r (RouterUtil.getPaddingBox options)),
          <[fresh (dom σ) :=
              RouterUtil.moved_and_expanded r (RouterUtil.getPaddingBox options)]> σ).
Proof.
  intros He Hl. unfold RouterUtil.getTargetEndpoint, RouterUtil.getTargetBBox.
  rewrite He. unfold Store.bind at 1. rewrite (padded_copy_run _ _ _ _ Hl).
  unfold RouterUtil.getCenter, Store.bind, Store.read, Store.ret.
  rewrite lookup_insert_eq. reflexivity.
Qed.

Lemma center_moved_expanded (r : Rectangle.t) (s : RouterUtil.NormalizedSides) :
  RouterUtil.center
    (RouterUtil.moved_and_expanded r
       {| Rectangle.x := - RouterUtil.n_left s;
          Rectangle.y := - RouterUtil.n_top s;
          Rectangle.width := RouterUtil.n_left s + RouterUtil.n_right s;
          Rectangle.height := RouterUtil.n_top s + RouterUtil.n_bottom s |})
  = RouterUtil.center (RouterUtil.expanded r s).
Proof.
  unfold RouterUtil.center, RouterUtil.moved_and_expanded, RouterUtil.expanded.
  simpl. f_equal; unfold two; field; discriminate.
Qed.

Lemma center_uniform (r : Rectangle.t) (n : number) :
  RouterUtil.center
    (RouterUtil.expanded r (RouterUtil.normalizeSides (RouterUtil.AllSides n)))
  = RouterUtil.center r.
Proof.
  unfold RouterUtil.center, RouterUtil.expanded. simpl.
  f_equal; unfold two; field; discriminate.
Qed.

(** The falsy zero of [options.padding || 20] cannot be seen in the centre:
    padding by 20 and padding by 0 on every side have the same centre. *)
Lemma padded_center_code_spec (r : Rectangle.t) (options : RouterUtil.PaddingOptions) :
  RouterUtil.center
    (RouterUtil.moved_and_expanded r (RouterUtil.getPaddingBox options))
  = RouterUtil.center (RouterUtil.expanded r (RouterUtil.padding_sides options)).
Proof.
  unfold RouterUtil.getPaddingBox. rewrite center_moved_expanded.
  unfold RouterUtil.padding_or_20, RouterUtil.padding_sides.
  destruct (RouterUtil.padding options) as [[n|b]|]; cbn [default from_option id];
    try reflexivity.
  case_bool_decide; [|reflexivity].
  rewrite !center_uniform. reflexivity.
Qed.

(** C5.  [getSourceEndpoint] (resp. [getTargetEndpoint]) returns the view's
    [sourceEndpoint] (resp. [targetEndpoint]) when it is set; otherwise it
    returns the centre of the terminal's bounding box grown by the
    normalized padding of the options, 20 on every side when the options
    name none, which is then the centre of the bounding box itself. *)
Theorem endpoint_resolved_or_padded_center
    (view : RouterUtil.EdgeView) (options : RouterUtil.PaddingOptions)
    (σ : Store.t) (rs rt : Rectangle.t) :
  (RouterUtil.sourceEndpoint view = None ->
   σ !! RouterUtil.sourceBBox view = Some rs) ->
  (RouterUtil.targetEndpoint view = None ->
   σ !! RouterUtil.targetBBox view = Some rt) ->
  fst <$> RouterUtil.getSourceEndpoint view options σ
  = Some (default
            (RouterUtil.center (RouterUtil.expanded rs (RouterUtil.padding_sides options)))
            (RouterUtil.sourceEndpoint view))
  /\ fst <$> RouterUtil.getTargetEndpoint view options σ
     = Some (default
               (RouterUtil.center (RouterUtil.expanded rt (RouterUtil.padding_sides options)))
               (RouterUtil.targetEndpoint view))
  /\ (RouterUtil.padding options = None ->
      RouterUtil.center (RouterUtil.expanded rs (RouterUtil.padding_sides options))
      = RouterUtil.center rs
      /\ RouterUtil.center (RouterUtil.expanded rt (RouterUtil.padding_sides options))
         = RouterUtil.center rt).
Proof.
  intros Hs Ht. split; [|split].
  - destruct (RouterUtil.sourceEndpoint view) as [p|] eqn:He.
    + unfold RouterUtil.getSourceEndpoint. rewrite He. reflexivity.
    + rewrite (getSourceEndpoint_run view options σ rs He (Hs eq_refl)).
      simpl. rewrite padded_center_code_spec. reflexivity.
  - destruct (RouterUtil.targetEndpoint view) as [p|] eqn:He.
    + unfold RouterUtil.getTargetEndpoint. rewrite He. reflexivity.
    + rewrite (getTargetEndpoint_run view options σ rt He (Ht eq_refl)).
      simpl. rewrite padded_center_code_spec. reflexivity.
  - intros Hp. unfold RouterUtil.padding_sides. rewrite Hp. simpl.
    split; apply center_uniform.
Qed.

Lemma endpoint_resolved_or_padded_center_witness :
  fst <$> RouterUtil.getSourceEndpoint view_AB RouterUtil.no_options store_AB
  = Some (RouterUtil.center box_A)
  /\ fst <$> RouterUtil.getTargetEndpoint view_AB RouterUtil.no_options store_AB
     = Some (RouterUtil.center box_B).
Proof.
  destruct (endpoint_resolved_or_padded_center view_AB RouterUtil.no_options
              store_AB box_A box_B) as (Hs & Ht & Hc).
  - intros _. reflexivity.
  - intros _. reflexivity.
  - destruct (Hc eq_refl) as [Ha Hb].
    rewrite Hs, Ht. simpl. rewrite Ha, Hb. split; reflexivity.
Defined.

(** The centre of the 80 x 30 box at the origin. *)
Example center_box_A : RouterUtil.center box_A = Point.mk (ofZ 40) (ofZ 15).
Proof. unfold RouterUtil.center. simpl. f_equal; apply Qc_is_canon; reflexivity. Qed.

(** A padding that differs between the sides moves the point returned away
    from the centre of the bounding box. *)
Example padded_center_left_only :
  fst <$> RouterUtil.getSourceEndpoint view_AB
            {| RouterUtil.padding :=
                 Some (RouterUtil.Sides
                         {| RouterUtil.vertical := None; RouterUtil.horizontal := None;
                            RouterUtil.top := None; RouterUtil.right := None;
                            RouterUtil.bottom := None;
                            RouterUtil.left := Some (ofZ 10) |}) |}
            store_AB
  = Some (Point.mk (ofZ 35) (ofZ 15)).
Proof.
  rewrite (getSourceEndpoint_run _ _ _ box_A) by reflexivity.
  simpl. unfold RouterUtil.center. simpl.
  do 2 f_equal; apply Qc_is_canon; reflexivity.
Qed.

(** ** Determinism of the endpoints and of the callout perimeter *)

Lemma same_twice_of_reader {A} (m : Store.M A) (l : Store.loc) (r : Rectangle.t)
    (a : A) :
  (forall σ, σ !! l = Some r ->
             exists σ', m σ = Some (a, σ') /\ Store.preserved σ σ') ->
  forall σ, σ !! l = Some r -> Store.same_twice m σ.
Proof.
  intros Hm σ Hl.
  destruct (Hm σ Hl) as (σ1 & H1 & Hp1).
  assert (σ1 !! l = Some r) as Hl1.
  { rewrite Hp1; [assumption | rewrite Hl; eauto]. }
  destruct (Hm σ1 Hl1) as (σ2 & H2 & _).
  exists a, σ1, σ2. auto.
Qed.

Lemma decided_by_of_reader {A} (m : Store.M A) (l : Store.loc) (r : Rectangle.t)
    (a : A) :
  (forall σ, σ !! l = Some r ->
             exists σ', m σ = Some (a, σ') /\ Store.preserved σ σ') ->
  Store.decided_by m l r.
Proof.
  intros Hm. exists a. intros σ Hl. destruct (Hm σ Hl) as (σ' & H & _). eauto.
Qed.

Lemma getSourceEndpoint_reader (view : RouterUtil.EdgeView)
    (options : RouterUtil.PaddingOptions) (r : Rectangle.t) :
  exists p, forall σ, σ !! RouterUtil.sourceBBox view = Some r ->
    exists σ', RouterUtil.getSourceEndpoint view options σ = Some (p, σ')
               /\ Store.preserved σ σ'.
Proof.
  destruct (RouterUtil.sourceEndpoint view) as [p|] eqn:He.
  - exists p. intros σ _. exists σ. unfold RouterUtil.getSourceEndpoint.
    rewrite He. split; [reflexivity | intros l _; reflexivity].
  - eexists. intros σ Hl. eexists. split.
    + apply (getSourceEndpoint_run view options σ r He Hl).
    + apply preserved_alloc.
Qed.

Lemma getTargetEndpoint_reader (view : RouterUtil.EdgeView)
    (options : RouterUtil.PaddingOptions) (r : Rectangle.t) :
  exists p, forall σ, σ !! RouterUtil.targetBBox view = Some r ->
    exists σ', RouterUtil.getTargetEndpoint view options σ = Some (p, σ')
               /\ Store.preserved σ σ'.
Proof.
  destruct (RouterUtil.targetEndpoint view) as [p|] eqn:He.
  - exists p. intros σ _. exists σ. unfold RouterUtil.getTargetEndpoint.
    rewrite He. split; [reflexivity | intros l _; reflexivity].
  - eexists. intros σ Hl. eexists. split.
    + apply (getTargetEndpoint_run view options σ r He Hl).
    + apply preserved_alloc.
Qed.

Lemma kept_refl (η : Callout.Heap) : Callout.kept η η.
Proof. split; [intros l _; reflexivity | reflexivity]. Qed.

Lemma kept_trans (η1 η2 η3 : Callout.Heap) :
  Callout.kept η1 η2 -> Callout.kept η2 η3 -> Callout.kept η1 η3.
Proof.
  intros [P12 F12] [P23 F23]. split.
  - eapply preserved_trans; eassumption.
  - congruence.
Qed.

Lemma kept_lookup (η η' : Callout.Heap) (l : Store.loc) (r : Rectangle.t) :
  Callout.kept η η' -> Callout.rects η !! l = Some r ->
  Callout.rects η' !! l = Some r.
Proof. intros [P _] Hl. rewrite P; [exact Hl | rewrite Hl; eauto]. Qed.

Section callout_facts.

Context {Style : Type}.
Context (getFactor : Style -> option number -> number -> Callout.M number).
Context (getDirectedBounds :
           Store.loc -> Store.loc -> Style -> Callout.M Store.loc).
Context (rectanglePerimeter :
           Store.loc -> Callout.State Style -> Point.t -> bool -> Callout.M Point.t).
Context (factor_of : Style -> option number -> number -> number).
Context (directed : Rectangle.t -> Rectangle.t -> Style -> Rectangle.t).
Context (perimeter :
           Rectangle.t -> Callout.State Style -> Point.t -> bool -> Point.t).

Lemma calloutPerimeter_run (bounds : Store.loc) (state : Callout.State Style)
    (next : Point.t) (orthogonal : bool) (η : Callout.Heap) (b : Rectangle.t) :
  Callout.getFactor_reads getFactor factor_of ->
  Callout.getDirectedBounds_reads getDirectedBounds directed ->
  Callout.rectanglePerimeter_reads rectanglePerimeter perimeter ->
  Callout.rects η !! bounds = Some b ->
  exists η',
    Callout.calloutPerimeter getFactor getDirectedBounds rectanglePerimeter
      bounds state next orthogonal η
    = Some (Callout.callout_point factor_of directed perimeter b
              (Callout.prototype_factor η) state next orthogonal, η')
    /\ Callout.kept η η'.
Proof.
  intros Hgf Hgdb Hrp Hl.
  unfold Callout.calloutPerimeter, Callout.bind, Callout.get_prototype_factor.
  unfold Callout.lift at 1. unfold Store.read. rewrite Hl.
  destruct (Hgf (Callout.style state) (Callout.prototype_factor η)
              (Rectangle.height b)
              {| Callout.rects := Callout.rects η;
                 Callout.prototype_factor := Callout.prototype_factor η |})
    as (η1 & H1 & K1).
  rewrite H1. unfold Callout.lift, Store.alloc.
  set (rect := Rectangle.mk 0 0 0 _).
  set (η2 := {| Callout.rects := <[fresh (dom (Callout.rects η1)) := rect]>
                                   (Callout.rects η1);
               Callout.prototype_factor := Callout.prototype_factor η1 |}).
  assert (Callout.kept η1 η2) as K2.
  { split; [apply preserved_alloc | reflexivity]. }
  assert (Callout.kept η η1) as K01.
  { destruct K1 as [P F]. split; [exact P | exact F]. }
  destruct (Hgdb bounds (fresh (dom (Callout.rects η1))) (Callout.style state)
              η2 b rect) as (l & η3 & H3 & Hl3 & K3).
  { eapply kept_lookup; [exact K2|]. eapply kept_lookup; [exact K01 | exact Hl]. }
  { apply lookup_insert_eq. }
  rewrite H3.
  destruct (Hrp l state next orthogonal η3 _ Hl3) as (η4 & H4 & K4).
  rewrite H4. exists η4. split; [reflexivity|].
  eapply kept_trans; [exact K01|]. eapply kept_trans; [exact K2|].
  eapply kept_trans; eassumption.
Qed.

(** C6, as the code has it.  The router endpoint utilities work on a copy
    of the view's box: a call changes no object it was given, two calls in a
    row return the same point, and the point is decided by the arguments and
    the box alone.  [calloutPerimeter] reads one thing more than its
    arguments, the global [CalloutShape.prototype.factor]: with helpers that
    only read, a call returns the point computed from the arguments, the
    fields of the bounds and the value of that global, changes no rectangle
    it found and not the global, and a second call in a row returns the same
    point. *)
Theorem endpoints_and_perimeter_deterministic
    (view : RouterUtil.EdgeView) (options : RouterUtil.PaddingOptions)
    (bounds : Store.loc) (state : Callout.State Style) (next : Point.t)
    (orthogonal : bool) (η : Callout.Heap) (rs rt b : Rectangle.t) :
  Callout.getFactor_reads getFactor factor_of ->
  Callout.getDirectedBounds_reads getDirectedBounds directed ->
  Callout.rectanglePerimeter_reads rectanglePerimeter perimeter ->
  Callout.rects η !! RouterUtil.sourceBBox view = Some rs ->
  Callout.rects η !! RouterUtil.targetBBox view = Some rt ->
  Callout.rects η !! bounds = Some b ->
  (Store.same_twice (RouterUtil.getSourceEndpoint view options) (Callout.rects η)
   /\ Store.decided_by (RouterUtil.getSourceEndpoint view options)
        (RouterUtil.sourceBBox view) rs)
  /\ (Store.same_twice (RouterUtil.getTargetEndpoint view options) (Callout.rects η)
      /\ Store.decided_by (RouterUtil.getTargetEndpoint view options)
           (RouterUtil.targetBBox view) rt)
  /\ (exists η1 η2,
        Callout.calloutPerimeter getFactor getDirectedBounds rectanglePerimeter
          bounds state next orthogonal η
        = Some (Callout.callout_point factor_of directed perimeter b
                  (Callout.prototype_factor η) state next orthogonal, η1)
        /\ Callout.kept η η1
        /\ Callout.calloutPerimeter getFactor getDirectedBounds rectanglePerimeter
             bounds state next orthogonal η1
           = Some (Callout.callout_point factor_of directed perimeter b
                     (Callout.prototype_factor η) state next orthogonal, η2)).
Proof.
  intros Hgf Hgdb Hrp Hs Ht Hb.
  destruct (getSourceEndpoint_reader view options rs) as [ps Hps].
  destruct (getTargetEndpoint_reader view options rt) as [pt Hpt].
  split; [|split]; [split | split |].
  - eapply same_twice_of_reader; eassumption.
  - eapply decided_by_of_reader; eassumption.
  - eapply same_twice_of_reader; eassumption.
  - eapply decided_by_of_reader; eassumption.
  - destruct (calloutPerimeter_run bounds state next orthogonal η b Hgf Hgdb Hrp Hb)
      as (η1 & H1 & K1).
    destruct (calloutPerimeter_run bounds state next orthogonal η1 b Hgf Hgdb Hrp
                (kept_lookup _ _ _ _ K1 Hb)) as (η2 & H2 & _).
    exists η1, η2. split; [exact H1|]. split; [exact K1|].
    rewrite H2. destruct K1 as [_ ->]. reflexivity.
Qed.

End callout_facts.

Lemma sample_getFactor_reads :
  Callout.getFactor_reads sample_getFactor sample_factor.
Proof. intros s d n η. exists η. split; [reflexivity | apply kept_refl]. Qed.

Lemma sample_getDirectedBounds_reads :
  Callout.getDirectedBounds_reads sample_getDirectedBounds sample_directed.
Proof.
  intros lb lr s η b r Hb Hr.
  unfold sample_getDirectedBounds, Callout.lift, Store.bind, Store.read, Store.alloc.
  rewrite Hb, Hr. eexists _, _. split; [reflexivity|]. cbn. split.
  - apply lookup_insert_eq.
  - split; [apply preserved_alloc | reflexivity].
Qed.

Lemma sample_rectanglePerimeter_reads :
  Callout.rectanglePerimeter_reads sample_rectanglePerimeter sample_perimeter.
Proof.
  intros l st nx o η d Hd.
  unfold sample_rectanglePerimeter, Callout.lift, Store.bind, Store.read, Store.ret.
  rewrite Hd. eexists. split; [reflexivity|]. destruct η. apply kept_refl.
Qed.

Lemma endpoints_and_perimeter_deterministic_witness :
  Store.same_twice (RouterUtil.getSourceEndpoint view_AB RouterUtil.no_options) store_AB
  /\ exists η1 η2,
       Callout.calloutPerimeter sample_getFactor sample_getDirectedBounds
         sample_rectanglePerimeter 1%positive callout_state
         (Point.mk (ofZ 300) (ofZ 300)) false heap_AB
       = Some (Point.mk (ofZ 300) 0, η1)
       /\ Callout.calloutPerimeter sample_getFactor sample_getDirectedBounds
            sample_rectanglePerimeter 1%positive callout_state
            (Point.mk (ofZ 300) (ofZ 300)) false η1
          = Some (Point.mk (ofZ 300) 0, η2).
Proof.
  destruct (endpoints_and_perimeter_deterministic sample_getFactor
              sample_getDirectedBounds sample_rectanglePerimeter
              sample_factor sample_directed sample_perimeter
              view_AB RouterUtil.no_options 1%positive callout_state
              (Point.mk (ofZ 300) (ofZ 300)) false heap_AB box_A box_B box_A
              sample_getFactor_reads sample_getDirectedBounds_reads
              sample_rectanglePerimeter_reads eq_refl eq_refl eq_refl)
    as ((Hs & _) & _ & (η1 & η2 & H1 & _ & H2)).
  split; [exact Hs|]. exists η1, η2.
  assert (Callout.callout_point sample_factor sample_directed sample_perimeter box_A
            (Callout.prototype_factor heap_AB) callout_state
            (Point.mk (ofZ 300) (ofZ 300)) false
          = Point.mk (ofZ 300) 0) as Hp.
  { unfold Callout.callout_point, sample_perimeter. cbn.
    f_equal; try (apply Qc_is_canon; reflexivity). }
  rewrite <- Hp. split; assumption.
Defined.

(** C6, as the claim words it, fails for [calloutPerimeter]: it consults
    state that is not among its inputs.  Two calls with the same bounds, the
    same style, scale, next point and flag give different points when
    [CalloutShape.prototype.factor] is assigned between them: with the
    property at 30 the point lies at height 0, with the property at 10 at
    height 20. *)
Lemma calloutPerimeter_reads_a_global :
  exists p1 η1 p2 η2,
    Callout.calloutPerimeter sample_getFactor sample_getDirectedBounds
      sample_rectanglePerimeter 1%positive callout_state
      (Point.mk (ofZ 300) (ofZ 300)) false heap_AB = Some (p1, η1)
    /\ Callout.rects η1 !! 1%positive = Callout.rects heap_AB !! 1%positive
    /\ Callout.calloutPerimeter sample_getFactor sample_getDirectedBounds
         sample_rectanglePerimeter 1%positive callout_state
         (Point.mk (ofZ 300) (ofZ 300)) false
         (Callout.assign_prototype_factor (Some (ofZ 10)) η1) = Some (p2, η2)
    /\ p1 = Point.mk (ofZ 300) 0
    /\ p2 = Point.mk (ofZ 300) (ofZ 20)
    /\ p1 <> p2.
Proof.
  eexists _, _, _, _.
  split; [vm_compute; reflexivity|].
  split; [vm_compute; reflexivity|].
  split; [vm_compute; reflexivity|].
  split; [apply (f_equal2 Point.mk); apply Qc_is_canon; reflexivity|].
  split; [apply (f_equal2 Point.mk); apply Qc_is_canon; reflexivity|].
  intros H. apply (f_equal Point.y) in H. apply (f_equal this) in H.
  vm_compute in H. discriminate H.
Qed.

(** Without the copy, a second call would see a grown box: the boxes the
    view holds are still the ones it held before the call. *)
Example getSourceEndpoint_keeps_boxes :
  exists p σ', RouterUtil.getSourceEndpoint view_AB RouterUtil.no_options store_AB
               = Some (p, σ')
               /\ σ' !! 1%positive = Some box_A /\ σ' !! 2%positive = Some box_B.
Proof.
  eexists _, _. split.
  - apply (getSourceEndpoint_run view_AB RouterUtil.no_options store_AB box_A);
      reflexivity.
  - split; (rewrite lookup_insert_ne; [reflexivity | vm_compute; discriminate]).
Qed.

(** ** EdgeHandler.removePoint *)

Lemma splice_start_inside (len : nat) (start : Z) :
  (0 <= start)%Z -> splice_start len start = Nat.min (Z.to_nat start) len.
Proof. intros H. unfold splice_start. rewrite bool_decide_eq_false_2 by lia. reflexivity. Qed.

(** Splicing one entry out at a position that is not negative is the
    deletion of that entry; past the end nothing is removed. *)
Lemma splice_remove_one {A} (a : list A) (start : Z) :
  (0 <= start)%Z -> splice_remove a start 1 = delete (Z.to_nat start) a.
Proof.
  intros H. unfold splice_remove. rewrite splice_start_inside by assumption.
  rewrite delete_take_drop.
  destruct (Nat.le_gt_cases (length a) (Z.to_nat start)) as [Hge | Hlt].
  - rewrite Nat.min_r by assumption.
    rewrite !take_ge by lia. rewrite !drop_ge by lia. reflexivity.
  - rewrite Nat.min_l by lia. rewrite Nat.add_1_r. reflexivity.
Qed.

Lemma getGeometry_setGeometry (m : EdgeHandler.Model) (c : EdgeHandler.Cell)
    (g : EdgeHandler.Geometry) :
  is_Some (m !! c) ->
  EdgeHandler.getGeometry (EdgeHandler.setGeometry m c g) c = Some g.
Proof.
  intros [r Hr]. unfold EdgeHandler.getGeometry, EdgeHandler.setGeometry.
  rewrite lookup_alter_eq, Hr. reflexivity.
Qed.

Lemma getGeometry_held (m : EdgeHandler.Model) (c : EdgeHandler.Cell)
    (g : EdgeHandler.Geometry) :
  EdgeHandler.getGeometry m c = Some g -> is_Some (m !! c).
Proof.
  unfold EdgeHandler.getGeometry. destruct (m !! c); [eauto | discriminate].
Qed.

(** C8.  [removePoint(state, index)] changes the model only when
    [0 < index < absolutePoints.length - 1] and the geometry of the edge has a
    waypoint list, and then it stores the geometry with the waypoint at
    [index - 1] spliced out; at index 0 and at the last index (the source and
    target ends) the model, and the world as a whole, is left as it was. *)
Theorem removePoint_spares_the_ends
    (h : EdgeHandler.t) (st : EdgeHandler.EdgeState) (index : Z)
    (w : EdgeHandler.World) :
  let last := (Z.of_nat (length (EdgeHandler.h_absolutePoints h)) - 1)%Z in
  let geo := EdgeHandler.getGeometry (EdgeHandler.model w)
               (EdgeHandler.cell (EdgeHandler.state h)) in
  ((index <= 0)%Z \/ (last <= index)%Z -> EdgeHandler.removePoint h st index w = w)
  /\ (geo ≫= EdgeHandler.points = None -> EdgeHandler.removePoint h st index w = w)
  /\ (forall g pts,
        (0 < index < last)%Z -> geo = Some g -> EdgeHandler.points g = Some pts ->
        EdgeHandler.model (EdgeHandler.removePoint h st index w)
        = EdgeHandler.setGeometry (EdgeHandler.model w) (EdgeHandler.cell st)
            (EdgeHandler.with_points g (Some (delete (Z.to_nat (index - 1)) pts))))
  /\ (EdgeHandler.model (EdgeHandler.removePoint h st index w) <> EdgeHandler.model w ->
      (0 < index < last)%Z /\ exists pts, geo ≫= EdgeHandler.points = Some pts).
Proof.
  intros last geo. unfold EdgeHandler.removePoint. fold last. fold geo.
  repeat split.
  - intros Hout.
    destruct (bool_decide (0 < index)%Z) eqn:H0;
      destruct (bool_decide (index < last)%Z) eqn:H1; simpl; try reflexivity.
    apply bool_decide_eq_true in H0, H1. lia.
  - intros Hnone. destruct (_ && _); [|reflexivity].
    destruct geo as [g|]; [|reflexivity]. simpl in Hnone. rewrite Hnone. reflexivity.
  - intros g pts [H0 H1] Hg Hp.
    rewrite !bool_decide_eq_true_2 by assumption. simpl.
    rewrite Hg, Hp. simpl. rewrite splice_remove_one by lia. reflexivity.
  - destruct (bool_decide (0 < index)%Z) eqn:H0;
      destruct (bool_decide (index < last)%Z) eqn:H1; simpl in H |- *;
      try congruence.
    apply bool_decide_eq_true in H0. exact H0.
  - destruct (bool_decide (0 < index)%Z) eqn:H0;
      destruct (bool_decide (index < last)%Z) eqn:H1; simpl in H |- *;
      try congruence.
    apply bool_decide_eq_true in H1. exact H1.
  - destruct (_ && _); [|congruence].
    destruct geo as [g|]; [|congruence]. simpl.
    destruct (EdgeHandler.points g) as [pts|]; [eauto | congruence].
Qed.

Lemma removePoint_spares_the_ends_witness :
  EdgeHandler.removePoint (dragging 1 sample_abs None idle_marker idle_constraintHandler)
    sample_edge_state 0 sample_world = sample_world
  /\ EdgeHandler.removePoint (dragging 1 sample_abs None idle_marker idle_constraintHandler)
       sample_edge_state 3 sample_world = sample_world
  /\ EdgeHandler.getGeometry
       (EdgeHandler.model
          (EdgeHandler.removePoint
             (dragging 1 sample_abs None idle_marker idle_constraintHandler)
             sample_edge_state 1 sample_world)) 3%nat
     = Some (EdgeHandler.with_points sample_geometry (Some [Some waypoint_2])).
Proof.
  pose proof (removePoint_spares_the_ends
                (dragging 1 sample_abs None idle_marker idle_constraintHandler)
                sample_edge_state) as H.
  split; [|split].
  - destruct (H 0%Z sample_world) as (H0 & _). apply H0. left. lia.
  - destruct (H 3%Z sample_world) as (H3 & _). apply H3. right. simpl. lia.
  - destruct (H 1%Z sample_world) as (_ & _ & H1 & _).
    rewrite (H1 sample_geometry [Some waypoint_1; Some waypoint_2]);
      [| simpl; lia | reflexivity | reflexivity].
    apply getGeometry_setGeometry. simpl. eauto.
Defined.

(** ** EdgeHandler.getPreviewPoints *)

(** When the dragged point lies in the bounds of no other handle, the loop
    over the handles leaves the waypoints as they are. *)
Lemma merge_loop_no_hit (E : EdgeHandler.Env) (index : Z) (p : Point.t)
    (hs : list (option Rectangle.t)) :
  forall (i : Z) (acc : array Point.t * bool),
    (forall j b, hs !! j = Some (Some b) -> (i + Z.of_nat j)%Z <> index ->
                 EdgeHandler.containsPoint E b p = false) ->
    EdgeHandler.merge_loop E index p hs i acc = acc.
Proof.
  induction hs as [|handle rest IH]; intros i acc Hno; simpl; [reflexivity|].
  rewrite IH.
  - case_bool_decide as Hi; [|reflexivity].
    destruct handle as [b|]; [|reflexivity].
    rewrite (Hno 0%nat b); [reflexivity | reflexivity | simpl; lia].
  - intros j b Hj Hne. apply (Hno (S j) b); [exact Hj | lia].
Qed.

Lemma array_set_inside {A} (a : array A) (i : Z) (v : A) :
  (0 <= i)%Z -> (Z.to_nat i < length a)%nat ->
  array_set a i v = <[Z.to_nat i := Some v]> a.
Proof.
  intros H0 Hlt. unfold array_set.
  rewrite bool_decide_eq_false_2 by lia.
  rewrite bool_decide_eq_true_2 by assumption. reflexivity.
Qed.

(** C7.  Dragging an inner handle [i] (not the source, not the target, not a
    virtual one, with a waypoint at position [i - 1]) to a point that lies in
    no other handle's bounds, while no straightened segment is removed,
    returns the waypoint list of the edge with the waypoint at [i - 1]
    replaced by the converted drag point: the list keeps its length and every
    other waypoint keeps its position. *)
Theorem getPreviewPoints_moves_one_waypoint
    (E : EdgeHandler.Env) (G : EdgeHandler.Graph) (h : EdgeHandler.t)
    (m : EdgeHandler.Model) (p : Point.t) (e : option EdgeHandler.MouseEvent)
    (i : Z) (geo : EdgeHandler.Geometry) (pts : array Point.t) :
  EdgeHandler.index h = Some i ->
  EdgeHandler.isSourceHandle h = false ->
  EdgeHandler.isTargetHandle h = false ->
  EdgeHandler.isVisualHandle E i = false ->
  EdgeHandler.getGeometry m (EdgeHandler.cell (EdgeHandler.state h)) = Some geo ->
  EdgeHandler.points geo = Some pts ->
  (0 < i)%Z -> (Z.to_nat (i - 1) < length pts)%nat ->
  (forall hs j b, EdgeHandler.handles h = Some hs -> hs !! j = Some (Some b) ->
                  Z.of_nat j <> i -> EdgeHandler.containsPoint E b p = false) ->
  (EdgeHandler.straighten_enabled h e = true ->
   EdgeHandler.checkRemove E G (EdgeHandler.straighten_abs E h i p) i p = Some false) ->
  exists result,
    EdgeHandler.getPreviewPoints E G h m p e = Some (Some result)
    /\ result = <[Z.to_nat (i - 1) := Some (EdgeHandler.convertPoint E G h p false)]> pts
    /\ length result = length pts
    /\ result !! Z.to_nat (i - 1) = Some (Some (EdgeHandler.convertPoint E G h p false))
    /\ (forall j, j <> Z.to_nat (i - 1) -> result !! j = pts !! j).
Proof.
  intros Hi Hs Ht Hv Hg Hp H0 Hlt Hno Hstr.
  eexists. split; [|split; [reflexivity|split; [|split]]].
  - unfold EdgeHandler.getPreviewPoints.
    rewrite Hi. simpl. rewrite Hg. simpl. rewrite Hs, Ht, Hp, Hv. simpl.
    assert (match EdgeHandler.handles h with
            | Some hs => EdgeHandler.merge_loop E i p hs 0 (pts, false)
            | None => (pts, false)
            end = (pts, false)) as ->.
    { destruct (EdgeHandler.handles h) as [hs|] eqn:Hh; [|reflexivity].
      apply merge_loop_no_hit. intros j b Hj Hne.
      apply (Hno hs j b); [reflexivity | exact Hj | lia]. }
    simpl.
    destruct (EdgeHandler.straighten_enabled h e) eqn:Hen.
    + rewrite (Hstr eq_refl). simpl.
      rewrite array_set_inside by (assumption || lia).
      rewrite Point_clone_id. reflexivity.
    + simpl. rewrite array_set_inside by (assumption || lia).
      rewrite Point_clone_id. reflexivity.
  - apply length_insert.
  - apply list_lookup_insert_eq. assumption.
  - intros j Hj. apply list_lookup_insert_ne. congruence.
Qed.

(** Dropped onto the handle of the first waypoint, the second waypoint is
    removed instead of moved. *)
Example getPreviewPoints_merges_on_handle :
  EdgeHandler.getPreviewPoints sample_env (sample_graph true)
    (dragging 2 sample_abs None idle_marker idle_constraintHandler)
    sample_model (Point.mk (ofZ 101) (ofZ 49)) None
  = Some (Some [Some waypoint_1]).
Proof. reflexivity. Qed.

(** A terminal handle leaves the waypoints alone. *)
Example getPreviewPoints_source_handle :
  EdgeHandler.getPreviewPoints sample_env (sample_graph true)
    (dragging 0 sample_abs None idle_marker idle_constraintHandler)
    sample_model (Point.mk (ofZ 150) (ofZ 80)) None
  = Some (Some [Some waypoint_1; Some waypoint_2]).
Proof. reflexivity. Qed.

(** Writing past the end of an array leaves holes. *)
Example array_set_past_end :
  array_set [Some 1%nat] 3 5%nat = [Some 1%nat; None; None; Some 5%nat].
Proof. reflexivity. Qed.

Lemma getPreviewPoints_moves_one_waypoint_witness :
  EdgeHandler.getPreviewPoints sample_env (sample_graph true)
    (dragging 2 sample_abs None idle_marker idle_constraintHandler)
    sample_model (Point.mk (ofZ 150) (ofZ 80)) None
  = Some (Some [Some waypoint_1; Some (Point.mk (ofZ 150) (ofZ 80))]).
Proof.
  assert (forall hs j b,
            EdgeHandler.handles
              (dragging 2 sample_abs None idle_marker idle_constraintHandler) = Some hs ->
            hs !! j = Some (Some b) -> Z.of_nat j <> 2%Z ->
            EdgeHandler.containsPoint sample_env b (Point.mk (ofZ 150) (ofZ 80)) = false)
    as Hno.
  { intros hs j b Hh Hj Hne. injection Hh as <-.
    destruct j as [|[|[|[|j]]]]; simpl in Hj; try discriminate;
      try (exfalso; apply Hne; reflexivity);
      injection Hj as <-; vm_compute; reflexivity. }
  destruct (getPreviewPoints_moves_one_waypoint sample_env (sample_graph true)
              (dragging 2 sample_abs None idle_marker idle_constraintHandler)
              sample_model (Point.mk (ofZ 150) (ofZ 80)) None 2%Z
              sample_geometry [Some waypoint_1; Some waypoint_2]
              eq_refl eq_refl eq_refl eq_refl eq_refl eq_refl
              ltac:(lia) ltac:(simpl; lia) Hno ltac:(discriminate))
    as (result & Hrun & Hres & _).
  rewrite Hrun, Hres. reflexivity.
Defined.

(** ** EdgeHandlerMarker.getCell *)



(** A node under the pointer is returned. *)
Example getCell_over_node :
  EdgeHandler.getCell sample_marker_env (sample_graph true) 3%nat None
    (over_cell (Some 2%nat)) = Some 2%nat.
Proof. reflexivity. Qed.


(** ** EdgeHandler.mouseUp: errors *)

Lemma emit_emit (cs ds : list EdgeHandler.Command) (w : EdgeHandler.World) :
  EdgeHandler.emit ds (EdgeHandler.emit cs w) = EdgeHandler.emit (cs ++ ds) w.
Proof. unfold EdgeHandler.emit. simpl. rewrite <- app_assoc. reflexivity. Qed.

Lemma emit_nil (w : EdgeHandler.World) : EdgeHandler.emit [] w = w.
Proof. destruct w. unfold EdgeHandler.emit. simpl. rewrite app_nil_r. reflexivity. Qed.

(** [reset] clears the error and leaves the model alone. *)
Lemma reset_housekeeping (h : EdgeHandler.t) (w : EdgeHandler.World) :
  exists cs,
    snd (EdgeHandler.reset h w) = EdgeHandler.emit cs w
    /\ forallb EdgeHandler.housekeeping cs = true
    /\ EdgeHandler.error (fst (EdgeHandler.reset h w)) = None.
Proof.
  unfold EdgeHandler.reset.
  destruct (EdgeHandler.active h), (EdgeHandler.marker h),
    (EdgeHandler.customHandles h); simpl; rewrite ?emit_emit;
    eexists; (split; [reflexivity | split; reflexivity]).
Qed.

Lemma length_pos_nonempty (s : string) :
  (0 < String.length s)%nat <-> s <> EmptyString.
Proof.
  destruct s; simpl; split; intros H; try lia; try congruence.
Qed.

(** The shape of [mouseUp] once a drag is in progress and the mouse has
    moved. *)
Lemma mouseUp_unfold (E : EdgeHandler.Env) (G : EdgeHandler.Graph)
    (h : EdgeHandler.t) (e : EdgeHandler.MouseEvent) (w : EdgeHandler.World)
    (i : Z) (mk : EdgeHandler.Marker) :
  EdgeHandler.index h = Some i ->
  EdgeHandler.marker h = Some mk ->
  EdgeHandler.clientX e <> EdgeHandler.startX h
  \/ EdgeHandler.clientY e <> EdgeHandler.startY h ->
  EdgeHandler.mouseUp E G h e w
  = ('(edge, h1, w1) ←
       EdgeHandler.mouseUp_moved E G
         (EdgeHandler.with_index_absolutePoints h None (EdgeHandler.h_absolutePoints h))
         mk i e w;
     let '(h2, w2) := EdgeHandler.reset h1 w1 in
     Some (h2,
           EdgeHandler.emit [EdgeHandler.Consume]
             (if bool_decide (edge <> EdgeHandler.cell (EdgeHandler.state h))
              then EdgeHandler.emit [EdgeHandler.SetSelectedCell edge] w2
              else w2))).
Proof.
  intros Hi Hm Hmoved. unfold EdgeHandler.mouseUp. rewrite Hi, Hm.
  assert (bool_decide (EdgeHandler.clientX e <> EdgeHandler.startX h)
          || bool_decide (EdgeHandler.clientY e <> EdgeHandler.startY h) = true)
    as ->.
  { destruct Hmoved as [H | H]; rewrite (bool_decide_eq_true_2 _ H);
      [reflexivity | apply orb_true_r]. }
  reflexivity.
Qed.

Lemma mouseUp_moved_error (E : EdgeHandler.Env) (G : EdgeHandler.Graph)
    (h : EdgeHandler.t) (mk : EdgeHandler.Marker) (i : Z)
    (e : EdgeHandler.MouseEvent) (w : EdgeHandler.World) (err : string) :
  EdgeHandler.error h = Some err ->
  EdgeHandler.mouseUp_moved E G h mk i e w
  = Some (EdgeHandler.cell (EdgeHandler.state h), h,
          if bool_decide (0 < String.length err)%nat
          then EdgeHandler.emit [EdgeHandler.ValidationWarn err] w
          else w).
Proof.
  intros Herr. unfold EdgeHandler.mouseUp_moved. rewrite Herr.
  case_bool_decide; reflexivity.
Qed.

(** C1.  When a drag ends (the mouse is released away from where it was
    pressed) while the handler holds an error, the model is left as it was and
    nothing but the handler's own tidying up is called, except that the error
    is passed to [validationWarn] exactly when it is not the empty string. *)
Theorem mouseUp_error_blocks_and_warns
    (E : EdgeHandler.Env) (G : EdgeHandler.Graph) (h : EdgeHandler.t)
    (e : EdgeHandler.MouseEvent) (w : EdgeHandler.World)
    (i : Z) (mk : EdgeHandler.Marker) (err : string) :
  EdgeHandler.index h = Some i ->
  EdgeHandler.marker h = Some mk ->
  EdgeHandler.clientX e <> EdgeHandler.startX h
  \/ EdgeHandler.clientY e <> EdgeHandler.startY h ->
  EdgeHandler.error h = Some err ->
  exists h' calls,
    EdgeHandler.mouseUp E G h e w
    = Some (h', {| EdgeHandler.model := EdgeHandler.model w;
                   EdgeHandler.log := EdgeHandler.log w ++ calls |})
    /\ EdgeHandler.error h' = None
    /\ ((exists msg, EdgeHandler.ValidationWarn msg ∈ calls) <-> err <> EmptyString)
    /\ (forall c, c ∈ calls ->
                  c = EdgeHandler.ValidationWarn err
                  \/ EdgeHandler.housekeeping c = true).
Proof.
  intros Hi Hm Hmoved Herr.
  rewrite (mouseUp_unfold E G h e w i mk Hi Hm Hmoved).
  set (h0 := EdgeHandler.with_index_absolutePoints h None _).
  rewrite (mouseUp_moved_error E G h0 mk i e w err Herr).
  cbn [mbind option_bind].
  rewrite (bool_decide_eq_false_2 (_ <> _)) by (intros H; apply H; reflexivity).
  case_bool_decide as Hlen.
  - destruct (reset_housekeeping h0
                (EdgeHandler.emit [EdgeHandler.ValidationWarn err] w))
      as (cs & Hw & Hcs & He).
    destruct (EdgeHandler.reset h0 _) as [h2 w2]. simpl in Hw, He. subst w2.
    exists h2, ([EdgeHandler.ValidationWarn err] ++ cs ++ [EdgeHandler.Consume]).
    split; [|split; [exact He|split]].
    + rewrite !emit_emit. unfold EdgeHandler.emit. simpl.
      rewrite <- ?app_assoc. reflexivity.
    + split; [intros _; apply length_pos_nonempty, Hlen|].
      intros _. exists err. apply elem_of_app. left. apply list_elem_of_singleton.
      reflexivity.
    + intros c Hc. apply elem_of_app in Hc as [Hc | Hc].
      * left. apply list_elem_of_singleton in Hc. exact Hc.
      * right. apply elem_of_app in Hc as [Hc | Hc].
        -- rewrite forallb_forall in Hcs. apply Hcs, list_elem_of_In, Hc.
        -- apply list_elem_of_singleton in Hc. subst c. reflexivity.
  - destruct (reset_housekeeping h0 w) as (cs & Hw & Hcs & He).
    destruct (EdgeHandler.reset h0 _) as [h2 w2]. simpl in Hw, He. subst w2.
    exists h2, (cs ++ [EdgeHandler.Consume]).
    assert (forall c, c ∈ cs ++ [EdgeHandler.Consume] ->
                      EdgeHandler.housekeeping c = true) as Hall.
    { intros c Hc. apply elem_of_app in Hc as [Hc | Hc].
      - rewrite forallb_forall in Hcs. apply Hcs, list_elem_of_In, Hc.
      - apply list_elem_of_singleton in Hc. subst c. reflexivity. }
    split; [|split; [exact He|split]].
    + rewrite !emit_emit. reflexivity.
    + split.
      * intros [msg Hmsg]. apply Hall in Hmsg. discriminate.
      * intros Hne. apply length_pos_nonempty in Hne. contradiction.
    + intros c Hc. right. apply Hall, Hc.
Qed.

Lemma mouseUp_error_blocks_and_warns_witness :
  exists h' calls,
    EdgeHandler.mouseUp sample_env (sample_graph true)
      (dragging 0 sample_abs (Some "no loops"%string) idle_marker idle_constraintHandler)
      (release_at (ofZ 40) (ofZ 40)) sample_world
    = Some (h', {| EdgeHandler.model := sample_model;
                   EdgeHandler.log := [] ++ calls |})
    /\ EdgeHandler.error h' = None
    /\ ((exists msg, EdgeHandler.ValidationWarn msg ∈ calls)
        <-> "no loops"%string <> EmptyString)
    /\ (forall c, c ∈ calls ->
                  c = EdgeHandler.ValidationWarn "no loops"
                  \/ EdgeHandler.housekeeping c = true).
Proof.
  apply (mouseUp_error_blocks_and_warns sample_env (sample_graph true)
           (dragging 0 sample_abs (Some "no loops"%string) idle_marker
              idle_constraintHandler)
           (release_at (ofZ 40) (ofZ 40)) sample_world 0%Z idle_marker
           "no loops"%string eq_refl eq_refl).
  - left. intros H. discriminate H.
  - reflexivity.
Defined.

(** A rejected connection with a message, and one without: the first is
    reported, the second is not, and neither changes the model. *)
Example mouseUp_reports_message :
  snd <$> EdgeHandler.mouseUp sample_env (sample_graph true)
            (dragging 0 sample_abs (Some "no loops"%string) idle_marker
               idle_constraintHandler)
            (release_at (ofZ 40) (ofZ 40)) sample_world
  = Some {| EdgeHandler.model := sample_model;
            EdgeHandler.log :=
              [EdgeHandler.ValidationWarn "no loops"; EdgeHandler.Refresh;
               EdgeHandler.MarkerReset; EdgeHandler.ConstraintHandlerReset;
               EdgeHandler.RemoveHint; EdgeHandler.Redraw; EdgeHandler.Consume] |}.
Proof. reflexivity. Qed.

Example mouseUp_silent_block :
  snd <$> EdgeHandler.mouseUp sample_env (sample_graph true)
            (dragging 0 sample_abs (Some EmptyString) idle_marker
               idle_constraintHandler)
            (release_at (ofZ 40) (ofZ 40)) sample_world
  = Some {| EdgeHandler.model := sample_model;
            EdgeHandler.log :=
              [EdgeHandler.Refresh;
               EdgeHandler.MarkerReset; EdgeHandler.ConstraintHandlerReset;
               EdgeHandler.RemoveHint; EdgeHandler.Redraw; EdgeHandler.Consume] |}.
Proof. reflexivity. Qed.

(** The mouse released exactly where it was pressed: the event is ignored,
    whatever the error. *)
Example mouseUp_not_moved :
  snd <$> EdgeHandler.mouseUp sample_env (sample_graph true)
            (dragging 0 sample_abs (Some "no loops"%string) idle_marker
               idle_constraintHandler)
            (release_at (ofZ 10) (ofZ 10)) sample_world
  = Some {| EdgeHandler.model := sample_model;
            EdgeHandler.log :=
              [EdgeHandler.Refresh;
               EdgeHandler.MarkerReset; EdgeHandler.ConstraintHandlerReset;
               EdgeHandler.RemoveHint; EdgeHandler.Redraw; EdgeHandler.Consume] |}.
Proof. reflexivity. Qed.

(** ** EdgeHandler.updatePreviewState: fixed constraints *)

Lemma half_times (w : number) : half * w = w / two.
Proof.
  replace half with (1 / (1 + 1)) by (apply Qc_is_canon; reflexivity).
  unfold two. field. discriminate.
Qed.

Lemma head_set_source (abs : array Point.t) (p : option Point.t) :
  head (EdgeHandler.setAbsoluteTerminalPoint abs p true) = Some p.
Proof. destruct abs; reflexivity. Qed.

Lemma head_set_target (abs : array Point.t) (p a : option Point.t) :
  head abs = Some a ->
  head (EdgeHandler.setAbsoluteTerminalPoint abs p false) = Some a.
Proof.
  destruct abs as [|a0 [|a1 rest]]; simpl; intros H; try discriminate;
    try assumption.
Qed.

Section spec_view_facts.

Context (dangling : EdgeHandler.EdgeState -> bool -> option Point.t).
Context (router : EdgeHandler.EdgeState -> array Point.t ->
                  option EdgeHandler.TerminalState ->
                  option EdgeHandler.TerminalState -> array Point.t).
Context (perimeter : EdgeHandler.EdgeState -> EdgeHandler.TerminalState -> bool ->
                     Point.t).

Lemma head_spec_router (edge : EdgeHandler.EdgeState) (pts : array Point.t)
    (src trg : option EdgeHandler.TerminalState) (a : option Point.t) :
  head (EdgeHandler.absolutePoints edge) = Some a ->
  head (EdgeHandler.updateRouterPoints
          (EdgeHandler.spec_view dangling router perimeter) edge pts src trg)
  = Some a.
Proof.
  simpl. destruct (EdgeHandler.absolutePoints edge); simpl; intros H;
    [discriminate | assumption].
Qed.

Lemma head_spec_floating (edge : EdgeHandler.EdgeState)
    (src trg : option EdgeHandler.TerminalState) (p : Point.t) :
  head (EdgeHandler.absolutePoints edge) = Some (Some p) ->
  head (EdgeHandler.updateFloatingTerminalPoints
          (EdgeHandler.spec_view dangling router perimeter) edge src trg)
  = Some (Some p).
Proof.
  simpl. destruct (EdgeHandler.absolutePoints edge) as [|a rest] eqn:Habs;
    simpl; intros H; [discriminate|].
  injection H as ->.
  destruct (last (Some p :: rest)) as [[q|]|] eqn:Hlast; try assumption;
    try reflexivity.
  destruct trg as [ts|]; [|reflexivity].
  destruct rest as [|b rest']; [simpl in Hlast; discriminate|].
  reflexivity.
Qed.

End spec_view_facts.

Lemma preview_edge_style (E : EdgeHandler.Env) (V : EdgeHandler.ViewApi)
    (h : EdgeHandler.t) (edge : EdgeHandler.EdgeState) (point : Point.t)
    (constraint : option EdgeHandler.Constraint)
    (terminalState : option EdgeHandler.TerminalState) :
  EdgeHandler.style (EdgeHandler.preview_edge E V h edge point constraint terminalState)
  = EdgeHandler.preview_style h constraint (EdgeHandler.style edge).
Proof.
  unfold EdgeHandler.preview_edge. cbv zeta.
  repeat match goal with
         | |- context [if ?b then _ else _] => destruct b
         end; reflexivity.
Qed.

(** With a marker in place the call returns. *)
Lemma updatePreviewState_runs (E : EdgeHandler.Env) (V : EdgeHandler.ViewApi)
    (G : EdgeHandler.Graph) (h : EdgeHandler.t) (edge : EdgeHandler.EdgeState)
    (point : Point.t) (terminalState : option EdgeHandler.TerminalState)
    (e : EdgeHandler.MouseEvent) (outline : bool) (mk : EdgeHandler.Marker) :
  EdgeHandler.marker h = Some mk ->
  exists h',
    EdgeHandler.updatePreviewState E V G h edge point terminalState e outline
    = Some (EdgeHandler.preview_edge E V h edge
              (snd (fst (EdgeHandler.preview_constraint E h point terminalState e outline)))
              (fst (fst (EdgeHandler.preview_constraint E h point terminalState e outline)))
              terminalState, h').
Proof.
  intros Hm. unfold EdgeHandler.updatePreviewState.
  destruct (EdgeHandler.preview_constraint E h point terminalState e outline)
    as [[c pt] ch]. simpl.
  unfold EdgeHandler.preview_marker, EdgeHandler.preview_error. rewrite Hm.
  destruct (EdgeHandler.outlineConnect h); simpl;
    destruct (_ && _); simpl; eexists; reflexivity.
Qed.

Lemma preview_edge_fixed_source
    (dangling : EdgeHandler.EdgeState -> bool -> option Point.t)
    (router : EdgeHandler.EdgeState -> array Point.t ->
              option EdgeHandler.TerminalState ->
              option EdgeHandler.TerminalState -> array Point.t)
    (perimeter : EdgeHandler.EdgeState -> EdgeHandler.TerminalState -> bool -> Point.t)
    (E : EdgeHandler.Env) (h : EdgeHandler.t) (edge : EdgeHandler.EdgeState)
    (point : Point.t) (c : EdgeHandler.Constraint)
    (ts : EdgeHandler.TerminalState) (fp : Point.t) :
  EdgeHandler.isSourceHandle h = true ->
  EdgeHandler.fixed_point ts c = Some fp ->
  head (EdgeHandler.absolutePoints
          (EdgeHandler.preview_edge E (EdgeHandler.spec_view dangling router perimeter)
             h edge point (Some c) (Some ts)))
  = Some (Some fp).
Proof.
  intros Hs Hfp. unfold EdgeHandler.preview_edge. rewrite Hs. cbv zeta.
  rewrite (bool_decide_eq_true_2 (Some ts <> None)) by discriminate.
  rewrite (bool_decide_eq_false_2 (Some ts = None)) by discriminate.
  rewrite andb_false_r. cbn [negb orb].
  cbn [EdgeHandler.absolutePoints EdgeHandler.with_absolutePoints].
  apply head_spec_floating.
  cbn [EdgeHandler.absolutePoints EdgeHandler.with_absolutePoints].
  apply head_spec_router.
  match goal with
  | |- context [if ?b then _ else _] => destruct b
  end.
  - cbn [EdgeHandler.absolutePoints EdgeHandler.with_absolutePoints].
    cbn [EdgeHandler.updateFixedTerminalPoint EdgeHandler.spec_view].
    apply head_set_target.
    cbn [EdgeHandler.absolutePoints EdgeHandler.with_absolutePoints].
    rewrite head_set_source. simpl. rewrite Hfp. reflexivity.
  - cbn [EdgeHandler.absolutePoints EdgeHandler.with_absolutePoints].
    cbn [EdgeHandler.updateFixedTerminalPoint EdgeHandler.spec_view].
    rewrite head_set_source. simpl. rewrite Hfp. reflexivity.
Qed.

(** C2.  While a source or target handle is dragged, [updatePreviewState]
    writes the point of the constraint in force into the style of the preview
    edge, as [exitX]/[exitY] for the source end and [entryX]/[entryY] for the
    target end, and deletes these keys when the constraint has no point.
    With the view of the specification, which maps a fixed point onto the
    terminal's bounds without asking the perimeter function, a fixed source
    constraint makes the first absolute point of the preview the mapped
    point, whatever the target, the router and the perimeter are; for the
    constraint (0.5, 1.0) that is the bottom centre of the bounds. *)
Theorem updatePreviewState_fixed_constraint
    (E : EdgeHandler.Env) (G : EdgeHandler.Graph) (h : EdgeHandler.t)
    (edge : EdgeHandler.EdgeState) (point : Point.t)
    (terminalState : option EdgeHandler.TerminalState)
    (e : EdgeHandler.MouseEvent) (outline : bool) (mk : EdgeHandler.Marker) :
  EdgeHandler.marker h = Some mk ->
  let constraint :=
    fst (fst (EdgeHandler.preview_constraint E h point terminalState e outline)) in
  (forall V, exists edge' h',
     EdgeHandler.updatePreviewState E V G h edge point terminalState e outline
     = Some (edge', h')
     /\ (EdgeHandler.isSourceHandle h = true ->
         match constraint ≫= EdgeHandler.point with
         | Some pt =>
             EdgeHandler.style edge'
             = <["exitY"%string := Point.y pt]>
                 (<["exitX"%string := Point.x pt]> (EdgeHandler.style edge))
             /\ EdgeHandler.style edge' !! "exitX"%string = Some (Point.x pt)
             /\ EdgeHandler.style edge' !! "exitY"%string = Some (Point.y pt)
         | None =>
             EdgeHandler.style edge'
             = delete "exitY"%string (delete "exitX"%string (EdgeHandler.style edge))
             /\ EdgeHandler.style edge' !! "exitX"%string = None
             /\ EdgeHandler.style edge' !! "exitY"%string = None
         end)
     /\ (EdgeHandler.isSourceHandle h = false ->
         EdgeHandler.isTargetHandle h = true ->
         match constraint ≫= EdgeHandler.point with
         | Some pt =>
             EdgeHandler.style edge'
             = <["entryY"%string := Point.y pt]>
                 (<["entryX"%string := Point.x pt]> (EdgeHandler.style edge))
             /\ EdgeHandler.style edge' !! "entryX"%string = Some (Point.x pt)
             /\ EdgeHandler.style edge' !! "entryY"%string = Some (Point.y pt)
         | None =>
             EdgeHandler.style edge'
             = delete "entryY"%string (delete "entryX"%string (EdgeHandler.style edge))
             /\ EdgeHandler.style edge' !! "entryX"%string = None
             /\ EdgeHandler.style edge' !! "entryY"%string = None
         end))
  /\ (forall dangling router perimeter ts c pt,
        EdgeHandler.isSourceHandle h = true ->
        terminalState = Some ts ->
        constraint = Some c ->
        EdgeHandler.point c = Some pt ->
        exists edge' h',
          EdgeHandler.updatePreviewState E
            (EdgeHandler.spec_view dangling router perimeter) G h edge point
            terminalState e outline = Some (edge', h')
          /\ head (EdgeHandler.absolutePoints edge')
             = Some (Some (Point.mk
                             (Rectangle.x (EdgeHandler.t_bounds ts)
                              + Point.x pt * Rectangle.width (EdgeHandler.t_bounds ts))
                             (Rectangle.y (EdgeHandler.t_bounds ts)
                              + Point.y pt * Rectangle.height (EdgeHandler.t_bounds ts))))
          /\ (pt = Point.mk half 1 ->
              head (EdgeHandler.absolutePoints edge')
              = Some (Some (Point.mk
                              (Rectangle.x (EdgeHandler.t_bounds ts)
                               + Rectangle.width (EdgeHandler.t_bounds ts) / two)
                              (Rectangle.y (EdgeHandler.t_bounds ts)
                               + Rectangle.height (EdgeHandler.t_bounds ts)))))).
Proof.
  intros Hm constraint. split.
  - intros V.
    destruct (updatePreviewState_runs E V G h edge point terminalState e outline mk Hm)
      as [h' Hrun].
    eexists _, h'. split; [exact Hrun|].
    rewrite preview_edge_style. fold constraint.
    unfold EdgeHandler.preview_style. split.
    + intros Hs. rewrite Hs. simpl.
      destruct (constraint ≫= EdgeHandler.point) as [pt|].
      * split; [reflexivity|]. split.
        -- rewrite lookup_insert_ne by discriminate. apply lookup_insert_eq.
        -- apply lookup_insert_eq.
      * split; [reflexivity|]. split.
        -- rewrite lookup_delete_ne by discriminate. apply lookup_delete_eq.
        -- apply lookup_delete_eq.
    + intros Hs Ht. rewrite Hs, Ht. simpl.
      destruct (constraint ≫= EdgeHandler.point) as [pt|].
      * split; [reflexivity|]. split.
        -- rewrite lookup_insert_ne by discriminate. apply lookup_insert_eq.
        -- apply lookup_insert_eq.
      * split; [reflexivity|]. split.
        -- rewrite lookup_delete_ne by discriminate. apply lookup_delete_eq.
        -- apply lookup_delete_eq.
  - intros dangling router perimeter ts c pt Hs -> Hc Hp.
    destruct (updatePreviewState_runs E
                (EdgeHandler.spec_view dangling router perimeter) G h edge point
                (Some ts) e outline mk Hm) as [h' Hrun].
    eexists _, h'. split; [exact Hrun|].
    fold constraint. rewrite Hc.
    assert (EdgeHandler.fixed_point ts c
            = Some (Point.mk
                      (Rectangle.x (EdgeHandler.t_bounds ts)
                       + Point.x pt * Rectangle.width (EdgeHandler.t_bounds ts))
                      (Rectangle.y (EdgeHandler.t_bounds ts)
                       + Point.y pt * Rectangle.height (EdgeHandler.t_bounds ts))))
      as Hfp.
    { unfold EdgeHandler.fixed_point. rewrite Hp. reflexivity. }
    rewrite (preview_edge_fixed_source dangling router perimeter E h edge _ c ts _ Hs Hfp).
    split; [reflexivity|].
    intros ->. simpl. rewrite half_times. do 3 f_equal. ring.
Qed.

Lemma updatePreviewState_fixed_constraint_witness :
  exists edge' h',
    EdgeHandler.updatePreviewState sample_env sample_view (sample_graph true)
      (dragging 0 sample_abs None idle_marker fixed_on_A) sample_edge_state
      (Point.mk (ofZ 40) (ofZ 30)) (Some state_A) (over_cell (Some 1%nat)) false
    = Some (edge', h')
    /\ head (EdgeHandler.absolutePoints edge')
       = Some (Some (Point.mk (0 + ofZ 80 / two) (0 + ofZ 30)))
    /\ EdgeHandler.style edge' !! "exitX"%string = Some half
    /\ EdgeHandler.style edge' !! "exitY"%string = Some 1.
Proof.
  destruct (updatePreviewState_fixed_constraint sample_env (sample_graph true)
              (dragging 0 sample_abs None idle_marker fixed_on_A) sample_edge_state
              (Point.mk (ofZ 40) (ofZ 30)) (Some state_A) (over_cell (Some 1%nat))
              false idle_marker eq_refl) as [Hstyle Hfixed].
  destruct (Hfixed (fun _ _ => None) (fun _ pts _ _ => pts)
              (fun _ ts _ => RouterUtil.center (EdgeHandler.t_bounds ts))
              state_A bottom_center (Point.mk half 1)
              eq_refl eq_refl eq_refl eq_refl)
    as (edge' & h' & Hrun & _ & Hbottom).
  destruct (Hstyle sample_view) as (edge2 & h2 & Hrun2 & Hexit & _).
  fold sample_view in Hrun. rewrite Hrun in Hrun2. injection Hrun2 as <- <-.
  exists edge', h'. split; [exact Hrun|]. split; [exact (Hbottom eq_refl)|].
  destruct (Hexit eq_refl) as (_ & HX & HY). split; assumption.
Defined.

(** The bottom centre of A is (40, 30), with B anywhere. *)
Example bottom_center_of_A :
  Point.mk (0 + ofZ 80 / two) (0 + ofZ 30) = Point.mk (ofZ 40) (ofZ 30).
Proof. f_equal; apply Qc_is_canon; reflexivity. Qed.

(** ** Dangling ends *)

Lemma getTerminalPoint_set (geo : EdgeHandler.Geometry) (p : Point.t)
    (isSource : bool) :
  EdgeHandler.getTerminalPoint (EdgeHandler.setTerminalPoint geo p isSource) isSource
  = Some p.
Proof. destruct isSource; reflexivity. Qed.

(** Storing the point of a dangling end: the geometry gets the point and
    the end loses its terminal. *)
Lemma store_terminal_point (m : EdgeHandler.Model) (edge : EdgeHandler.Cell)
    (geo : EdgeHandler.Geometry) (isSource : bool) :
  is_Some (m !! edge) ->
  EdgeHandler.getGeometry
    (EdgeHandler.connectCell (EdgeHandler.setGeometry m edge geo) edge None isSource
       (Some EdgeHandler.new_Constraint)) edge = Some geo
  /\ EdgeHandler.getTerminal
       (EdgeHandler.connectCell (EdgeHandler.setGeometry m edge geo) edge None isSource
          (Some EdgeHandler.new_Constraint)) edge isSource = None.
Proof.
  intros [r Hr].
  unfold EdgeHandler.getGeometry, EdgeHandler.getTerminal, EdgeHandler.connectCell,
    EdgeHandler.setConstraint, EdgeHandler.setTerminal, EdgeHandler.setGeometry.
  rewrite !lookup_alter_eq, Hr. destruct isSource; split; reflexivity.
Qed.

Lemma changeTerminalPoint_stores (m : EdgeHandler.Model) (edge : EdgeHandler.Cell)
    (geo : EdgeHandler.Geometry) (p : Point.t) (isSource clone : bool) :
  EdgeHandler.getGeometry m edge = Some geo ->
  exists edge' m',
    EdgeHandler.changeTerminalPoint edge p isSource clone m = (edge', m')
    /\ edge' = (if clone then fresh (dom m) else edge)
    /\ EdgeHandler.getGeometry m' edge'
       = Some (EdgeHandler.setTerminalPoint geo p isSource)
    /\ EdgeHandler.getTerminal m' edge' isSource = None.
Proof.
  intros Hg. unfold EdgeHandler.changeTerminalPoint. destruct clone.
  - unfold EdgeHandler.cloneCell. simpl.
    set (c := fresh (dom m)).
    set (m3 := EdgeHandler.setTerminal _ c _ _).
    assert (exists r, m3 !! c = Some r /\ EdgeHandler.geometry r = Some geo)
      as (r & Hr & Hgr).
    { unfold m3, EdgeHandler.setTerminal, EdgeHandler.add.
      rewrite !lookup_alter_eq, lookup_insert_eq. simpl.
      eexists. split; [reflexivity|]. simpl. exact Hg. }
    assert (EdgeHandler.getGeometry m3 c = Some geo) as Hg3.
    { unfold EdgeHandler.getGeometry. rewrite Hr. exact Hgr. }
    rewrite Hg3. eexists _, _. split; [reflexivity|]. split; [reflexivity|].
    apply store_terminal_point. eauto.
  - rewrite Hg. eexists _, _. split; [reflexivity|]. split; [reflexivity|].
    apply store_terminal_point. eapply getGeometry_held, Hg.
Qed.

Lemma dangling_point_formula (G : EdgeHandler.Graph) (h : EdgeHandler.t) (p : Point.t) :
  let o := default (Point.mk 0 0) (EdgeHandler.pstate_origin h) in
  EdgeHandler.dangling_point G h p
  = Point.mk
      (Math_round (Point.x p / EdgeHandler.scale G - Point.x (EdgeHandler.translate G))
       - Point.x o - EdgeHandler.tx G / EdgeHandler.scale G)
      (Math_round (Point.y p / EdgeHandler.scale G - Point.y (EdgeHandler.translate G))
       - Point.y o - EdgeHandler.ty G / EdgeHandler.scale G).
Proof.
  unfold EdgeHandler.dangling_point.
  destruct (EdgeHandler.pstate_origin h) as [o|]; simpl; [reflexivity|].
  f_equal; ring.
Qed.

Lemma mouseUp_moved_dangling (E : EdgeHandler.Env) (G : EdgeHandler.Graph)
    (h : EdgeHandler.t) (mk : EdgeHandler.Marker) (i : Z)
    (e : EdgeHandler.MouseEvent) (w : EdgeHandler.World) (p : Point.t) :
  let abs := EdgeHandler.h_absolutePoints h in
  let k := if EdgeHandler.isSourceHandle h then 0%Z
           else (Z.of_nat (length abs) - 1)%Z in
  let clone :=
    negb (EdgeHandler.connectionIgnored e) && EdgeHandler.cloneEvent e
    && EdgeHandler.cloneable h && EdgeHandler.cellsCloneable G in
  EdgeHandler.error h = None ->
  EdgeHandler.isCustomHandle E i = false ->
  EdgeHandler.isLabelHandle h = false ->
  EdgeHandler.isSourceHandle h || EdgeHandler.isTargetHandle h = true ->
  EdgeHandler.drop_terminal h mk = None ->
  EdgeHandler.allowDanglingEdges G = true ->
  at_index abs k = Some p ->
  exists h',
    EdgeHandler.mouseUp_moved E G h mk i e w
    = Some (fst (EdgeHandler.changeTerminalPoint (EdgeHandler.cell (EdgeHandler.state h))
                   (EdgeHandler.dangling_point G h p) (EdgeHandler.isSourceHandle h)
                   clone (EdgeHandler.model w)),
            h',
            EdgeHandler.with_model
              (snd (EdgeHandler.changeTerminalPoint
                      (EdgeHandler.cell (EdgeHandler.state h))
                      (EdgeHandler.dangling_point G h p) (EdgeHandler.isSourceHandle h)
                      clone (EdgeHandler.model w))) w).
Proof.
  intros abs k clone Herr Hcu Hla Hend Hdrop Hdang Hp.
  unfold EdgeHandler.mouseUp_moved.
  rewrite Herr, Hcu, Hla, Hend, Hdrop, Hdang. fold abs. fold k. rewrite Hp.
  cbn [mbind option_bind]. fold clone.
  destruct (EdgeHandler.changeTerminalPoint _ _ _ clone _) as [edge' m'].
  eexists. reflexivity.
Qed.

(** C4, as the code has it.  When a drag of the source or target handle ends
    over no terminal and dangling edges are allowed, [mouseUp] takes the
    absolute point of the dragged end, divides by the scale, subtracts the
    translation, rounds, and subtracts the origin of the parent's state and
    the graph's [tx], [ty] over the scale; [changeTerminalPoint] stores
    exactly that point as the terminal point of the geometry (of the edge, or
    of its clone when cloning) and sets the terminal of that end to null.
    And when the preview has no terminal state, [updatePreviewState] sets
    the error to null if dangling edges are allowed and to the empty string
    if they are not, provided the marker marks no cell; when the marker marks
    a cell, the error stays as the handler held it. *)
Theorem dangling_drop_stores_converted_point
    (E : EdgeHandler.Env) (G : EdgeHandler.Graph) (h : EdgeHandler.t)
    (e : EdgeHandler.MouseEvent) (w : EdgeHandler.World)
    (i : Z) (mk : EdgeHandler.Marker) (p : Point.t) (geo : EdgeHandler.Geometry) :
  let abs := EdgeHandler.h_absolutePoints h in
  let k := if EdgeHandler.isSourceHandle h then 0%Z
           else (Z.of_nat (length abs) - 1)%Z in
  let clone :=
    negb (EdgeHandler.connectionIgnored e) && EdgeHandler.cloneEvent e
    && EdgeHandler.cloneable h && EdgeHandler.cellsCloneable G in
  let o := default (Point.mk 0 0) (EdgeHandler.pstate_origin h) in
  EdgeHandler.index h = Some i ->
  EdgeHandler.marker h = Some mk ->
  EdgeHandler.isSourceHandle h || EdgeHandler.isTargetHandle h = true ->
  (EdgeHandler.clientX e <> EdgeHandler.startX h
   \/ EdgeHandler.clientY e <> EdgeHandler.startY h ->
   EdgeHandler.error h = None ->
   EdgeHandler.isCustomHandle E i = false ->
   EdgeHandler.isLabelHandle h = false ->
   EdgeHandler.drop_terminal h mk = None ->
   EdgeHandler.allowDanglingEdges G = true ->
   at_index abs k = Some p ->
   EdgeHandler.getGeometry (EdgeHandler.model w)
     (EdgeHandler.cell (EdgeHandler.state h)) = Some geo ->
   exists h' w' edge' stored,
     EdgeHandler.mouseUp E G h e w = Some (h', w')
     /\ edge' = (if clone then fresh (dom (EdgeHandler.model w))
                 else EdgeHandler.cell (EdgeHandler.state h))
     /\ stored
        = Point.mk
            (Math_round (Point.x p / EdgeHandler.scale G
                         - Point.x (EdgeHandler.translate G))
             - Point.x o - EdgeHandler.tx G / EdgeHandler.scale G)
            (Math_round (Point.y p / EdgeHandler.scale G
                         - Point.y (EdgeHandler.translate G))
             - Point.y o - EdgeHandler.ty G / EdgeHandler.scale G)
     /\ EdgeHandler.getGeometry (EdgeHandler.model w') edge'
        = Some (EdgeHandler.setTerminalPoint geo stored (EdgeHandler.isSourceHandle h))
     /\ (EdgeHandler.getGeometry (EdgeHandler.model w') edge'
         ≫= fun g => EdgeHandler.getTerminalPoint g (EdgeHandler.isSourceHandle h))
        = Some stored
     /\ EdgeHandler.getTerminal (EdgeHandler.model w') edge'
          (EdgeHandler.isSourceHandle h) = None)
  /\ (forall V edge point ev outline,
        exists edge' h',
          EdgeHandler.updatePreviewState E V G h edge point None ev outline
          = Some (edge', h')
          /\ (EdgeHandler.markedState mk = None ->
              EdgeHandler.error h'
              = if EdgeHandler.allowDanglingEdges G then None else Some EmptyString)
          /\ (EdgeHandler.markedState mk <> None ->
              EdgeHandler.error h' = EdgeHandler.error h)).
Proof.
  intros abs k clone o Hi Hm Hend. split.
  - intros Hmoved Herr Hcu Hla Hdrop Hdang Hp Hg.
    rewrite (mouseUp_unfold E G h e w i mk Hi Hm Hmoved).
    set (h0 := EdgeHandler.with_index_absolutePoints h None _).
    destruct (mouseUp_moved_dangling E G h0 mk i e w p
                Herr Hcu Hla Hend Hdrop Hdang Hp) as [h1 Hrun].
    rewrite Hrun. cbn [mbind option_bind].
    change (EdgeHandler.cell (EdgeHandler.state h0))
      with (EdgeHandler.cell (EdgeHandler.state h)).
    change (EdgeHandler.isSourceHandle h0) with (EdgeHandler.isSourceHandle h).
    change (EdgeHandler.cloneable h0) with (EdgeHandler.cloneable h).
    change (EdgeHandler.dangling_point G h0 p) with (EdgeHandler.dangling_point G h p).
    fold clone.
    destruct (changeTerminalPoint_stores (EdgeHandler.model w)
                (EdgeHandler.cell (EdgeHandler.state h)) geo
                (EdgeHandler.dangling_point G h p) (EdgeHandler.isSourceHandle h)
                clone Hg) as (edge' & m' & Hch & Hedge & Hgeo & Hterm).
    rewrite Hch. cbn [fst snd].
    destruct (reset_housekeeping h1 (EdgeHandler.with_model m' w))
      as (cs & Hw & _ & _).
    destruct (EdgeHandler.reset h1 _) as [h2 w2]. simpl in Hw. subst w2.
    eexists _, _, edge', (EdgeHandler.dangling_point G h p).
    split; [reflexivity|].
    split; [exact Hedge|]. split; [apply dangling_point_formula|].
    assert (forall b : bool, forall cs' w0,
              EdgeHandler.model
                (EdgeHandler.emit [EdgeHandler.Consume]
                   (if b then EdgeHandler.emit cs' (EdgeHandler.emit cs w0)
                    else EdgeHandler.emit cs w0))
              = EdgeHandler.model w0) as Hmodel.
    { intros [] cs' w0; reflexivity. }
    rewrite Hmodel. cbn [EdgeHandler.model EdgeHandler.with_model].
    rewrite Hgeo, Hterm.
    split; [reflexivity|]. split; [|reflexivity].
    simpl. apply getTerminalPoint_set.
  - clear abs k clone o. intros V edge point ev outline.
    unfold EdgeHandler.updatePreviewState.
    destruct (EdgeHandler.preview_constraint E h point None ev outline)
      as [[c pt] ch].
    unfold EdgeHandler.preview_marker, EdgeHandler.preview_error.
    rewrite Hm, Hend.
    rewrite (bool_decide_eq_true_2 (None = None)) by reflexivity.
    assert (EdgeHandler.markedState
              (EdgeHandler.preview_highlight E G h ch ev outline mk)
            = EdgeHandler.markedState mk) as Hmarked'.
    { unfold EdgeHandler.preview_highlight.
      destruct (EdgeHandler.highlight mk) as [hl|]; [|reflexivity].
      destruct (EdgeHandler.shape hl); [|reflexivity].
      destruct (bool_decide (EdgeHandler.currentConstraint ch <> None)
                && bool_decide (EdgeHandler.currentState ch <> None));
        [reflexivity|].
      destruct (bool_decide (EdgeHandler.validState mk <> None)); reflexivity. }
    destruct (EdgeHandler.outlineConnect h); cbn [mbind option_bind andb].
    + rewrite Hmarked'. eexists _, _. split; [reflexivity|].
      cbn [EdgeHandler.error EdgeHandler.with_preview]. split; intros Hmarked.
      * rewrite (bool_decide_eq_true_2 _ Hmarked). reflexivity.
      * rewrite (bool_decide_eq_false_2 _ Hmarked). reflexivity.
    + eexists _, _. split; [reflexivity|].
      cbn [EdgeHandler.error EdgeHandler.with_preview]. split; intros Hmarked.
      * rewrite (bool_decide_eq_true_2 _ Hmarked). reflexivity.
      * rewrite (bool_decide_eq_false_2 _ Hmarked). reflexivity.
Qed.

Lemma dangling_drop_stores_converted_point_witness :
  (exists h' w',
     EdgeHandler.mouseUp sample_env (sample_graph true)
       (dragging 3 dropped_abs None idle_marker idle_constraintHandler)
       (release_at (ofZ 100) (ofZ 50)) sample_world = Some (h', w')
     /\ (EdgeHandler.getGeometry (EdgeHandler.model w') 3%nat
         ≫= fun g => EdgeHandler.getTerminalPoint g false)
        = Some (Point.mk (ofZ 101) (ofZ 50))
     /\ EdgeHandler.getTerminal (EdgeHandler.model w') 3%nat false = None)
  /\ (exists edge' h',
        EdgeHandler.updatePreviewState sample_env sample_view (sample_graph false)
          (dragging 3 sample_abs None idle_marker idle_constraintHandler)
          sample_edge_state (Point.mk (ofZ 100) (ofZ 50)) None
          (release_at (ofZ 100) (ofZ 50)) false = Some (edge', h')
        /\ EdgeHandler.error h' = Some EmptyString)
  /\ (exists edge' h',
        EdgeHandler.updatePreviewState sample_env sample_view (sample_graph false)
          (dragging 3 sample_abs (Some "duplicate"%string) refused_marker
             idle_constraintHandler)
          sample_edge_state (Point.mk (ofZ 240) (ofZ 15)) None
          (release_at (ofZ 240) (ofZ 15)) false = Some (edge', h')
        /\ EdgeHandler.error h' = Some "duplicate"%string).
Proof.
  split; [|split].
  - destruct (dangling_drop_stores_converted_point sample_env (sample_graph true)
                (dragging 3 dropped_abs None idle_marker idle_constraintHandler)
                (release_at (ofZ 100) (ofZ 50)) sample_world 3%Z idle_marker
                (Point.mk (Q2Qc (201 # 2)) (ofZ 50)) sample_geometry
                eq_refl eq_refl eq_refl) as [Hdrop _].
    destruct Hdrop as (h' & w' & edge' & stored & Hrun & Hedge & Hst & _ & Hpt & Hterm);
      try reflexivity.
    { left. intros H. discriminate H. }
    simpl in Hedge. subst edge'.
    exists h', w'. split; [exact Hrun|]. split; [|exact Hterm].
    transitivity (Some stored); [exact Hpt|]. rewrite Hst. reflexivity.
  - destruct (dangling_drop_stores_converted_point sample_env (sample_graph false)
                (dragging 3 sample_abs None idle_marker idle_constraintHandler)
                (release_at (ofZ 100) (ofZ 50)) sample_world 3%Z idle_marker
                (Point.mk (ofZ 200) (ofZ 15)) sample_geometry
                eq_refl eq_refl eq_refl) as [_ Hprev].
    destruct (Hprev sample_view sample_edge_state (Point.mk (ofZ 100) (ofZ 50))
                (release_at (ofZ 100) (ofZ 50)) false)
      as (edge' & h' & Hrun & Hnone & _).
    exists edge', h'. split; [exact Hrun|]. exact (Hnone eq_refl).
  - destruct (dangling_drop_stores_converted_point sample_env (sample_graph false)
                (dragging 3 sample_abs (Some "duplicate"%string) refused_marker
                   idle_constraintHandler)
                (release_at (ofZ 240) (ofZ 15)) sample_world 3%Z refused_marker
                (Point.mk (ofZ 200) (ofZ 15)) sample_geometry
                eq_refl eq_refl eq_refl) as [_ Hprev].
    destruct (Hprev sample_view sample_edge_state (Point.mk (ofZ 240) (ofZ 15))
                (release_at (ofZ 240) (ofZ 15)) false)
      as (edge' & h' & Hrun & _ & Hkept).
    exists edge', h'. split; [exact Hrun|].
    rewrite Hkept; [reflexivity | discriminate].
Defined.

(** C4, as the claim words it, fails: the point stored for the dropped end
    is not the absolute point divided by the scale minus the translation and
    the parent's origin.  Dropped at (100.5, 50) with scale 1 and no
    translation, the end is stored at (101, 50). *)
Lemma dangling_point_is_rounded :
  exists h' w',
    EdgeHandler.mouseUp sample_env (sample_graph true)
      (dragging 3 dropped_abs None idle_marker idle_constraintHandler)
      (release_at (ofZ 100) (ofZ 50)) sample_world = Some (h', w')
    /\ (EdgeHandler.getGeometry (EdgeHandler.model w') 3%nat
        ≫= fun g => EdgeHandler.getTerminalPoint g false)
       = Some (Point.mk (ofZ 101) (ofZ 50))
    /\ EdgeHandler.plain_conversion (sample_graph true)
         (dragging 3 dropped_abs None idle_marker idle_constraintHandler)
         (Point.mk (Q2Qc (201 # 2)) (ofZ 50))
       = Point.mk (Q2Qc (201 # 2)) (ofZ 50)
    /\ Point.mk (ofZ 101) (ofZ 50) <> Point.mk (Q2Qc (201 # 2)) (ofZ 50).
Proof.
  eexists _, _. split; [reflexivity|]. split; [reflexivity|]. split.
  - unfold EdgeHandler.plain_conversion. simpl.
    f_equal; apply Qc_is_canon; reflexivity.
  - intros H. apply (f_equal Point.x) in H. apply (f_equal this) in H.
    vm_compute in H. discriminate H.
Qed.

(** Over a cell the validator has refused, the marker marks the cell and the
    error of the validator stays, also when dangling edges are not allowed. *)
Example preview_error_over_refused_cell :
  exists edge' h',
    EdgeHandler.updatePreviewState sample_env sample_view (sample_graph false)
      (dragging 3 sample_abs (Some "duplicate"%string) refused_marker
         idle_constraintHandler)
      sample_edge_state (Point.mk (ofZ 240) (ofZ 15)) None
      (release_at (ofZ 240) (ofZ 15)) false = Some (edge', h')
    /\ EdgeHandler.error h' = Some "duplicate"%string.
Proof. eexists _, _. split; reflexivity. Qed.

(** * Part II, continued *)

(** ** Order and rounding of numbers *)

Lemma this_plus (a b : number) : (this (a + b) == this a + this b)%Q.
Proof. unfold Qcplus. simpl. apply Qred_correct. Qed.

Lemma this_opp (a : number) : (this (- a) == - this a)%Q.
Proof. unfold Qcopp. simpl. apply Qred_correct. Qed.

Lemma this_minus (a b : number) : (this (a - b) == this a - this b)%Q.
Proof. unfold Qcminus. rewrite this_plus, this_opp. reflexivity. Qed.

Lemma this_mult (a b : number) : (this (a * b) == this a * this b)%Q.
Proof. unfold Qcmult. simpl. apply Qred_correct. Qed.

Lemma this_Q2Qc (q : Q) : (this (Q2Qc q) == q)%Q.
Proof. simpl. apply Qred_correct. Qed.

Lemma this_ofZ (z : Z) : (this (ofZ z) == inject_Z z)%Q.
Proof. unfold ofZ. apply this_Q2Qc. Qed.

Lemma this_half : (this half == 1 # 2)%Q.
Proof. reflexivity. Qed.

Lemma this_two : (this two == 2)%Q.
Proof. reflexivity. Qed.

Lemma this_div_two (a : number) : (this (a / two) == this a * (1 # 2))%Q.
Proof. unfold Qcdiv, Qcinv, Qcmult. simpl. rewrite !Qred_correct. reflexivity. Qed.

Lemma number_eq_this (a b : number) : a = b <-> (this a == this b)%Q.
Proof. split; [intros ->; reflexivity | apply Qc_is_canon]. Qed.

(** Linear arithmetic over [number], by way of the rationals underneath. *)
Ltac number_to_Q :=
  repeat match goal with
         | H : _ = _ :> Qc |- _ => apply number_eq_this in H
         | H : ~ Qcle _ _ |- _ => apply Qcnot_le_lt in H
         | H : ~ Qclt _ _ |- _ => apply Qcnot_lt_le in H
         end;
  try apply number_eq_this;
  unfold Qcle, Qclt in *;
  repeat (rewrite ?this_plus, ?this_minus, ?this_opp, ?this_div_two, ?this_mult,
            ?this_ofZ, ?this_half, ?this_two, ?this_Q2Qc, ?Qred_correct in * ).

Ltac number_lra := number_to_Q; lra.

Lemma Math_floor_le (q : number) : Math_floor q <= q.
Proof. unfold Math_floor. pose proof (Qfloor_le (this q)). number_lra. Qed.

Lemma Math_floor_gt (q : number) : q < Math_floor q + 1.
Proof.
  unfold Math_floor. pose proof (Qlt_floor (this q)) as H.
  rewrite inject_Z_plus in H. change (inject_Z 1) with 1%Q in H. number_lra.
Qed.

Lemma Math_round_le (q : number) : Math_round q <= q + half.
Proof.
  unfold Math_round. pose proof (Qfloor_le (this (q + half))) as H.
  remember (Qfloor (this (q + half))) as z. number_lra.
Qed.

Lemma Math_round_gt (q : number) : q - half < Math_round q.
Proof.
  unfold Math_round. pose proof (Qlt_floor (this (q + half))) as H.
  rewrite inject_Z_plus in H. change (inject_Z 1) with 1%Q in H.
  remember (Qfloor (this (q + half))) as z. number_lra.
Qed.

Lemma Qfloor_add_Z (x : Q) (n : Z) : Qfloor (x + inject_Z n) = (Qfloor x + n)%Z.
Proof.
  pose proof (Qfloor_le x) as H1. pose proof (Qlt_floor x) as H2.
  pose proof (Qfloor_le (x + inject_Z n)) as H3.
  pose proof (Qlt_floor (x + inject_Z n)) as H4.
  assert (Qfloor (x + inject_Z n) < Qfloor x + n + 1)%Z as Ha.
  { rewrite Zlt_Qlt. rewrite !inject_Z_plus in *. lra. }
  assert (Qfloor x + n < Qfloor (x + inject_Z n) + 1)%Z as Hb.
  { rewrite Zlt_Qlt. rewrite !inject_Z_plus in *. lra. }
  lia.
Qed.


Lemma Math_round_ofZ (n : Z) : Math_round (ofZ n) = ofZ n.
Proof.
  unfold Math_round.
  assert (Qfloor (this (ofZ n + half)) = n) as ->; [|reflexivity].
  assert (this (ofZ n + half) == (1 # 2) + inject_Z n)%Q as ->.
  { rewrite this_plus, this_ofZ. change (this half) with (1 # 2)%Q. ring. }
  rewrite Qfloor_add_Z. reflexivity.
Qed.

(** ** Overlay: construction, direction and moves *)








(** X3.  An overlay constructed without alignment, offset and cursor sits
    on the bottom right corner of a node: the image is centred there (the
    overlap is one half and the offset is the origin), its cursor is "help"
    and [toString] gives the tooltip. *)
Theorem constructor_defaults (image : Overlay.Image) (tooltip : string)
    (st : Overlay.State) :
  let o := OverlayNew.constructor image tooltip None None None None in
  OverlayNew.cursor o = "help"%string
  /\ OverlayNew.toString o = tooltip
  /\ (Overlay.isEdge st = false ->
      Overlay.getBounds (OverlayNew.overlay o) st
      = Some {| Rectangle.x :=
                  Math_round (Rectangle.x (Overlay.bounds st)
                              + Rectangle.width (Overlay.bounds st)
                              - Overlay.width image * Overlay.scale st / two);
                Rectangle.y :=
                  Math_round (Rectangle.y (Overlay.bounds st)
                              + Rectangle.height (Overlay.bounds st)
                              - Overlay.height image * Overlay.scale st / two);
                Rectangle.width := Overlay.width image * Overlay.scale st;
                Rectangle.height := Overlay.height image * Overlay.scale st |}).
Proof.
  intros o. split; [reflexivity|]. split; [reflexivity|].
  intros He. unfold Overlay.getBounds, Overlay.anchor. rewrite He. simpl.
  replace half with (1 / (1 + 1)) by (apply Qc_is_canon; reflexivity).
  do 2 f_equal; f_equal; unfold two; field; discriminate.
Qed.

Lemma constructor_defaults_witness :
  Overlay.getBounds
    (OverlayNew.overlay
       (OverlayNew.constructor
          {| Overlay.width := ofZ 16; Overlay.height := ofZ 16 |} "warning"
          None None None None)) node_state_A
  = Some (Rectangle.mk (ofZ 72) (ofZ 22) (ofZ 16) (ofZ 16)).
Proof.
  destruct (constructor_defaults
              {| Overlay.width := ofZ 16; Overlay.height := ofZ 16 |} "warning"
              node_state_A) as (_ & _ & H).
  rewrite (H eq_refl). simpl. f_equal.
Defined.

(** ** Router utilities: the padded boxes *)

Lemma moved_expanded_eq (r : Rectangle.t) (options : RouterUtil.PaddingOptions) :
  RouterUtil.moved_and_expanded r (RouterUtil.getPaddingBox options)
  = RouterUtil.expanded r
      (RouterUtil.normalizeSides (RouterUtil.padding_or_20 options)).
Proof.
  unfold RouterUtil.moved_and_expanded, RouterUtil.expanded,
    RouterUtil.getPaddingBox. simpl. f_equal; ring.
Qed.

Lemma expanded_within (r : Rectangle.t) (s : RouterUtil.NormalizedSides) :
  RouterBox.nonnegative s -> RouterBox.within r (RouterUtil.expanded r s).
Proof.
  intros (Ht & Hr & Hb & Hl). unfold RouterBox.within, RouterUtil.expanded.
  simpl. repeat split; number_lra.
Qed.

(** X4.  [getSourceBBox] and [getTargetBBox] return a new rectangle: the
    view's bounding box grown by the normalized padding on each side.  The
    rectangle is at a location the store did not hold, the boxes of the view
    are left as they were, and with paddings that are not negative the
    view's box lies within the rectangle returned. *)
Theorem padded_box_is_a_grown_copy
    (view : RouterUtil.EdgeView) (options : RouterUtil.PaddingOptions)
    (σ : Store.t) (rs rt : Rectangle.t) :
  σ !! RouterUtil.sourceBBox view = Some rs ->
  σ !! RouterUtil.targetBBox view = Some rt ->
  let sides := RouterUtil.normalizeSides (RouterUtil.padding_or_20 options) in
  (exists l σ',
     RouterUtil.getSourceBBox view options σ = Some (l, σ')
     /\ σ !! l = None
     /\ σ' !! l = Some (RouterUtil.expanded rs sides)
     /\ σ' !! RouterUtil.sourceBBox view = Some rs
     /\ σ' !! RouterUtil.targetBBox view = Some rt
     /\ (RouterBox.nonnegative sides ->
         RouterBox.within rs (RouterUtil.expanded rs sides)))
  /\ (exists l σ',
        RouterUtil.getTargetBBox view options σ = Some (l, σ')
        /\ σ !! l = None
        /\ σ' !! l = Some (RouterUtil.expanded rt sides)
        /\ σ' !! RouterUtil.sourceBBox view = Some rs
        /\ σ' !! RouterUtil.targetBBox view = Some rt
        /\ (RouterBox.nonnegative sides ->
            RouterBox.within rt (RouterUtil.expanded rt sides))).
Proof.
  intros Hs Ht sides.
  assert (σ !! fresh (dom σ) = None) as Hfresh.
  { apply not_elem_of_dom, is_fresh. }
  assert (forall l r, σ !! l = Some r ->
                      forall b, <[fresh (dom σ) := b]> σ !! l = Some r) as Hkeep.
  { intros l r Hl b. rewrite lookup_insert_ne; [exact Hl|].
    apply not_eq_sym, fresh_not_held. rewrite Hl. eauto. }
  split.
  - unfold RouterUtil.getSourceBBox.
    rewrite (padded_copy_run _ options σ rs Hs), moved_expanded_eq.
    eexists _, _. split; [reflexivity|]. split; [exact Hfresh|].
    split; [apply lookup_insert_eq|].
    split; [apply (Hkeep _ _ Hs)|]. split; [apply (Hkeep _ _ Ht)|].
    apply expanded_within.
  - unfold RouterUtil.getTargetBBox.
    rewrite (padded_copy_run _ options σ rt Ht), moved_expanded_eq.
    eexists _, _. split; [reflexivity|]. split; [exact Hfresh|].
    split; [apply lookup_insert_eq|].
    split; [apply (Hkeep _ _ Hs)|]. split; [apply (Hkeep _ _ Ht)|].
    apply expanded_within.
Qed.

Lemma padded_box_is_a_grown_copy_witness :
  exists l σ',
    RouterUtil.getSourceBBox view_AB RouterUtil.no_options store_AB = Some (l, σ')
    /\ σ' !! l = Some (Rectangle.mk (0 - ofZ 20) (0 - ofZ 20)
                         (ofZ 80 + ofZ 20 + ofZ 20) (ofZ 30 + ofZ 20 + ofZ 20))
    /\ σ' !! 1%positive = Some box_A.
Proof.
  destruct (padded_box_is_a_grown_copy view_AB RouterUtil.no_options store_AB
              box_A box_B eq_refl eq_refl)
    as ((l & σ' & Hrun & _ & Hnew & Hold & _) & _).
  exists l, σ'. split; [exact Hrun|]. split; [exact Hnew | exact Hold].
Defined.

(** X5.  A padding given as the number 0 is falsy and is replaced by 20: the
    padding box, and with it the boxes [getSourceBBox] and [getTargetBBox]
    compute, are those of the default.  Every other number pads each side by
    itself, and a padding of zero can only be asked for with an object. *)
Theorem number_padding_zero_is_twenty (n : number) :
  let options := {| RouterUtil.padding := Some (RouterUtil.AllSides n) |} in
  RouterUtil.getPaddingBox options
  = (if bool_decide (n = 0)
     then RouterUtil.getPaddingBox RouterUtil.no_options
     else Rectangle.mk (- n) (- n) (n + n) (n + n))
  /\ RouterUtil.getPaddingBox RouterUtil.no_options
     = Rectangle.mk (- ofZ 20) (- ofZ 20) (ofZ 20 + ofZ 20) (ofZ 20 + ofZ 20)
  /\ RouterUtil.getPaddingBox
       {| RouterUtil.padding :=
            Some (RouterUtil.Sides
                    {| RouterUtil.vertical := None; RouterUtil.horizontal := None;
                       RouterUtil.top := None; RouterUtil.right := None;
                       RouterUtil.bottom := None; RouterUtil.left := None |}) |}
     = Rectangle.mk (- 0) (- 0) (0 + 0) (0 + 0)
  /\ (n = 0 ->
      forall view,
        RouterUtil.getSourceBBox view options
        = RouterUtil.getSourceBBox view RouterUtil.no_options
        /\ RouterUtil.getTargetBBox view options
           = RouterUtil.getTargetBBox view RouterUtil.no_options).
Proof.
  intros options. unfold RouterUtil.getPaddingBox, RouterUtil.padding_or_20.
  simpl. split; [|split; [reflexivity|split; [reflexivity|]]].
  - case_bool_decide; reflexivity.
  - intros -> view. unfold RouterUtil.getSourceBBox, RouterUtil.getTargetBBox,
      RouterUtil.getPaddingBox, RouterUtil.padding_or_20. simpl.
    split; reflexivity.
Qed.

Lemma number_padding_zero_is_twenty_witness :
  RouterUtil.getSourceBBox view_AB
    {| RouterUtil.padding := Some (RouterUtil.AllSides 0) |} store_AB
  = RouterUtil.getSourceBBox view_AB RouterUtil.no_options store_AB.
Proof.
  destruct (number_padding_zero_is_twenty 0) as (_ & _ & _ & H).
  destruct (H eq_refl view_AB) as [Hs _]. rewrite Hs. reflexivity.
Defined.

(** ** The callout's outline *)


Lemma Math_min_le_r (a b : number) : Math_min a b <= b.
Proof. unfold Math_min. case_bool_decide as H; [exact H | apply Qcle_refl]. Qed.


Lemma Math_max_ge_r (a b : number) : b <= Math_max a b.
Proof.
  unfold Math_max. case_bool_decide as H; [apply Qcle_refl|].
  apply Qclt_le_weak, Qcnot_le_lt, H.
Qed.



(** ** The handles of an edge *)

Section create_handles.

Context (HE : Handles.Env) (h : EdgeHandler.t) (m : EdgeHandler.Model).

Lemma createHandles_loop_spec (visible : Z -> bool) (bendable : bool) (len : nat)
    (js : list nat) :
  forall (hs : list Handles.Created) (ps : array Point.t),
    Handles.createHandles_loop visible bendable len js (hs, Some ps)
    = Some (hs ++ map (fun i => {| Handles.for_point := i;
                                     Handles.starts_hidden := negb (Handles.at_end len i) |})
                    (List.filter (Handles.kept visible bendable len) js),
            Some (ps ++ replicate
                          (length (List.filter (fun i => negb (Handles.at_end len i))
                                     (List.filter (Handles.kept visible bendable len) js)))
                          (Some (Point.mk 0 0)))).
Proof.
  induction js as [|i js IH]; intros hs ps.
  - cbn. rewrite !app_nil_r. reflexivity.
  - assert (Handles.kept visible bendable len i
            = visible (Z.of_nat i) && (Handles.at_end len i || bendable)) as Hk by reflexivity.
    cbn [Handles.createHandles_loop List.filter]. fold (Handles.at_end len i). rewrite Hk.
    destruct (visible (Z.of_nat i)); cbn [andb fst snd].
    + destruct (Handles.at_end len i) eqn:He; cbn [orb negb].
      * rewrite IH. cbn [map List.filter]. rewrite He. cbn [negb].
        rewrite <- app_assoc. reflexivity.
      * destruct bendable; cbn [negb].
        -- rewrite IH. cbn [map List.filter]. rewrite He. cbn [negb length replicate].
           rewrite <- !app_assoc. reflexivity.
        -- apply IH.
    + apply IH.
Qed.

Lemma filter_all {A} (f : A -> bool) (l : list A) :
  (forall a, In a l -> f a = true) -> List.filter f l = l.
Proof.
  induction l as [|a l IH]; intros Hall; cbn; [reflexivity|].
  rewrite Hall by (left; reflexivity). f_equal. apply IH.
  intros b Hb. apply Hall. right; exact Hb.
Qed.

Lemma filter_none {A} (f : A -> bool) (l : list A) :
  (forall a, In a l -> f a = false) -> List.filter f l = [].
Proof.
  induction l as [|a l IH]; intros Hall; cbn; [reflexivity|].
  rewrite Hall by (left; reflexivity). apply IH.
  intros b Hb. apply Hall. right; exact Hb.
Qed.

Lemma at_end_inner (len i : nat) :
  (0 < i)%nat -> (S i < len)%nat -> Handles.at_end len i = false.
Proof.
  intros H1 H2. unfold Handles.at_end.
  rewrite !bool_decide_eq_false_2 by lia. reflexivity.
Qed.

Lemma filter_at_end (len : nat) :
  List.filter (Handles.at_end len) (seq 0 len) = Handles.end_handles len.
Proof.
  destruct len as [|[|n]]; [reflexivity | reflexivity |].
  replace (S (S n)) with (S n + 1)%nat at 2 by lia.
  rewrite seq_app, List.filter_app. cbn [seq List.filter Nat.add].
  replace (Handles.at_end (S (S n)) 0) with true by reflexivity.
  replace (Handles.at_end (S (S n)) (S n)) with true.
  2:{ unfold Handles.at_end. rewrite (bool_decide_eq_true_2 (Z.of_nat (S n) = _)) by lia.
      rewrite orb_true_r. reflexivity. }
  rewrite filter_none; [reflexivity|].
  intros i Hi. apply in_seq in Hi. apply at_end_inner; lia.
Qed.

Lemma isHandleVisible_at (i : nat) :
  Handles.isHandleVisible HE h m (Z.of_nat i)
  = Handles.at_end (length (EdgeHandler.h_absolutePoints h)) i
    || Handles.inner_visible HE h m.
Proof.
  unfold Handles.isHandleVisible, Handles.at_end.
  assert (bool_decide (Z.of_nat i = 0%Z) = bool_decide (i = 0%nat)) as ->.
  { apply bool_decide_ext. lia. }
  destruct (_ || _); reflexivity.
Qed.

End create_handles.

Lemma filter_not_at_end (len : nat) :
  List.filter (fun i => negb (Handles.at_end len i)) (seq 0 len) = seq 1 (len - 2).
Proof.
  destruct len as [|[|n]]; [reflexivity | reflexivity |].
  rewrite (seq_S (S n) 0), List.filter_app. cbn [seq List.filter Nat.add].
  replace (Handles.at_end (S (S n)) 0) with true by reflexivity.
  replace (Handles.at_end (S (S n)) (S n)) with true.
  2:{ unfold Handles.at_end.
      rewrite (bool_decide_eq_true_2 (Z.of_nat (S n) = _)) by lia.
      rewrite orb_true_r. reflexivity. }
  cbn [negb]. rewrite app_nil_r.
  replace (S (S n) - 2)%nat with n by lia.
  apply filter_all. intros i Hi. apply in_seq in Hi.
  rewrite at_end_inner by lia. reflexivity.
Qed.

Lemma filter_neg_filter {A} (f : A -> bool) (l : list A) :
  List.filter (fun a => negb (f a)) (List.filter f l) = [].
Proof.
  apply filter_none. intros a Ha. apply List.filter_In in Ha as [_ Ha].
  rewrite Ha. reflexivity.
Qed.

(** X7. [createHandles] on a handler whose waypoint array exists (as
    [refresh] leaves it): when the edge is bendable and its inner handles are
    visible, there is one handle per absolute point, in order; otherwise
    there are handles for the two ends only (one for a single point, none
    for no point).  One origin is pushed onto the waypoint array for every
    handle between the ends, and exactly those handles start hidden. *)
Theorem createHandles_layout (HE : Handles.Env) (h : EdgeHandler.t)
    (m : EdgeHandler.Model) (bendable : bool) (ps : array Point.t) :
  EdgeHandler.h_points h = Some ps ->
  let len := length (EdgeHandler.h_absolutePoints h) in
  let all := bendable && Handles.inner_visible HE h m in
  exists hs,
    Handles.createHandles HE h m bendable
    = Some (hs, Some (ps ++ replicate (if all then len - 2 else 0)%nat
                                      (Some (Point.mk 0 0))))
    /\ map Handles.for_point hs
       = (if all then seq 0 len else Handles.end_handles len)
    /\ (forall c, In c hs ->
          Handles.starts_hidden c = negb (Handles.at_end len (Handles.for_point c))).
Proof.
  intros Hps len all.
  assert (forall i, Handles.kept (Handles.isHandleVisible HE h m) bendable len i
                    = if all then true else Handles.at_end len i) as Hkept.
  { intros i. unfold Handles.kept. rewrite isHandleVisible_at. fold len.
    subst all. destruct bendable, (Handles.inner_visible HE h m),
      (Handles.at_end len i); reflexivity. }
  assert (List.filter (Handles.kept (Handles.isHandleVisible HE h m) bendable len)
            (seq 0 len)
          = if all then seq 0 len else Handles.end_handles len) as Hfilter.
  { rewrite (List.filter_ext _ _ Hkept). destruct all.
    - apply filter_all. reflexivity.
    - apply filter_at_end. }
  unfold Handles.createHandles. fold len.
  rewrite Hps, createHandles_loop_spec, Hfilter. cbn [app].
  eexists. split; [|split].
  - do 5 f_equal. destruct all.
    + rewrite filter_not_at_end, length_seq. reflexivity.
    + rewrite <- filter_at_end, filter_neg_filter. reflexivity.
  - rewrite map_map. cbn [Handles.for_point]. apply map_id.
  - intros c Hc. apply in_map_iff in Hc as (i & <- & _). reflexivity.
Qed.

Lemma createHandles_layout_witness :
  EdgeHandler.h_points refreshed = Some []
  /\ exists hs,
       Handles.createHandles sample_handles_env refreshed sample_model true
       = Some (hs, Some ([] ++ replicate 2 (Some (Point.mk 0 0))))
       /\ map Handles.for_point hs = [0; 1; 2; 3]%nat
       /\ (forall c, In c hs ->
             Handles.starts_hidden c
             = negb (Handles.at_end 4 (Handles.for_point c))).
Proof.
  split; [reflexivity|].
  exact (createHandles_layout sample_handles_env refreshed sample_model true []
           eq_refl).
Defined.

(** ** Placing the handles *)

Lemma one_le_two : 1 <= two.
Proof. number_lra. Qed.

Lemma centred_floor_holds (p : Point.t) (w h : number) :
  two <= w -> two <= h -> Handles.holds (Handles.centred Math_floor p w h) p.
Proof.
  intros Hw Hh. unfold Handles.holds, Handles.centred. cbn.
  pose proof (Math_floor_le (Point.x p - w / two)) as H1.
  pose proof (Math_floor_gt (Point.x p - w / two)) as H2.
  pose proof (Math_floor_le (Point.y p - h / two)) as H3.
  pose proof (Math_floor_gt (Point.y p - h / two)) as H4.
  remember (Math_floor (Point.x p - w / two)) as fx.
  remember (Math_floor (Point.y p - h / two)) as fy.
  clear Heqfx Heqfy. repeat split; number_lra.
Qed.

Lemma centred_round_holds (p : Point.t) (w h : number) :
  1 <= w -> 1 <= h -> Handles.holds (Handles.centred Math_round p w h) p.
Proof.
  intros Hw Hh. unfold Handles.holds, Handles.centred. cbn.
  pose proof (Math_round_le (Point.x p - w / two)) as H1.
  pose proof (Math_round_gt (Point.x p - w / two)) as H2.
  pose proof (Math_round_le (Point.y p - h / two)) as H3.
  pose proof (Math_round_gt (Point.y p - h / two)) as H4.
  remember (Math_round (Point.x p - w / two)) as fx.
  remember (Math_round (Point.y p - h / two)) as fy.
  clear Heqfx Heqfy. repeat split; number_lra.
Qed.

Section redraw_handles.

Context (HE : Handles.Env) (manage : bool) (abs : array Point.t).

Lemma checkLabelHandle_size (b : Rectangle.t) (lh lh' : Handles.LabelHandle) :
  Handles.checkLabelHandle HE b (Some lh) = Some lh' ->
  Rectangle.x (Handles.l_bounds lh') = Rectangle.x (Handles.l_bounds lh)
  /\ Rectangle.width (Handles.l_bounds lh') = Rectangle.width (Handles.l_bounds lh)
  /\ Rectangle.height (Handles.l_bounds lh') = Rectangle.height (Handles.l_bounds lh)
  /\ Handles.l_visible lh' = Handles.l_visible lh.
Proof.
  unfold Handles.checkLabelHandle.
  destruct (Handles.isIntersectWith HE b (Handles.l_bounds lh));
    intros [= <-]; cbn; auto.
Qed.

Lemma redrawEndHandle_spec (p : option Point.t) (i : nat) (s s' : Handles.Shapes) :
  Handles.redrawEndHandle HE manage p i s = Some s' ->
  length (Handles.handles s') = length (Handles.handles s)
  /\ (forall j, j <> i -> Handles.handles s' !! j = Handles.handles s !! j)
  /\ (forall b', Handles.handles s' !! i = Some (Some b') ->
        exists b pt, Handles.handles s !! i = Some (Some b) /\ p = Some pt
          /\ b' = Handles.centred Math_floor pt (Rectangle.width b) (Rectangle.height b)).
Proof.
  unfold Handles.redrawEndHandle.
  destruct (Handles.handles s !! i) as [[b|]|] eqn:Hi; cbn [mjoin option_join].
  - destruct p as [pt|]; cbn; [|discriminate]. intros [= <-]. cbn.
    split; [apply length_insert|]. split.
    + intros j Hj. apply list_lookup_insert_ne. congruence.
    + intros b' Hb'. rewrite list_lookup_insert_eq in Hb'
        by (apply lookup_lt_is_Some; eauto).
      injection Hb' as <-. eauto.
  - intros [= <-]. repeat split; auto. intros b'. rewrite Hi. discriminate.
  - intros [= <-]. repeat split; auto. intros b'. rewrite Hi. discriminate.
Qed.

Lemma redrawInnerHandle_spec (s : Handles.Shapes) (i : nat) :
  let s' := Handles.redrawInnerHandle HE manage abs s i in
  length (Handles.handles s') = length (Handles.handles s)
  /\ (forall j, j <> i -> Handles.handles s' !! j = Handles.handles s !! j)
  /\ (forall b', Handles.handles s' !! i = Some (Some b') ->
        exists b pt, Handles.handles s !! i = Some (Some b)
          /\ mjoin (abs !! i) = Some pt
          /\ (b' = Handles.centred Math_round pt (Rectangle.width b) (Rectangle.height b)
              \/ b' = Handles.centred Math_round pt (Rectangle.width b + ofZ 3)
                        (Rectangle.height b + ofZ 3))).
Proof.
  unfold Handles.redrawInnerHandle.
  destruct (Handles.handles s !! i) as [[b|]|] eqn:Hi; cbn [mjoin option_join].
  2,3: (repeat split; auto; intros b'; rewrite Hi; discriminate).
  assert (i < length (Handles.handles s))%nat as Hlt
      by (apply lookup_lt_is_Some; eauto).
  destruct (mjoin (abs !! i)) as [pt|] eqn:Hp.
  - assert (forall (b1 : Rectangle.t) (l : option Handles.LabelHandle),
              (b1 = Handles.centred Math_round pt (Rectangle.width b) (Rectangle.height b)
               \/ b1 = Handles.centred Math_round pt (Rectangle.width b + ofZ 3)
                         (Rectangle.height b + ofZ 3)) ->
              let s' := {| Handles.handles := <[i := Some b1]> (Handles.handles s);
                           Handles.label := l |} in
              length (Handles.handles s') = length (Handles.handles s)
              /\ (forall j, j <> i -> Handles.handles s' !! j = Handles.handles s !! j)
              /\ (forall b', Handles.handles s' !! i = Some (Some b') ->
                    exists b0 pt0, Some (Some b) = Some (Some b0) /\ Some pt = Some pt0
                      /\ (b' = Handles.centred Math_round pt0 (Rectangle.width b0)
                                 (Rectangle.height b0)
                          \/ b' = Handles.centred Math_round pt0
                                    (Rectangle.width b0 + ofZ 3)
                                    (Rectangle.height b0 + ofZ 3)))) as Hgen.
    { intros b1 l Hb1. cbn. split; [apply length_insert|]. split.
      - intros j Hj. apply list_lookup_insert_ne. congruence.
      - intros b'. rewrite list_lookup_insert_eq by exact Hlt.
        intros [= <-]. eauto. }
    destruct manage.
    + apply Hgen. left; reflexivity.
    + destruct (Handles.label s) as [lh|].
      * destruct (_ && _); apply Hgen; [right | left]; reflexivity.
      * apply Hgen. left; reflexivity.
  - cbn. split; [apply length_insert|]. split.
    + intros j Hj. apply list_lookup_insert_ne. congruence.
    + intros b'. rewrite list_lookup_insert_eq by exact Hlt. discriminate.
Qed.

Lemma redrawInnerHandles_fold (js : list nat) :
  List.NoDup js ->
  forall s : Handles.Shapes,
    let s' := fold_left (Handles.redrawInnerHandle HE manage abs) js s in
    length (Handles.handles s') = length (Handles.handles s)
    /\ (forall j, ~ In j js -> Handles.handles s' !! j = Handles.handles s !! j)
    /\ (forall j b', In j js -> Handles.handles s' !! j = Some (Some b') ->
          exists b pt, Handles.handles s !! j = Some (Some b)
            /\ mjoin (abs !! j) = Some pt
            /\ (b' = Handles.centred Math_round pt (Rectangle.width b) (Rectangle.height b)
                \/ b' = Handles.centred Math_round pt (Rectangle.width b + ofZ 3)
                          (Rectangle.height b + ofZ 3))).
Proof.
  induction js as [|i js IH]; intros Hnd s.
  - cbn. repeat split; auto. intros j b' [].
  - apply List.NoDup_cons_iff in Hnd as [Hi Hnd]. cbn [fold_left].
    destruct (redrawInnerHandle_spec s i) as (Hlen & Hother & Hat).
    destruct (IH Hnd (Handles.redrawInnerHandle HE manage abs s i))
      as (Hlen' & Hother' & Hat').
    cbn zeta in *. split; [congruence|]. split.
    + intros j Hj. rewrite Hother' by (intros ?; apply Hj; right; assumption).
      apply Hother. intros ->. apply Hj. left; reflexivity.
    + intros j b' [<-|Hj] Hb'.
      * rewrite Hother' in Hb' by exact Hi. apply Hat. exact Hb'.
      * destruct (Hat' j b' Hj Hb') as (b & pt & Hb & Hpt & Hor).
        rewrite Hother in Hb by (intros ->; contradiction). eauto 6.
Qed.

Lemma redrawEndHandle_at_least (k : number) (p : option Point.t) (i : nat)
    (s s' : Handles.Shapes) :
  Handles.at_least k (Handles.handles s) ->
  Handles.redrawEndHandle HE manage p i s = Some s' ->
  Handles.at_least k (Handles.handles s').
Proof.
  intros Hk Hs j b Hj. destruct (redrawEndHandle_spec p i s s' Hs) as (_ & Ho & Ha).
  destruct (decide (j = i)) as [->|Hne].
  - destruct (Ha b Hj) as (b0 & pt & Hb0 & _ & ->). cbn. eapply Hk, Hb0.
  - rewrite Ho in Hj by exact Hne. eapply Hk, Hj.
Qed.

End redraw_handles.

(** X8. After [redrawHandles] has placed the handles of an edge, every
    handle that is left holds the absolute point it stands for, borders
    included: the last handle the last point, every other handle the point
    at its own position.  This needs handles at least 2 wide and high (the
    ends are placed with [Math.floor], the others with [Math.round]); the
    number of handles stays the same. *)
Theorem redrawn_handles_hold_their_points (HE : Handles.Env) (manage : bool)
    (abs : array Point.t) (s s' : Handles.Shapes) :
  Handles.at_least two (Handles.handles s) ->
  Handles.redrawEdgeHandles HE manage abs s = Some s' ->
  length (Handles.handles s') = length (Handles.handles s)
  /\ forall i b, Handles.handles s' !! i = Some (Some b) ->
       exists p, Handles.point_of abs (length (Handles.handles s)) i = Some p
                 /\ Handles.holds b p.
Proof.
  intros Hsize. unfold Handles.redrawEdgeHandles.
  case_bool_decide as Hn.
  2:{ intros [= <-]. split; [reflexivity|]. intros i b Hb.
      apply lookup_lt_Some in Hb. lia. }
  destruct (Handles.redrawEndHandle HE manage (at_index abs 0) 0 s)
    as [s1|] eqn:H1; cbn [mbind option_bind]; [|discriminate].
  destruct (Handles.redrawEndHandle HE manage _ (length (Handles.handles s1) - 1) s1)
    as [s2|] eqn:H2; cbn [mbind option_bind]; [|discriminate].
  intros [= <-].
  pose proof (redrawEndHandle_at_least HE manage two _ _ _ _ Hsize H1) as Hsize1.
  pose proof (redrawEndHandle_at_least HE manage two _ _ _ _ Hsize1 H2) as Hsize2.
  destruct (redrawEndHandle_spec HE manage _ _ _ _ H1) as (L1 & O1 & A1).
  destruct (redrawEndHandle_spec HE manage _ _ _ _ H2) as (L2 & O2 & A2).
  unfold Handles.redrawInnerHandles.
  destruct (redrawInnerHandles_fold HE manage abs
              (seq 1 (length (Handles.handles s2) - 2)) (List.seq_NoDup _ _) s2)
    as (L3 & O3 & A3).
  cbn zeta in *. rewrite L1 in *. rewrite L2 in *.
  set (n := length (Handles.handles s)) in *.
  split; [exact L3|]. intros i b Hb.
  assert (i < n)%nat as Hi by (rewrite <- L3; eapply lookup_lt_Some, Hb).
  unfold Handles.point_of.
  destruct (decide (1 <= i <= n - 2)%nat) as [Hin|Hout].
  - destruct (A3 i b) as (b0 & pt & Hb0 & Hpt & Hor);
      [apply in_seq; lia | exact Hb |].
    rewrite bool_decide_eq_false_2 by lia. exists pt. split; [exact Hpt|].
    destruct (Hsize2 _ _ Hb0) as [Hw Hh].
    pose proof one_le_two as H12.
    destruct Hor as [-> | ->]; apply centred_round_holds;
      clear - Hw Hh H12; number_to_Q; cbv [inject_Z]; lra.
  - rewrite O3 in Hb by (rewrite in_seq; lia).
    destruct (decide (i = n - 1)%nat) as [->|Hne].
    + destruct (A2 b Hb) as (b0 & pt & Hb0 & Hpt & ->).
      rewrite bool_decide_eq_true_2 by reflexivity. exists pt.
      split; [exact Hpt|]. destruct (Hsize1 _ _ Hb0) as [Hw Hh].
      apply centred_floor_holds; assumption.
    + assert (i = 0)%nat as -> by lia.
      rewrite O2 in Hb by exact Hne.
      destruct (A1 b Hb) as (b0 & pt & Hb0 & Hpt & ->).
      rewrite bool_decide_eq_false_2 by exact Hne. exists pt. split.
      * rewrite <- Hpt. reflexivity.
      * destruct (Hsize _ _ Hb0) as [Hw Hh].
        apply centred_floor_holds; assumption.
Qed.

Lemma redrawn_handles_hold_their_points_witness :
  exists s',
    Handles.redrawEdgeHandles sample_handles_env true sample_abs sample_shapes = Some s'
    /\ length (Handles.handles s') = 4%nat
    /\ forall i b, Handles.handles s' !! i = Some (Some b) ->
         exists p, Handles.point_of sample_abs 4 i = Some p /\ Handles.holds b p.
Proof.
  eexists. split; [vm_compute; reflexivity|].
  apply (redrawn_handles_hold_their_points sample_handles_env true sample_abs
           sample_shapes).
  - intros i b Hb.
    do 4 (destruct i as [|i];
          [injection Hb as <-; split; vm_compute; discriminate|]).
    discriminate.
  - vm_compute. reflexivity.
Defined.

(** ** Starting a drag *)

Lemma start_index (E : EdgeHandler.Env) (D : Dragging.Env) (h : EdgeHandler.t)
    (m : EdgeHandler.Model) (x y : number) (index : Z)
    (hs : list (option Rectangle.t)) :
  EdgeHandler.handles h = Some hs ->
  EdgeHandler.index (fst (Dragging.start E D h m x y index))
  = if bool_decide (index = 0%Z)
       || bool_decide (index = (Z.of_nat (length hs) - 1)%Z)
    then (if Dragging.may_move D h m (bool_decide (index = 0%Z))
          then Some index else EdgeHandler.index h)
    else Some index.
Proof.
  intros Hh. unfold Dragging.start. rewrite Hh. reflexivity.
Qed.

(** X9.  An end of an edge that is locked cannot be dragged, and it is the
    handles painted in the locked colour that are locked.  On an idle handler
    with handles, [start] on the first or the last handle leaves the handler
    without an index exactly when [getHandleFillColor] gives that handle the
    locked colour (the three fill colours being distinct); a release of the
    mouse then changes neither the handler nor the world.  [start] on any
    other handle always takes the index.  In every case the press position
    is recorded. *)
Theorem locked_handle_cannot_start (E : EdgeHandler.Env) (D : Dragging.Env)
    (G : EdgeHandler.Graph) (h : EdgeHandler.t) (m : EdgeHandler.Model)
    (x y : number) (index : Z) (hs : list (option Rectangle.t)) :
  EdgeHandler.handles h = Some hs ->
  EdgeHandler.index h = None ->
  Dragging.LOCKED_HANDLE_FILLCOLOR D <> Dragging.HANDLE_FILLCOLOR D ->
  Dragging.LOCKED_HANDLE_FILLCOLOR D <> Dragging.CONNECT_HANDLE_FILLCOLOR D ->
  let h' := fst (Dragging.start E D h m x y index) in
  EdgeHandler.startX h' = x /\ EdgeHandler.startY h' = y
  /\ (index = 0%Z \/ index = (Z.of_nat (length hs) - 1)%Z ->
      (EdgeHandler.index h' = None
       <-> Dragging.getHandleFillColor D h m index
           = Dragging.LOCKED_HANDLE_FILLCOLOR D)
      /\ (EdgeHandler.index h' = None ->
          forall e w, EdgeHandler.mouseUp E G h' e w = Some (h', w)))
  /\ (index <> 0%Z -> index <> (Z.of_nat (length hs) - 1)%Z ->
      EdgeHandler.index h' = Some index).
Proof.
  intros Hh Hidle Hc1 Hc2 h'.
  split; [reflexivity|]. split; [reflexivity|].
  pose proof (start_index E D h m x y index hs Hh) as Hidx. fold h' in Hidx.
  split.
  - intros Hend.
    assert (bool_decide (index = 0%Z)
            || bool_decide (index = (Z.of_nat (length hs) - 1)%Z) = true) as Hb.
    { destruct Hend as [H0|H1].
      - rewrite (bool_decide_eq_true_2 _ H0). reflexivity.
      - rewrite (bool_decide_eq_true_2 _ H1). apply orb_true_r. }
    rewrite Hb, Hidle in Hidx.
    split.
    + unfold Dragging.getHandleFillColor. unfold Dragging.may_move in Hidx.
      destruct (EdgeHandler.getTerminal m _ (bool_decide (index = 0%Z)))
        as [t|].
      * destruct (Dragging.isCellDisconnectable D _ t _); cbn [negb];
          rewrite Hidx; split; try discriminate; try reflexivity.
        intros Hcol. exfalso. apply Hc2. symmetry. exact Hcol.
      * destruct (Dragging.isTerminalPointMovable D _ _); cbn [negb];
          rewrite Hidx; split; try discriminate; try reflexivity.
        intros Hcol. exfalso. apply Hc1. symmetry. exact Hcol.
    + intros Hnone e w. unfold EdgeHandler.mouseUp. rewrite Hnone. reflexivity.
  - intros H0 H1.
    rewrite (bool_decide_eq_false_2 _ H0), (bool_decide_eq_false_2 _ H1) in Hidx.
    exact Hidx.
Qed.

Lemma locked_handle_cannot_start_witness :
  EdgeHandler.index (fst (Dragging.start sample_env sample_dragging_env refreshed
                            sample_model (ofZ 80) (ofZ 15) 0)) = None
  /\ Dragging.getHandleFillColor sample_dragging_env refreshed sample_model 0
     = "#FF0000"%string
  /\ EdgeHandler.index (fst (Dragging.start sample_env sample_dragging_env refreshed
                               sample_model (ofZ 100) (ofZ 50) 1)) = Some 1%Z.
Proof.
  destruct (locked_handle_cannot_start sample_env sample_dragging_env
              (sample_graph true) refreshed sample_model (ofZ 80) (ofZ 15) 0 _
              eq_refl eq_refl ltac:(discriminate) ltac:(discriminate))
    as (_ & _ & Hend & _).
  destruct (Hend (or_introl eq_refl)) as [[_ Hcol] _].
  destruct (locked_handle_cannot_start sample_env sample_dragging_env
              (sample_graph true) refreshed sample_model (ofZ 100) (ofZ 50) 1 _
              eq_refl eq_refl ltac:(discriminate) ltac:(discriminate))
    as (_ & _ & _ & Hinner).
  split; [apply Hcol; reflexivity|]. split; [reflexivity|].
  apply Hinner; discriminate.
Defined.

(** ** Adding a waypoint *)

Lemma splice_insert_remove {A} (a : list A) (k : Z) (v : A) :
  (0 <= k <= Z.of_nat (length a))%Z ->
  splice_remove (splice_insert a k v) k 1 = a.
Proof.
  intros Hk. unfold splice_remove, splice_insert.
  rewrite !splice_start_inside by lia.
  rewrite (Nat.min_l (Z.to_nat k) (length a)) by lia.
  assert (length (take (Z.to_nat k) a) = Z.to_nat k) as Ht
      by (rewrite length_take; lia).
  assert (length (take (Z.to_nat k) a ++ v :: drop (Z.to_nat k) a)
          = S (length a)) as Hlen.
  { rewrite length_app, Ht. cbn [length]. rewrite length_drop. lia. }
  rewrite Hlen, Nat.min_l by lia.
  rewrite take_app_length' by (symmetry; exact Ht).
  replace (Z.to_nat k + 1)%nat with (length (take (Z.to_nat k) a) + 1)%nat
    by (rewrite Ht; reflexivity).
  rewrite drop_app_add'; [|reflexivity].
  cbn [drop]. rewrite drop_0. apply take_drop.
Qed.

Lemma splice_insert_lookup {A} (a : list A) (k : Z) (v : A) :
  (0 <= k <= Z.of_nat (length a))%Z ->
  splice_insert a k v !! Z.to_nat k = Some v
  /\ length (splice_insert a k v) = S (length a).
Proof.
  intros Hk. unfold splice_insert. rewrite splice_start_inside by lia.
  rewrite Nat.min_l by lia. split.
  - rewrite lookup_app_r by (rewrite length_take; lia).
    rewrite length_take, Nat.min_l by lia. rewrite Nat.sub_diag. reflexivity.
  - rewrite length_app, length_take. cbn [length]. rewrite length_drop. lia.
Qed.

(** X10.  [addPointAt] puts the new waypoint into the list of the edge at
    the position of the nearest segment and keeps the others in order, and
    [removePoint] on the handle of the new waypoint takes it out again: the
    geometry of the edge is then what it was.  This holds when the nearest
    segment is one of the edge (its number lies between 0 and the number of
    waypoints) and the handler that removes has been refreshed for the
    longer edge. *)
Theorem addPointAt_then_removePoint (D : Dragging.Env) (G : EdgeHandler.Graph)
    (h h' : EdgeHandler.t) (pState : option Rectangle.t)
    (st : EdgeHandler.EdgeState) (x y : number) (w : EdgeHandler.World)
    (geo : EdgeHandler.Geometry) (pts : array Point.t) :
  let k := Dragging.segment_for D G h pState st (Point.mk x y) (EdgeHandler.model w) in
  let w1 := Dragging.addPointAt D G h pState st x y w in
  EdgeHandler.getGeometry (EdgeHandler.model w) (EdgeHandler.cell st) = Some geo ->
  EdgeHandler.points geo = Some pts ->
  (0 <= k <= Z.of_nat (length pts))%Z ->
  EdgeHandler.cell (EdgeHandler.state h') = EdgeHandler.cell st ->
  (k + 1 < Z.of_nat (length (EdgeHandler.h_absolutePoints h')) - 1)%Z ->
  (exists pts1,
     (EdgeHandler.getGeometry (EdgeHandler.model w1) (EdgeHandler.cell st)
      ≫= EdgeHandler.points) = Some pts1
     /\ length pts1 = S (length pts)
     /\ pts1 !! Z.to_nat k = Some (Some (Point.mk x y))
     /\ delete (Z.to_nat k) pts1 = pts)
  /\ EdgeHandler.getGeometry
       (EdgeHandler.model (EdgeHandler.removePoint h' st (k + 1) w1))
       (EdgeHandler.cell st)
     = Some geo.
Proof.
  intros k w1 Hg Hp Hk Hcell Hlen.
  assert (EdgeHandler.getGeometry (EdgeHandler.model w1) (EdgeHandler.cell st)
          = Some (EdgeHandler.with_points geo
                    (Some (splice_insert pts k (Some (Point.mk x y)))))) as Hadd.
  { subst w1. unfold Dragging.addPointAt. rewrite Hg, Hp. fold k.
    cbn [EdgeHandler.model EdgeHandler.emit EdgeHandler.with_model].
    apply getGeometry_setGeometry. eapply getGeometry_held. exact Hg. }
  split.
  - rewrite Hadd. cbn.
    eexists. split; [reflexivity|].
    destruct (splice_insert_lookup pts k (Some (Point.mk x y)) Hk) as [Hl Hn].
    split; [exact Hn|]. split; [exact Hl|].
    rewrite <- splice_remove_one by lia. apply splice_insert_remove. exact Hk.
  - unfold EdgeHandler.removePoint.
    rewrite (bool_decide_eq_true_2 (0 < k + 1)%Z) by lia.
    rewrite (bool_decide_eq_true_2 _ Hlen). cbn [andb].
    rewrite Hcell, Hadd.
    cbn [EdgeHandler.points EdgeHandler.with_points].
    replace (k + 1 - 1)%Z with k by lia.
    rewrite splice_insert_remove by exact Hk.
    cbn [EdgeHandler.model EdgeHandler.emit EdgeHandler.with_model].
    rewrite getGeometry_setGeometry.
    + f_equal. destruct geo. cbn in Hp. subst. reflexivity.
    + eapply getGeometry_held. exact Hadd.
Qed.

Lemma addPointAt_then_removePoint_witness :
  EdgeHandler.getGeometry
    (EdgeHandler.model
       (EdgeHandler.removePoint
          (dragging 2 longer_abs None idle_marker idle_constraintHandler)
          sample_edge_state 2
          (Dragging.addPointAt sample_dragging_env (sample_graph true) refreshed None
             sample_edge_state (ofZ 120) (ofZ 60) sample_world)))
    3%nat
  = Some sample_geometry.
Proof.
  exact (proj2 (addPointAt_then_removePoint sample_dragging_env (sample_graph true)
                  refreshed
                  (dragging 2 longer_abs None idle_marker idle_constraintHandler)
                  None sample_edge_state (ofZ 120) (ofZ 60) sample_world
                  sample_geometry [Some waypoint_1; Some waypoint_2]
                  eq_refl eq_refl
                  ltac:(vm_compute; split; discriminate)
                  eq_refl
                  ltac:(vm_compute; reflexivity))).
Defined.

(** ** The point of an event *)

Lemma snapToPoint_x (tt : number) (a : Snapping.Acc) (pt : option Point.t) :
  (Point.x (Snapping.result (Snapping.snapToPoint tt a pt)),
   Snapping.overrideX (Snapping.snapToPoint tt a pt))
  = Snapping.snap_coordinate tt
      (Point.x (Snapping.result a), Snapping.overrideX a) (Point.x <$> pt).
Proof.
  destruct pt as [pt|]; [|reflexivity]. cbn.
  destruct (bool_decide (Math_abs (Point.x (Snapping.result a) - Point.x pt) < tt));
    cbn; destruct (bool_decide _); reflexivity.
Qed.

Lemma snapToPoint_y (tt : number) (a : Snapping.Acc) (pt : option Point.t) :
  (Point.y (Snapping.result (Snapping.snapToPoint tt a pt)),
   Snapping.overrideY (Snapping.snapToPoint tt a pt))
  = Snapping.snap_coordinate tt
      (Point.y (Snapping.result a), Snapping.overrideY a) (Point.y <$> pt).
Proof.
  destruct pt as [pt|]; [|reflexivity]. cbn.
  destruct (bool_decide (Math_abs (Point.x (Snapping.result a) - Point.x pt) < tt));
    cbn; destruct (bool_decide _); reflexivity.
Qed.

Lemma snap_fold_x (tt : number) (l : list (option Point.t)) :
  forall a,
    (Point.x (Snapping.result (fold_left (Snapping.snapToPoint tt) l a)),
     Snapping.overrideX (fold_left (Snapping.snapToPoint tt) l a))
    = fold_left (Snapping.snap_coordinate tt) (fmap (M := list) (fmap Point.x) l)
        (Point.x (Snapping.result a), Snapping.overrideX a).
Proof.
  induction l as [|pt l IH]; intros a; [reflexivity|].
  cbn [fold_left fmap list_fmap]. rewrite IH, snapToPoint_x. reflexivity.
Qed.

Lemma snap_fold_y (tt : number) (l : list (option Point.t)) :
  forall a,
    (Point.y (Snapping.result (fold_left (Snapping.snapToPoint tt) l a)),
     Snapping.overrideY (fold_left (Snapping.snapToPoint tt) l a))
    = fold_left (Snapping.snap_coordinate tt) (fmap (M := list) (fmap Point.y) l)
        (Point.y (Snapping.result a), Snapping.overrideY a).
Proof.
  induction l as [|pt l IH]; intros a; [reflexivity|].
  cbn [fold_left fmap list_fmap]. rewrite IH, snapToPoint_y. reflexivity.
Qed.

(** Once a coordinate is overridden it stays so, and holds its value or a
    candidate. *)
Lemma snap_coordinate_overridden (tt : number) (l : list (option number)) :
  forall v,
    exists v', fold_left (Snapping.snap_coordinate tt) l (v, true) = (v', true)
               /\ (v' = v \/ In (Some v') l).
Proof.
  induction l as [|c l IH]; intros v; [exists v; auto|].
  cbn [fold_left]. destruct c as [c|]; cbn [Snapping.snap_coordinate fst].
  - case_bool_decide.
    + destruct (IH c) as (v' & Hf & Hor). exists v'. split; [exact Hf|].
      right. destruct Hor as [-> | Hin]; [left; reflexivity | right; exact Hin].
    + destruct (IH v) as (v' & Hf & Hor). exists v'. split; [exact Hf|].
      destruct Hor as [-> | Hin]; [left; reflexivity | right; right; exact Hin].
  - destruct (IH v) as (v' & Hf & Hor). exists v'. split; [exact Hf|].
    destruct Hor as [-> | Hin]; [left; reflexivity | right; right; exact Hin].
Qed.

(** A coordinate is overridden exactly when some candidate is within the
    tolerance of its first value, and then it holds a candidate. *)
Lemma snap_coordinate_fold (tt : number) (l : list (option number)) (v : number) :
  ((forall c, In (Some c) l -> ~ Math_abs (v - c) < tt)
   /\ fold_left (Snapping.snap_coordinate tt) l (v, false) = (v, false))
  \/ ((exists c, In (Some c) l /\ Math_abs (v - c) < tt)
      /\ exists v', fold_left (Snapping.snap_coordinate tt) l (v, false) = (v', true)
                    /\ In (Some v') l).
Proof.
  induction l as [|c l IH]; [left; split; [intros c [] | reflexivity]|].
  cbn [fold_left]. destruct c as [c|]; cbn [Snapping.snap_coordinate fst].
  - case_bool_decide as Hc.
    + right. split; [exists c; split; [left; reflexivity | exact Hc]|].
      destruct (snap_coordinate_overridden tt l c) as (v' & Hf & Hor).
      exists v'. split; [exact Hf|]. destruct Hor as [-> | Hin]; [left | right]; auto.
    + destruct IH as [[Hno Hf] | [(c' & Hin & Hc') (v' & Hf & Hv')]].
      * left. split; [|exact Hf]. intros c' [[= <-] | Hin]; [exact Hc | auto].
      * right. split; [exists c'; split; [right|]; assumption|].
        exists v'. split; [exact Hf | right; exact Hv'].
  - destruct IH as [[Hno Hf] | [(c' & Hin & Hc') (v' & Hf & Hv')]].
    + left. split; [|exact Hf]. intros c' [Hd | Hin]; [discriminate | auto].
    + right. split; [exists c'; split; [right|]; assumption|].
      exists v'. split; [exact Hf | right; exact Hv'].
Qed.

Lemma In_fmap_coordinate (f : Point.t -> number) (l : list (option Point.t))
    (v : number) :
  In (Some v) (fmap (M := list) (fmap f) l) <-> exists p, In (Some p) l /\ f p = v.
Proof.
  rewrite <- list_elem_of_In, list_elem_of_fmap. split.
  - intros ([p|] & Hv & Hin); [|discriminate].
    injection Hv as ->. exists p. split; [apply list_elem_of_In, Hin | reflexivity].
  - intros (p & Hin & <-). exists (Some p).
    split; [reflexivity | apply list_elem_of_In, Hin].
Qed.

(** One coordinate of the point of an event, with the snap to terminals on:
    [coord] is the coordinate, [v] its value after the fold and [o] whether
    it was overridden. *)
Lemma snapped_coordinate (tt : number) (coord : Point.t -> number)
    (cands : list (option Point.t)) (v0 v : number) (o : bool) :
  (v, o) = fold_left (Snapping.snap_coordinate tt)
             (fmap (M := list) (fmap coord) cands) (v0, false) ->
  ((exists c, In (Some c) cands /\ Math_abs (v0 - coord c) < tt) ->
   o = true /\ exists c, In (Some c) cands /\ v = coord c)
  /\ ((forall c, In (Some c) cands -> ~ Math_abs (v0 - coord c) < tt) ->
      o = false /\ v = v0).
Proof.
  intros Hfold.
  destruct (snap_coordinate_fold tt (fmap (M := list) (fmap coord) cands) v0)
    as [[Hno Hf] | [(c & Hin & Hc) (v' & Hf & Hv')]];
    rewrite Hf in Hfold; injection Hfold as -> ->.
  - split; [|auto].
    intros (c & Hin & Hc). exfalso. apply (Hno (coord c)); [|exact Hc].
    apply In_fmap_coordinate. eauto.
  - split.
    + intros _. split; [reflexivity|].
      apply In_fmap_coordinate in Hv' as (p & Hp & <-). eauto.
    + intros Hno. exfalso. apply In_fmap_coordinate in Hin as (p & Hp & <-).
      exact (Hno p Hp Hc).
Qed.

(** X11.  The point [getPointForEvent] gives for an event.  With the snap
    to terminals on (a positive tolerance, the switch set, Alt not pressed),
    a coordinate of the rounded pointer position that is within the tolerance
    of the same coordinate of some candidate (the routing centre of a visible
    terminal, or an absolute point of the edge) is replaced by a candidate's
    coordinate, and the grid leaves it there; a coordinate within the
    tolerance of no candidate keeps its rounded value, moved to the grid when
    the grid is enabled.  With Alt pressed, or a tolerance that is not
    positive, no candidate is tried. *)
Theorem getPointForEvent_snaps (E : EdgeHandler.Env) (G : EdgeHandler.Graph)
    (h : EdgeHandler.t) (gridSize : number) (gridEnabled : bool)
    (e : EdgeHandler.MouseEvent) :
  let tt := Snapping.getSnapToTerminalTolerance G gridSize in
  let r0 := Snapping.rounded G e in
  let cands := Snapping.snap_candidates E (EdgeHandler.state h) in
  let t := EdgeHandler.translate G in
  let on_grid (v t : number) :=
    if gridEnabled then Snapping.grid_coordinate E G v t else v in
  (0 < tt -> EdgeHandler.altDown e = false ->
   let p := Snapping.getPointForEvent E G h gridSize true gridEnabled e in
   ((exists c, In (Some c) cands /\ Math_abs (Point.x r0 - Point.x c) < tt) ->
    exists c, In (Some c) cands /\ Point.x p = Point.x c)
   /\ ((forall c, In (Some c) cands -> ~ Math_abs (Point.x r0 - Point.x c) < tt) ->
       Point.x p = on_grid (Point.x r0) (Point.x t))
   /\ ((exists c, In (Some c) cands /\ Math_abs (Point.y r0 - Point.y c) < tt) ->
       exists c, In (Some c) cands /\ Point.y p = Point.y c)
   /\ ((forall c, In (Some c) cands -> ~ Math_abs (Point.y r0 - Point.y c) < tt) ->
       Point.y p = on_grid (Point.y r0) (Point.y t)))
  /\ (~ 0 < tt \/ EdgeHandler.altDown e = true ->
      forall snapToTerminals,
        Snapping.getPointForEvent E G h gridSize snapToTerminals gridEnabled e
        = Point.mk (on_grid (Point.x r0) (Point.x t)) (on_grid (Point.y r0) (Point.y t))).
Proof.
  intros tt r0 cands t on_grid. split.
  - intros Htt Halt p. subst p. unfold Snapping.getPointForEvent.
    fold tt r0 cands t. rewrite (bool_decide_eq_true_2 _ Htt), Halt. cbn [andb negb].
    set (a := fold_left (Snapping.snapToPoint tt) cands _).
    pose proof (snap_fold_x tt cands
                  {| Snapping.result := r0; Snapping.overrideX := false;
                     Snapping.overrideY := false |}) as Hx.
    pose proof (snap_fold_y tt cands
                  {| Snapping.result := r0; Snapping.overrideX := false;
                     Snapping.overrideY := false |}) as Hy.
    fold a in Hx, Hy. cbn [Snapping.result Snapping.overrideX Snapping.overrideY] in Hx, Hy.
    clearbody a.
    destruct (snapped_coordinate tt Point.x cands _ _ _ Hx) as [Hx1 Hx2].
    destruct (snapped_coordinate tt Point.y cands _ _ _ Hy) as [Hy1 Hy2].
    subst on_grid. cbn beta.
    split; [|split; [|split]].
    + intros Hc. destruct (Hx1 Hc) as (Ho & c & Hin & Hv).
      exists c. split; [exact Hin|]. rewrite <- Hv.
      destruct gridEnabled; [|reflexivity]. cbn. rewrite Ho. reflexivity.
    + intros Hno. destruct (Hx2 Hno) as (Ho & Hv).
      destruct gridEnabled; [|exact Hv]. cbn. rewrite Ho, Hv. reflexivity.
    + intros Hc. destruct (Hy1 Hc) as (Ho & c & Hin & Hv).
      exists c. split; [exact Hin|]. rewrite <- Hv.
      destruct gridEnabled; [|reflexivity]. cbn. rewrite Ho. reflexivity.
    + intros Hno. destruct (Hy2 Hno) as (Ho & Hv).
      destruct gridEnabled; [|exact Hv]. cbn. rewrite Ho, Hv. reflexivity.
  - intros Hoff snapToTerminals. unfold Snapping.getPointForEvent.
    fold tt r0 t.
    assert (bool_decide (0 < tt)
            && (snapToTerminals && negb (EdgeHandler.altDown e)) = false) as ->.
    { destruct Hoff as [Hn | Ha].
      - rewrite (bool_decide_eq_false_2 _ Hn). reflexivity.
      - rewrite Ha. cbn. rewrite andb_false_r. apply andb_false_r. }
    subst on_grid. cbn. destruct gridEnabled; [reflexivity|].
    subst r0. unfold Snapping.rounded. reflexivity.
Qed.

Lemma getPointForEvent_snaps_witness :
  (exists c, In (Some c) (Snapping.snap_candidates sample_env sample_edge_state)
             /\ Point.x (Snapping.getPointForEvent sample_env (sample_graph true)
                           refreshed (ofZ 10) true true
                           (release_at (ofZ 98) (ofZ 70)))
                = Point.x c)
  /\ Point.y (Snapping.getPointForEvent sample_env (sample_graph true)
                refreshed (ofZ 10) true true (release_at (ofZ 98) (ofZ 70)))
     = Snapping.grid_coordinate sample_env (sample_graph true)
         (Point.y (Snapping.rounded (sample_graph true)
                     (release_at (ofZ 98) (ofZ 70)))) 0.
Proof.
  destruct (getPointForEvent_snaps sample_env (sample_graph true) refreshed
              (ofZ 10) true (release_at (ofZ 98) (ofZ 70))) as [Hon _].
  destruct (Hon ltac:(vm_compute; reflexivity) eq_refl) as (Hx & _ & _ & Hy).
  split.
  - apply Hx. exists waypoint_1. split.
    + right. right. right. left. reflexivity.
    + vm_compute. reflexivity.
  - apply Hy. intros c Hin.
    assert (Point.y c = ofZ 15 \/ Point.y c = ofZ 50) as Hc.
    { cbn in Hin.
      destruct Hin as [H|[H|[H|[H|[H|[H|[]]]]]]]; injection H as <-;
        cbn; [left | left | left | right | right | left];
        try reflexivity; apply Qc_is_canon; reflexivity. }
    destruct Hc as [-> | ->]; vm_compute; intros H; discriminate H.
Defined.

(** ** Moving the label *)

(** A rounded quotient, multiplied back, is within half the divisor. *)
Lemma round_quotient_near (d s : number) :
  0 < s ->
  d - s / two <= Math_round (d / s) * s /\ Math_round (d / s) * s <= d + s / two.
Proof.
  intros Hs.
  assert (s <> 0) as Hne.
  { intros ->. exact (Qcle_not_lt _ _ (Qcle_refl 0) Hs). }
  assert (d / s * s = d) as Hq by (field; exact Hne).
  pose proof (Qcmult_le_compat_r _ _ s (Math_round_le (d / s))
                (Qclt_le_weak _ _ Hs)) as Hle.
  pose proof (Qcmult_le_compat_r _ _ s
                (Qclt_le_weak _ _ (Math_round_gt (d / s)))
                (Qclt_le_weak _ _ Hs)) as Hge.
  rewrite Qcmult_plus_distr_l, Hq in Hle.
  unfold Qcminus in Hge. rewrite Qcmult_plus_distr_l, Hq in Hge.
  remember (Math_round (d / s) * s) as R. clear HeqR Hq.
  assert (- half * s = - (s / two)) as Hh1 by number_lra.
  assert (half * s = s / two) as Hh2 by apply half_times.
  rewrite Hh1 in Hge. rewrite Hh2 in Hle.
  split; [exact Hge | exact Hle].
Qed.

(** X12.  [moveLabel] on a geometry that is not relative stores the offset
    of the label from the middle between the two ends of the edge, in
    unscaled whole units, and resets the origin of the bounds: the stored
    offset, scaled back and added to the middle, is within half the scale of
    the position the label was moved to.  When an end of the edge is missing
    the geometry is left as it is. *)
Theorem moveLabel_stores_the_offset (V : Label.View) (G : EdgeHandler.Graph)
    (edgeState : EdgeHandler.EdgeState) (x y : number) (geo : Label.Geometry) :
  Label.relative geo = false ->
  let points := EdgeHandler.absolutePoints edgeState in
  let geo' := Label.moveLabel V G edgeState x y geo in
  (forall p0 pe,
     mjoin (points !! 0%nat) = Some p0 -> mjoin (last points) = Some pe ->
     0 < EdgeHandler.scale G ->
     let c := Handles.segment_middle p0 pe in
     let s := EdgeHandler.scale G in
     exists o,
       Label.offset geo' = Some o
       /\ Label.bounds_x geo' = 0 /\ Label.bounds_y geo' = 0
       /\ Label.relative geo' = false
       /\ x - s / two <= Point.x c + Point.x o * s
       /\ Point.x c + Point.x o * s <= x + s / two
       /\ y - s / two <= Point.y c + Point.y o * s
       /\ Point.y c + Point.y o * s <= y + s / two)
  /\ (mjoin (points !! 0%nat) = None \/ mjoin (last points) = None -> geo' = geo).
Proof.
  intros Hrel points geo'. subst geo'. unfold Label.moveLabel. rewrite Hrel.
  fold points. split.
  - intros p0 pe H0 He Hs. cbn zeta. rewrite H0, He.
    set (s := EdgeHandler.scale G) in *.
    eexists. split; [reflexivity|].
    cbn [Label.bounds_x Label.bounds_y Label.relative Point.x Point.y].
    split; [reflexivity|]. split; [reflexivity|]. split; [reflexivity|].
    unfold Handles.segment_middle. cbn [Point.x Point.y].
    destruct (round_quotient_near
                (x - (Point.x p0 + (Point.x pe - Point.x p0) / two)) s Hs)
      as [Hx1 Hx2].
    destruct (round_quotient_near
                (y - (Point.y p0 + (Point.y pe - Point.y p0) / two)) s Hs)
      as [Hy1 Hy2].
    remember (Math_round ((x - (Point.x p0 + (Point.x pe - Point.x p0) / two)) / s) * s)
      as Rx.
    remember (Math_round ((y - (Point.y p0 + (Point.y pe - Point.y p0) / two)) / s) * s)
      as Ry.
    clear HeqRx HeqRy. repeat split; number_lra.
  - intros [H0 | He].
    + rewrite H0. reflexivity.
    + rewrite He. destruct (mjoin (points !! 0%nat)); reflexivity.
Qed.

Lemma moveLabel_stores_the_offset_witness :
  exists o,
    Label.offset (Label.moveLabel sample_label_view (sample_graph true)
                    sample_edge_state (Q2Qc (752 # 5)) (ofZ 40) sample_label_geometry)
    = Some o
    /\ Q2Qc (752 # 5) - 1 / two <= ofZ 140 + Point.x o * 1
    /\ ofZ 140 + Point.x o * 1 <= Q2Qc (752 # 5) + 1 / two.
Proof.
  destruct (moveLabel_stores_the_offset sample_label_view (sample_graph true)
              sample_edge_state (Q2Qc (752 # 5)) (ofZ 40) sample_label_geometry
              eq_refl) as [H _].
  destruct (H (Point.mk (ofZ 80) (ofZ 15)) (Point.mk (ofZ 200) (ofZ 15))
              eq_refl eq_refl ltac:(vm_compute; reflexivity))
    as (o & Ho & _ & _ & _ & Hx1 & Hx2 & _).
  exists o. split; [exact Ho|].
  assert (Point.x (Handles.segment_middle (Point.mk (ofZ 80) (ofZ 15))
                     (Point.mk (ofZ 200) (ofZ 15))) = ofZ 140) as Hm
      by (apply Qc_is_canon; reflexivity).
  rewrite Hm in Hx1, Hx2. split; [exact Hx1 | exact Hx2].
Defined.

(** ** The handle under the pointer *)

Section picking.

Context (P : Picking.Env) (e : EdgeHandler.MouseEvent) (code : Z -> Z).

(** What a loop over handles leaves: either nothing was taken, and every
    hit shape is farther away than the distance held before; or the shape at
    some position [j] was taken, which is hit, not farther than the distance
    held before, not farther than any hit shape, and nearer than every hit
    shape after it. *)
Lemma handle_loop_spec (shapes : list (option Picking.Shape)) :
  forall (i : Z) (res : option Z) (md : option number),
    (Picking.handle_loop P e code shapes i (res, md) = (res, md)
     /\ forall j s, shapes !! j = Some (Some s) ->
          Picking.is_hit P e (Some s) = true ->
          exists d0, md = Some d0 /\ d0 < Picking.distance2 e s)
    \/ (exists j s,
          shapes !! j = Some (Some s)
          /\ Picking.is_hit P e (Some s) = true
          /\ Picking.handle_loop P e code shapes i (res, md)
             = (Some (code (i + Z.of_nat j)%Z), Some (Picking.distance2 e s))
          /\ (forall d0, md = Some d0 -> Picking.distance2 e s <= d0)
          /\ forall j' s', shapes !! j' = Some (Some s') ->
               Picking.is_hit P e (Some s') = true ->
               Picking.distance2 e s <= Picking.distance2 e s'
               /\ ((j < j')%nat -> Picking.distance2 e s < Picking.distance2 e s')).
Proof.
  induction shapes as [|sh rest IH]; intros i res md.
  { left. split; [reflexivity|]. intros j s Hj. destruct j; discriminate. }
  cbn [Picking.handle_loop snd fst].
  destruct sh as [s0|].
  2:{ cbn [Picking.checkShape].
      destruct (IH (i + 1)%Z res md) as [[Hrun Hfar] | (j & s & Hj & Hhit & Hrun & Hd0 & Hmin)].
      - left. split; [exact Hrun|]. intros [|j] s Hj Hhit; [discriminate|].
        exact (Hfar j s Hj Hhit).
      - right. exists (S j), s. split; [exact Hj|]. split; [exact Hhit|].
        split; [rewrite Hrun; do 3 f_equal; lia|]. split; [exact Hd0|].
        intros [|j'] s' Hj' Hhit'; [discriminate|].
        destruct (Hmin j' s' Hj' Hhit') as [Hle Hlt].
        split; [exact Hle|]. intros Hlt'. apply Hlt. lia. }
  unfold Picking.checkShape.
  destruct (Picking.is_hit P e (Some s0)) eqn:Hhit0.
  2:{ destruct (IH (i + 1)%Z res md) as [[Hrun Hfar] | (j & s & Hj & Hhit & Hrun & Hd0 & Hmin)].
      - left. split; [exact Hrun|]. intros [|j] s Hj Hhit.
        + injection Hj as <-. rewrite Hhit0 in Hhit. discriminate.
        + exact (Hfar j s Hj Hhit).
      - right. exists (S j), s. split; [exact Hj|]. split; [exact Hhit|].
        split; [rewrite Hrun; do 3 f_equal; lia|]. split; [exact Hd0|].
        intros [|j'] s' Hj' Hhit'.
        + injection Hj' as <-. rewrite Hhit0 in Hhit'. discriminate.
        + destruct (Hmin j' s' Hj' Hhit') as [Hle Hlt].
          split; [exact Hle|]. intros Hlt'. apply Hlt. lia. }
  set (d := Picking.distance2 e s0).
  assert (forall d0, md = Some d0 -> ~ d <= d0 ->
            (Picking.handle_loop P e code rest (i + 1) (res, md) = (res, md)
             /\ (forall j s, (Some s0 :: rest) !! j = Some (Some s) ->
                   Picking.is_hit P e (Some s) = true ->
                   exists d0, md = Some d0 /\ d0 < Picking.distance2 e s))
            \/ (exists j s,
                  (Some s0 :: rest) !! j = Some (Some s)
                  /\ Picking.is_hit P e (Some s) = true
                  /\ Picking.handle_loop P e code rest (i + 1) (res, md)
                     = (Some (code (i + Z.of_nat j)%Z), Some (Picking.distance2 e s))
                  /\ (forall d0, md = Some d0 -> Picking.distance2 e s <= d0)
                  /\ forall j' s', (Some s0 :: rest) !! j' = Some (Some s') ->
                       Picking.is_hit P e (Some s') = true ->
                       Picking.distance2 e s <= Picking.distance2 e s'
                       /\ ((j < j')%nat ->
                           Picking.distance2 e s < Picking.distance2 e s'))) as Hskip.
  { intros d0 Hmd Hfar0. apply Qcnot_le_lt in Hfar0.
    destruct (IH (i + 1)%Z res md) as [[Hrun Hfar] | (j & s & Hj & Hhit & Hrun & Hd0 & Hmin)].
    - left. split; [exact Hrun|]. intros [|j] s Hj Hhit.
      + injection Hj as <-. exists d0. split; [exact Hmd | exact Hfar0].
      + exact (Hfar j s Hj Hhit).
    - right. exists (S j), s. split; [exact Hj|]. split; [exact Hhit|].
      split; [rewrite Hrun; do 3 f_equal; lia|]. split; [exact Hd0|].
      intros [|j'] s' Hj' Hhit'.
      + injection Hj' as <-. split; [|intros Hlt; lia].
        apply Qclt_le_weak. eapply Qcle_lt_trans; [apply (Hd0 d0 Hmd) | exact Hfar0].
      + destruct (Hmin j' s' Hj' Hhit') as [Hle Hlt].
        split; [exact Hle|]. intros Hlt'. apply Hlt. lia. }
  assert ((md = None \/ exists d0, md = Some d0 /\ d <= d0) ->
          exists j s,
            (Some s0 :: rest) !! j = Some (Some s)
            /\ Picking.is_hit P e (Some s) = true
            /\ Picking.handle_loop P e code rest (i + 1) (Some (code i), Some d)
               = (Some (code (i + Z.of_nat j)%Z), Some (Picking.distance2 e s))
            /\ (forall d0, md = Some d0 -> Picking.distance2 e s <= d0)
            /\ forall j' s', (Some s0 :: rest) !! j' = Some (Some s') ->
                 Picking.is_hit P e (Some s') = true ->
                 Picking.distance2 e s <= Picking.distance2 e s'
                 /\ ((j < j')%nat ->
                     Picking.distance2 e s < Picking.distance2 e s')) as Htake.
  { intros Hnear.
    assert (forall d0, md = Some d0 -> d <= d0) as Hd.
    { intros d0 Hmd. destruct Hnear as [Hn | (d1 & Hd1 & Hle)]; [congruence|].
      rewrite Hmd in Hd1. injection Hd1 as <-. exact Hle. }
    destruct (IH (i + 1)%Z (Some (code i)) (Some d))
      as [[Hrun Hfar] | (j & s & Hj & Hhit & Hrun & Hd0 & Hmin)].
    - exists 0%nat, s0. split; [reflexivity|]. split; [exact Hhit0|].
      split; [rewrite Hrun; do 3 f_equal; lia|]. split; [exact Hd|].
      intros [|j'] s' Hj' Hhit'.
      + injection Hj' as <-. split; [apply Qcle_refl | intros Hlt; lia].
      + destruct (Hfar j' s' Hj' Hhit') as (d1 & [= <-] & Hlt).
        split; [apply Qclt_le_weak, Hlt | intros _; exact Hlt].
    - exists (S j), s. split; [exact Hj|]. split; [exact Hhit|].
      split; [rewrite Hrun; do 3 f_equal; lia|].
      pose proof (Hd0 d eq_refl) as Hsd.
      split; [intros d0 Hmd; eapply Qcle_trans; [exact Hsd | exact (Hd d0 Hmd)]|].
      intros [|j'] s' Hj' Hhit'.
      + injection Hj' as <-. split; [exact Hsd | intros Hlt; lia].
      + destruct (Hmin j' s' Hj' Hhit') as [Hle Hlt].
        split; [exact Hle|]. intros Hlt'. apply Hlt. lia. }
  fold d. destruct md as [d0|].
  - case_bool_decide as Hle; cbn [fst snd].
    + right. apply Htake. right. exists d0. split; [reflexivity | exact Hle].
    + apply (Hskip d0 eq_refl Hle).
  - cbn [fst snd]. right. apply Htake. left. reflexivity.
Qed.

End picking.

(** X13.  Among the handles of an edge (no custom handles, no label handle,
    no virtual handles, the event not on the label text), [getHandleForEvent]
    returns the position of the hit handle whose middle is nearest to the
    pointer, the last one of those equally near; it returns [null] exactly
    when no handle is hit.  A handle is hit when it exists, is visible, and
    is the source of the event or meets the hit box. *)
Theorem closest_handle_wins (P : Picking.Env) (e : EdgeHandler.MouseEvent)
    (hs : list (option Picking.Shape)) :
  Picking.textIsEventSource P = false ->
  let r := Picking.getHandleForEvent P e None None (Some hs) None in
  (r = None <->
   forall j s, hs !! j = Some (Some s) -> Picking.is_hit P e (Some s) = false)
  /\ (forall k, r = Some k ->
        exists j s,
          k = Z.of_nat j /\ hs !! j = Some (Some s)
          /\ Picking.is_hit P e (Some s) = true
          /\ forall j' s', hs !! j' = Some (Some s') ->
               Picking.is_hit P e (Some s') = true ->
               Picking.distance2 e s <= Picking.distance2 e s'
               /\ ((j < j')%nat -> Picking.distance2 e s < Picking.distance2 e s')).
Proof.
  intros Htext r. subst r. unfold Picking.getHandleForEvent. rewrite Htext.
  cbn [Picking.checkShape fst snd].
  destruct (handle_loop_spec P e (fun i => i) hs 0%Z None None)
    as [[Hrun Hfar] | (j & s & Hj & Hhit & Hrun & _ & Hmin)]; rewrite Hrun; cbn [fst].
  - split.
    + split; [|reflexivity]. intros _ j s Hj.
      destruct (Picking.is_hit P e (Some s)) eqn:Hhit; [|reflexivity].
      destruct (Hfar j s Hj Hhit) as (d0 & Hd0 & _). discriminate.
    + intros k Hk. discriminate.
  - split.
    + split; [discriminate|]. intros Hno. rewrite (Hno j s Hj) in Hhit. discriminate.
    + intros k [= <-]. exists j, s. split; [lia|]. auto.
Qed.

Lemma closest_handle_wins_witness :
  Picking.getHandleForEvent sample_picking_env (release_at (ofZ 103) (ofZ 50))
    None None (Some near_shapes) None = Some 1%Z.
Proof.
  destruct (closest_handle_wins sample_picking_env (release_at (ofZ 103) (ofZ 50))
              near_shapes eq_refl) as [_ H].
  destruct (Picking.getHandleForEvent sample_picking_env
              (release_at (ofZ 103) (ofZ 50)) None None (Some near_shapes) None)
    as [k|] eqn:Hr; [|vm_compute in Hr; discriminate].
  destruct (H k eq_refl) as (j & s & -> & Hj & _ & Hmin).
  destruct j as [|[|j]]; [| reflexivity | discriminate].
  exfalso. injection Hj as <-.
  destruct (Hmin 1%nat _ eq_refl ltac:(vm_compute; reflexivity)) as [Hle _].
  vm_compute in Hle. apply Hle. reflexivity.
Defined.

(** ** Releasing the mouse *)






(** X15.  A press and a release at the same client position change nothing
    in the model, whichever handle was pressed and whatever error the handler
    holds: [mouseUp] returns, and the only calls made are those by which the
    handler tidies up and consumes the event. *)
Theorem mouseUp_click_keeps_the_model (E : EdgeHandler.Env) (G : EdgeHandler.Graph)
    (h : EdgeHandler.t) (e : EdgeHandler.MouseEvent) (w : EdgeHandler.World)
    (i : Z) (mk : EdgeHandler.Marker) :
  EdgeHandler.index h = Some i ->
  EdgeHandler.marker h = Some mk ->
  EdgeHandler.clientX e = EdgeHandler.startX h ->
  EdgeHandler.clientY e = EdgeHandler.startY h ->
  exists h' cs,
    EdgeHandler.mouseUp E G h e w = Some (h', EdgeHandler.emit cs w)
    /\ forallb EdgeHandler.housekeeping cs = true
    /\ EdgeHandler.model (EdgeHandler.emit cs w) = EdgeHandler.model w.
Proof.
  intros Hi Hm Hx Hy. unfold EdgeHandler.mouseUp. rewrite Hi, Hm.
  rewrite (bool_decide_eq_false_2 (EdgeHandler.clientX e <> _)) by (intros H; exact (H Hx)).
  rewrite (bool_decide_eq_false_2 (EdgeHandler.clientY e <> _)) by (intros H; exact (H Hy)).
  cbn [orb mbind option_bind].
  set (h0 := EdgeHandler.with_index_absolutePoints h None _).
  destruct (reset_housekeeping h0 w) as (cs & Hw & Hcs & _).
  destruct (EdgeHandler.reset h0 w) as [h2 w2]. cbn [snd] in Hw. subst w2.
  rewrite (bool_decide_eq_false_2 (_ <> _)) by (intros H; apply H; reflexivity).
  rewrite emit_emit. exists h2, (cs ++ [EdgeHandler.Consume]).
  split; [reflexivity|]. split; [|reflexivity].
  rewrite forallb_app, Hcs. reflexivity.
Qed.

Lemma mouseUp_click_keeps_the_model_witness :
  exists h' cs,
    EdgeHandler.mouseUp sample_env (sample_graph true)
      (dragging 0 sample_abs (Some "no loops"%string) idle_marker
         idle_constraintHandler)
      (release_at (ofZ 10) (ofZ 10)) sample_world
    = Some (h', EdgeHandler.emit cs sample_world)
    /\ forallb EdgeHandler.housekeeping cs = true
    /\ EdgeHandler.model (EdgeHandler.emit cs sample_world) = sample_model.
Proof.
  exact (mouseUp_click_keeps_the_model sample_env (sample_graph true)
           (dragging 0 sample_abs (Some "no loops"%string) idle_marker
              idle_constraintHandler)
           (release_at (ofZ 10) (ofZ 10)) sample_world 0 idle_marker
           eq_refl eq_refl eq_refl eq_refl).
Defined.

(** ** Cloning on a drop *)









(** ** Dropping an end on a terminal *)




(** ** Dragging a virtual handle *)

(** X18.  Dragging a virtual handle makes a waypoint.  For a handle that is
    neither the source nor the target handle and whose index is that of a
    virtual handle at a position [k] within the waypoint list, when the drag
    point lies in no other handle and no straightened segment is removed,
    [getPreviewPoints] returns the waypoints of the edge with the converted
    drag point put in at position [k]: one waypoint more, the others as they
    were and in their order.  On an edge whose geometry has no waypoint list
    the result is the list of the converted drag point alone. *)
Theorem getPreviewPoints_virtual_handle_adds_a_waypoint
    (E : EdgeHandler.Env) (G : EdgeHandler.Graph) (h : EdgeHandler.t)
    (m : EdgeHandler.Model) (p : Point.t) (e : option EdgeHandler.MouseEvent)
    (i : Z) (geo : EdgeHandler.Geometry) :
  EdgeHandler.index h = Some i ->
  EdgeHandler.isSourceHandle h = false ->
  EdgeHandler.isTargetHandle h = false ->
  EdgeHandler.getGeometry m (EdgeHandler.cell (EdgeHandler.state h)) = Some geo ->
  let q := EdgeHandler.convertPoint E G h p false in
  let k := EdgeHandler.getVisualHandle E i in
  (EdgeHandler.points geo = None ->
   EdgeHandler.getPreviewPoints E G h m p e = Some (Some [Some q]))
  /\ (forall pts,
        EdgeHandler.points geo = Some pts ->
        EdgeHandler.isVisualHandle E i = true ->
        (0 <= k <= Z.of_nat (length pts))%Z ->
        (forall hs j b, EdgeHandler.handles h = Some hs -> hs !! j = Some (Some b) ->
                        Z.of_nat j <> i -> EdgeHandler.containsPoint E b p = false) ->
        (EdgeHandler.straighten_enabled h e = true ->
         EdgeHandler.checkRemove E G (EdgeHandler.straighten_abs E h i p) i p
         = Some false) ->
        exists result,
          EdgeHandler.getPreviewPoints E G h m p e = Some (Some result)
          /\ length result = S (length pts)
          /\ result !! Z.to_nat k = Some (Some q)
          /\ delete (Z.to_nat k) result = pts).
Proof.
  intros Hi Hs Ht Hg q k. split.
  - intros Hp. unfold EdgeHandler.getPreviewPoints.
    rewrite Hi. cbn [mbind option_bind]. rewrite Hg. cbn [mbind option_bind].
    rewrite Hs, Ht, Hp. cbn [negb andb]. rewrite Point_clone_id. reflexivity.
  - intros pts Hp Hv Hk Hno Hstr.
    exists (splice_insert pts k (Some q)).
    destruct (splice_insert_lookup pts k (Some q) Hk) as [Hl Hn].
    split; [|split; [exact Hn | split; [exact Hl|]]].
    + unfold EdgeHandler.getPreviewPoints.
      rewrite Hi. cbn [mbind option_bind]. rewrite Hg. cbn [mbind option_bind].
      rewrite Hs, Ht, Hp, Hv. cbn [negb andb]. rewrite Point_clone_id. fold q k.
      assert (match EdgeHandler.handles h with
              | Some hs =>
                  EdgeHandler.merge_loop E i p hs 0 (splice_insert pts k (Some q), false)
              | None => (splice_insert pts k (Some q), false)
              end = (splice_insert pts k (Some q), false)) as ->.
      { destruct (EdgeHandler.handles h) as [hs|] eqn:Hh; [|reflexivity].
        apply merge_loop_no_hit. intros j b Hj Hne.
        apply (Hno hs j b); [reflexivity | exact Hj | lia]. }
      cbn [negb andb orb].
      destruct (EdgeHandler.straighten_enabled h e) eqn:Hen.
      * rewrite (Hstr eq_refl). reflexivity.
      * reflexivity.
    + rewrite <- splice_remove_one by lia. apply splice_insert_remove. exact Hk.
Qed.

Lemma getPreviewPoints_virtual_handle_adds_a_waypoint_witness :
  exists result,
    EdgeHandler.getPreviewPoints sample_env (sample_graph true)
      (dragging (-100001) sample_abs None idle_marker idle_constraintHandler)
      sample_model (Point.mk (ofZ 120) (ofZ 70)) None = Some (Some result)
    /\ length result = 3%nat
    /\ delete 1%nat result = [Some waypoint_1; Some waypoint_2].
Proof.
  destruct (getPreviewPoints_virtual_handle_adds_a_waypoint sample_env
              (sample_graph true)
              (dragging (-100001) sample_abs None idle_marker idle_constraintHandler)
              sample_model (Point.mk (ofZ 120) (ofZ 70)) None (-100001)
              sample_geometry eq_refl eq_refl eq_refl eq_refl) as [_ H].
  destruct (H [Some waypoint_1; Some waypoint_2] eq_refl eq_refl
              ltac:(vm_compute; split; discriminate))
    as (result & Hrun & Hlen & _ & Hdel).
  - intros hs j b [= <-] Hj _.
    do 4 (destruct j as [|j]; [injection Hj as <-; vm_compute; reflexivity|]).
    discriminate.
  - intros Hen. discriminate Hen.
  - exists result. split; [exact Hrun|]. split; [exact Hlen | exact Hdel].
Defined.

(** ** The preview leaves the rest of the style alone *)

Lemma preview_style_other (h : EdgeHandler.t) (c : option EdgeHandler.Constraint)
    (st : gmap string number) (k : string) :
  k <> "exitX"%string -> k <> "exitY"%string ->
  k <> "entryX"%string -> k <> "entryY"%string ->
  EdgeHandler.preview_style h c st !! k = st !! k.
Proof.
  intros H1 H2 H3 H4. unfold EdgeHandler.preview_style.
  destruct (_ || _); [|reflexivity].
  destruct (c ≫= EdgeHandler.point), (EdgeHandler.isSourceHandle h);
    rewrite ?lookup_insert_ne, ?lookup_delete_ne by congruence; reflexivity.
Qed.

Lemma preview_edge_cell (E : EdgeHandler.Env) (V : EdgeHandler.ViewApi)
    (h : EdgeHandler.t) (edge : EdgeHandler.EdgeState) (point : Point.t)
    (constraint : option EdgeHandler.Constraint)
    (terminalState : option EdgeHandler.TerminalState) :
  EdgeHandler.cell (EdgeHandler.preview_edge E V h edge point constraint terminalState)
  = EdgeHandler.cell edge.
Proof.
  unfold EdgeHandler.preview_edge. cbv zeta.
  repeat match goal with
         | |- context [if ?b then _ else _] => destruct b
         end; reflexivity.
Qed.

(** X19.  [updatePreviewState] touches the style of the preview edge only
    at the keys of the dragged end.  Whenever it returns, the preview edge is
    for the same cell; every style key other than [exitX], [exitY], [entryX]
    and [entryY] has the value it had; a drag of the source handle leaves the
    entry keys as they were, a drag of the target handle (that is not also
    the source handle) the exit keys, and a drag of any other handle the
    whole style.  Of the handler only the marker, the constraint handler and
    the error can change. *)
Theorem updatePreviewState_keeps_the_other_style
    (E : EdgeHandler.Env) (V : EdgeHandler.ViewApi) (G : EdgeHandler.Graph)
    (h h' : EdgeHandler.t) (edge edge' : EdgeHandler.EdgeState) (point : Point.t)
    (terminalState : option EdgeHandler.TerminalState)
    (e : EdgeHandler.MouseEvent) (outline : bool) :
  EdgeHandler.updatePreviewState E V G h edge point terminalState e outline
  = Some (edge', h') ->
  EdgeHandler.cell edge' = EdgeHandler.cell edge
  /\ (forall k, k <> "exitX"%string -> k <> "exitY"%string ->
                k <> "entryX"%string -> k <> "entryY"%string ->
                EdgeHandler.style edge' !! k = EdgeHandler.style edge !! k)
  /\ (EdgeHandler.isSourceHandle h = true ->
      EdgeHandler.style edge' !! "entryX"%string
      = EdgeHandler.style edge !! "entryX"%string
      /\ EdgeHandler.style edge' !! "entryY"%string
         = EdgeHandler.style edge !! "entryY"%string)
  /\ (EdgeHandler.isSourceHandle h = false ->
      EdgeHandler.style edge' !! "exitX"%string
      = EdgeHandler.style edge !! "exitX"%string
      /\ EdgeHandler.style edge' !! "exitY"%string
         = EdgeHandler.style edge !! "exitY"%string)
  /\ (EdgeHandler.isSourceHandle h = false -> EdgeHandler.isTargetHandle h = false ->
      EdgeHandler.style edge' = EdgeHandler.style edge)
  /\ EdgeHandler.with_preview h' (EdgeHandler.marker h)
       (EdgeHandler.constraintHandler h) (EdgeHandler.error h) = h.
Proof.
  unfold EdgeHandler.updatePreviewState. intros Hrun.
  destruct (EdgeHandler.preview_constraint E h point terminalState e outline)
    as [[c pt] ch].
  destruct (EdgeHandler.preview_marker E G h ch e outline) as [mk|];
    cbn [mbind option_bind] in Hrun; [|discriminate].
  destruct (EdgeHandler.preview_error G h terminalState mk) as [err|];
    cbn [mbind option_bind] in Hrun; [|discriminate].
  injection Hrun as <- <-.
  rewrite preview_edge_cell, preview_edge_style.
  split; [reflexivity|]. split; [intros k; apply preview_style_other|].
  unfold EdgeHandler.preview_style.
  split; [|split; [|split]].
  - intros ->. cbn [orb].
    destruct (c ≫= EdgeHandler.point);
      rewrite ?lookup_insert_ne, ?lookup_delete_ne by discriminate;
      split; reflexivity.
  - intros ->. cbn [orb]. destruct (EdgeHandler.isTargetHandle h);
      [|split; reflexivity].
    destruct (c ≫= EdgeHandler.point);
      rewrite ?lookup_insert_ne, ?lookup_delete_ne by discriminate;
      split; reflexivity.
  - intros -> ->. reflexivity.
  - destruct h. reflexivity.
Qed.

Lemma updatePreviewState_keeps_the_other_style_witness :
  exists edge' h',
    EdgeHandler.updatePreviewState sample_env sample_view (sample_graph true)
      (dragging 0 sample_abs None idle_marker fixed_on_A)
      (EdgeHandler.with_style sample_edge_state
         (<["entryX"%string := 1]> (<["rounded"%string := 1]> ∅)))
      (Point.mk (ofZ 40) (ofZ 30)) (Some state_A)
      (release_at (ofZ 40) (ofZ 30)) false = Some (edge', h')
    /\ EdgeHandler.style edge' !! "rounded"%string = Some 1
    /\ EdgeHandler.style edge' !! "entryX"%string = Some 1.
Proof.
  destruct (EdgeHandler.updatePreviewState sample_env sample_view (sample_graph true)
              (dragging 0 sample_abs None idle_marker fixed_on_A)
              (EdgeHandler.with_style sample_edge_state
                 (<["entryX"%string := 1]> (<["rounded"%string := 1]> ∅)))
              (Point.mk (ofZ 40) (ofZ 30)) (Some state_A)
              (release_at (ofZ 40) (ofZ 30)) false)
    as [[edge' h']|] eqn:Hrun; [|vm_compute in Hrun; discriminate].
  exists edge', h'. split; [reflexivity|].
  destruct (updatePreviewState_keeps_the_other_style _ _ _ _ _ _ _ _ _ _ _ Hrun)
    as (_ & Hother & Hentry & _).
  split.
  - rewrite Hother by discriminate. reflexivity.
  - destruct (Hentry eq_refl) as [Hx _]. rewrite Hx. reflexivity.
Defined.

(** ** What the marker offers *)

(** X20.  A cell [getCell] returns is not an edge when the graph does not
    connect edges to edges; and when it is a swimlane, the preview point (if
    there is one) is not on its content. *)
Theorem getCell_offers_only_terminals
    (ME : EdgeHandler.MarkerEnv) (G : EdgeHandler.Graph)
    (stateCell : EdgeHandler.Cell) (currentPoint : option Point.t)
    (e : EdgeHandler.MouseEvent) (r : EdgeHandler.Cell) :
  EdgeHandler.getCell ME G stateCell currentPoint e = Some r ->
  (EdgeHandler.edgesConnectable G = false -> EdgeHandler.isEdge ME r = false)
  /\ (forall cp, currentPoint = Some cp ->
                 EdgeHandler.isSwimlane ME (Some r) = true ->
                 EdgeHandler.hitsSwimlaneContent ME (Some r) (Point.x cp) (Point.y cp)
                 = false).
Proof.
  unfold EdgeHandler.getCell. intros Hr.
  set (cell := EdgeHandler.candidate ME stateCell currentPoint e) in *.
  destruct (EdgeHandler.rejected ME G stateCell currentPoint cell) eqn:Hrej.
  { destruct (EdgeHandler.isCellConnectable ME None); discriminate. }
  destruct (EdgeHandler.isCellConnectable ME cell) eqn:Hcon; cbn in Hr;
    [|discriminate].
  rewrite Hr in *. clear Hr cell.
  unfold EdgeHandler.rejected in Hrej.
  apply orb_false_elim in Hrej as [Hrej _].
  apply orb_false_elim in Hrej as [Hrej Hedge].
  apply orb_false_elim in Hrej as [Hswim _].
  apply orb_false_elim in Hedge as [_ Hedge].
  split.
  - intros Hec. rewrite Hec in Hedge. exact Hedge.
  - intros cp -> Hs. rewrite Hs in Hswim. exact Hswim.
Qed.

Lemma getCell_offers_only_terminals_witness :
  EdgeHandler.isEdge sample_marker_env 2%nat = false.
Proof.
  destruct (getCell_offers_only_terminals sample_marker_env (sample_graph true)
              3%nat None (over_cell (Some 2%nat)) 2%nat eq_refl) as (He & _).
  exact (He eq_refl).
Defined.

(** ** Placing the virtual handles *)

Section virtual_handles.

Context (HE : Handles.Env) (manage : bool).

(** The state of the loop over the virtual handles after the first [k]
    handles, when every absolute point and every handle is there. *)
Lemma redrawVirtualHandle_steps (pts : list Point.t)
    (hs : list (option Rectangle.t)) (label : option Handles.LabelHandle) (p0 : Point.t) :
  pts !! 0%nat = Some p0 ->
  length pts = S (length hs) ->
  (forall i, (i < length hs)%nat -> exists b, hs !! i = Some (Some b)) ->
  forall k, (k <= length hs)%nat ->
    exists v,
      fold_left (Handles.redrawVirtualHandle HE manage (Some <$> pts)) (seq 0 k)
        (Some {| Handles.pl := Some p0; Handles.virtualHandles := hs;
                 Handles.v_label := label |})
      = Some v
      /\ Handles.pl v = pts !! k
      /\ length (Handles.virtualHandles v) = length hs
      /\ (forall i, (k <= i)%nat -> Handles.virtualHandles v !! i = hs !! i)
      /\ (forall i b, (i < k)%nat -> Handles.virtualHandles v !! i = Some (Some b) ->
            exists b0 p q,
              hs !! i = Some (Some b0) /\ pts !! i = Some p /\ pts !! S i = Some q
              /\ b = Handles.centred Math_floor (Handles.segment_middle p q)
                       (Rectangle.width b0) (Rectangle.height b0)).
Proof.
  intros Hp0 Hlen Hall. induction k as [|k IH]; intros Hk.
  - eexists. split; [reflexivity|]. cbn. split; [symmetry; exact Hp0|].
    split; [reflexivity|]. split; [reflexivity|]. intros i b Hi. lia.
  - destruct (IH ltac:(lia)) as (v & Hrun & Hpl & Hl & Hrest & Hdone).
    rewrite seq_S, fold_left_app, Hrun. cbn [fold_left Nat.add].
    unfold Handles.redrawVirtualHandle. cbn [mbind option_bind].
    destruct (Hall k ltac:(lia)) as [b0 Hb0].
    rewrite (Hrest k (Nat.le_refl k)), Hb0. cbn [mjoin option_join].
    destruct (lookup_lt_is_Some_2 pts k ltac:(lia)) as [p Hp].
    destruct (lookup_lt_is_Some_2 pts (S k) ltac:(lia)) as [q Hq].
    rewrite list_lookup_fmap, Hq. cbn [fmap option_fmap option_map mjoin option_join].
    rewrite Hpl, Hp. cbn [mbind option_bind].
    eexists. split; [reflexivity|]. cbn [Handles.pl Handles.virtualHandles].
    split; [reflexivity|].
    split; [rewrite length_insert; exact Hl|]. split.
    + intros i Hi. rewrite list_lookup_insert_ne by lia. apply Hrest. lia.
    + intros i b Hi Hb. destruct (decide (i = k)) as [->|Hne].
      * rewrite list_lookup_insert_eq in Hb by lia. injection Hb as <-.
        exists b0, p, q. repeat split; assumption.
      * rewrite list_lookup_insert_ne in Hb by congruence.
        apply Hdone; [lia | exact Hb].
Qed.

End virtual_handles.

(** X21.  [redrawHandles] puts each virtual handle on the middle of its
    segment.  With one virtual handle for every segment of the edge (as
    [createVirtualHandles] makes them), all of them and all absolute points
    there, and handles at least 2 wide and high, the loop over the virtual
    handles returns, keeps their number, and leaves the handle at position
    [i] holding the middle between the absolute points [i] and [i + 1]. *)
Theorem virtual_handles_sit_on_the_middles (HE : Handles.Env) (manage : bool)
    (pts : list Point.t) (hs : list (option Rectangle.t))
    (label : option Handles.LabelHandle) :
  length pts = S (length hs) ->
  (forall i, (i < length hs)%nat -> exists b, hs !! i = Some (Some b)) ->
  Handles.at_least two hs ->
  exists hs' label',
    Handles.redrawVirtualHandles HE manage (Some <$> pts) (Some hs) label
    = Some (Some hs', label')
    /\ length hs' = length hs
    /\ forall i b p q,
         hs' !! i = Some (Some b) -> pts !! i = Some p -> pts !! S i = Some q ->
         Handles.holds b (Handles.segment_middle p q).
Proof.
  intros Hlen Hall Hsize. unfold Handles.redrawVirtualHandles.
  case_bool_decide as Hn.
  2:{ exists hs, label. split; [reflexivity|]. split; [reflexivity|].
      intros i b p q Hb. apply lookup_lt_Some in Hb. lia. }
  destruct (lookup_lt_is_Some_2 pts 0 ltac:(lia)) as [p0 Hp0].
  rewrite list_lookup_fmap, Hp0. cbn [fmap option_fmap option_map mjoin option_join].
  destruct (redrawVirtualHandle_steps HE manage pts hs label p0 Hp0 Hlen Hall
              (length hs) (Nat.le_refl _)) as (v & Hrun & _ & Hl & _ & Hdone).
  rewrite Hrun. cbn [mbind option_bind].
  eexists _, _. split; [reflexivity|]. split; [exact Hl|].
  intros i b p q Hb Hp Hq.
  assert (i < length hs)%nat as Hi by (rewrite <- Hl; eapply lookup_lt_Some, Hb).
  destruct (Hdone i b Hi Hb) as (b0 & p' & q' & Hb0 & Hp' & Hq' & ->).
  rewrite Hp in Hp'. rewrite Hq in Hq'. injection Hp' as <-. injection Hq' as <-.
  destruct (Hsize _ _ Hb0) as [Hw Hh].
  apply centred_floor_holds; assumption.
Qed.

Lemma virtual_handles_sit_on_the_middles_witness :
  exists hs' label',
    Handles.redrawVirtualHandles sample_handles_env false
      (Some <$> [Point.mk (ofZ 80) (ofZ 15); waypoint_1; waypoint_2])
      (Some [Some (Rectangle.mk 0 0 (ofZ 6) (ofZ 6));
             Some (Rectangle.mk 0 0 (ofZ 6) (ofZ 6))]) None
    = Some (Some hs', label')
    /\ length hs' = 2%nat
    /\ forall i b p q,
         hs' !! i = Some (Some b) ->
         [Point.mk (ofZ 80) (ofZ 15); waypoint_1; waypoint_2] !! i = Some p ->
         [Point.mk (ofZ 80) (ofZ 15); waypoint_1; waypoint_2] !! S i = Some q ->
         Handles.holds b (Handles.segment_middle p q).
Proof.
  apply (virtual_handles_sit_on_the_middles sample_handles_env false
           [Point.mk (ofZ 80) (ofZ 15); waypoint_1; waypoint_2]
           [Some (Rectangle.mk 0 0 (ofZ 6) (ofZ 6));
            Some (Rectangle.mk 0 0 (ofZ 6) (ofZ 6))] None eq_refl).
  - intros i Hi. destruct i as [|[|i]]; [eexists; reflexivity .. |].
    cbn in Hi. lia.
  - intros i b Hb.
    do 2 (destruct i as [|i];
          [injection Hb as <-; split; vm_compute; discriminate|]).
    discriminate.
Defined.
